(** * energymon-jetson: rail discovery and energy integration

    A shallow embedding of [src/jetson/energymon-jetson.c], the energymon
    backend for NVIDIA Jetson boards with TI INA3221 power monitors, and the
    properties of its rail discovery, interval resolution, sampling loop and
    lifecycle.

    Conventions.
    - The target is LP64 Linux (aarch64 Linux for Tegra): [int] has 32 bits,
      [long], [unsigned long], [size_t] and [uint64_t] have 64 bits.  Machine
      integers are [Z] with the wrap-around written out.
    - The C library and the kernel are modelled by what the code can observe
      of them: [errno], the table of open descriptors, the number of live heap
      blocks, an oracle that makes chosen allocations fail, and a read-only
      host (sysfs tree, environment, thread primitives).
    - C strings are [list ascii]; a [char] buffer is the list of its bytes and
      the string it holds ends at its first NUL. *)

From Stdlib Require Import ZArith List String Ascii Bool Lia DecimalString.
From stdpp Require Import base option list strings gmap.

Local Open Scope string_scope.
Local Open Scope Z_scope.

(** ** Machine integers *)

Definition ULONG_MAX : Z := 2 ^ 64 - 1.
Definition LONG_MAX : Z := 2 ^ 63 - 1.
Definition LONG_MIN : Z := - 2 ^ 63.

(** Conversion to [unsigned long] / [uint64_t] / [size_t]. *)
Definition wrap64 (z : Z) : Z := z mod 2 ^ 64.

(** Conversion to [int], as gcc and clang do it (reduction modulo 2^32 into
    the signed range). *)
Definition to_int (z : Z) : Z := (z + 2 ^ 31) mod 2 ^ 32 - 2 ^ 31.

(** Conversion to [long]. *)
Definition to_long (z : Z) : Z := (z + 2 ^ 63) mod 2 ^ 64 - 2 ^ 63.

(** ** errno values (Linux) *)

Definition ENOENT : Z := 2.
Definition ESRCH : Z := 3.
Definition EIO : Z := 5.
Definition EBADF : Z := 9.
Definition EAGAIN : Z := 11.
Definition ENOMEM : Z := 12.
Definition EACCES : Z := 13.
Definition EEXIST : Z := 17.
Definition ENODEV : Z := 19.
Definition EINVAL : Z := 22.
Definition ERANGE : Z := 34.

(** ** Constants of the source *)

Definition PATH_MAX : Z := 4096.
Definition NUM_RAILS_DEFAULT_MAX : Z := 6.
Definition INA3221X_DIR : string := "/sys/bus/i2c/drivers/ina3221x".
Definition ENERGYMON_JETSON_INTERVAL_US : string := "ENERGYMON_JETSON_INTERVAL_US".
(** The macro is declared in [energymon-jetson.h], which is not among the
    sources at hand; the variable is taken to bear the name of the macro. *)
Definition ENERGYMON_JETSON_RAIL_NAMES : string := "ENERGYMON_JETSON_RAIL_NAMES".
Definition INA3221_CHANNELS_MAX : Z := 3.
Definition INA3221_MIN_POLLING_DELAY_US : Z := 1000.
Definition INA3221_DEFAULT_POLLING_DELAY_US : Z := 100000.

(** ** The C library: characters and strings *)

Definition NUL : ascii := Ascii.zero.
Definition LF : ascii := ascii_of_nat 10.

Definition char_code (c : ascii) : Z := Z.of_N (N_of_ascii c).

(** [isspace] in the C locale: space, and \t \n \v \f \r. *)
Definition isspace (c : ascii) : bool :=
  let n := char_code c in (n =? 32) || ((9 <=? n) && (n <=? 13)).

(** The value of a digit or letter, as [strtol] reads it. *)
Definition digit_value (c : ascii) : option Z :=
  let n := char_code c in
  if (48 <=? n) && (n <=? 57) then Some (n - 48)
  else if (97 <=? n) && (n <=? 122) then Some (n - 87)
  else if (65 <=? n) && (n <=? 90) then Some (n - 55)
  else None.

Definition digit_in_base (base : Z) (c : ascii) : option Z :=
  match digit_value c with
  | Some d => if d <? base then Some d else None
  | None => None
  end.

Fixpoint skip_spaces (s : list ascii) : list ascii :=
  match s with
  | c :: r => if isspace c then skip_spaces r else s
  | [] => []
  end.

Definition take_sign (s : list ascii) : bool * list ascii :=
  match s with
  | c :: r =>
      if Ascii.eqb c "-" then (true, r)
      else if Ascii.eqb c "+" then (false, r)
      else (false, s)
  | [] => (false, [])
  end.

(** Base 0: a [0x]/[0X] prefix followed by a hexadecimal digit selects base
    16, another leading [0] base 8, anything else base 10. *)
Definition detect_base (s : list ascii) : Z * list ascii :=
  match s with
  | z :: x :: d :: r =>
      if Ascii.eqb z "0" then
        if (Ascii.eqb x "x" || Ascii.eqb x "X") && bool_decide (is_Some (digit_in_base 16 d))
        then (16, d :: r)
        else (8, s)
      else (10, s)
  | z :: _ => if Ascii.eqb z "0" then (8, s) else (10, s)
  | [] => (10, s)
  end.

(** The digits of the subject sequence: the magnitude read so far and
    whether any digit was consumed. *)
Fixpoint scan_digits (base : Z) (s : list ascii) (acc : Z) (any : bool) : Z * bool :=
  match s with
  | c :: r =>
      match digit_in_base base c with
      | Some d => scan_digits base r (acc * base + d) true
      | None => (acc, any)
      end
  | [] => (acc, any)
  end.

(** The subject sequence of [strtol]/[strtoul] with base 0: sign, magnitude,
    and whether a conversion was performed. *)
Definition scan_number (s : list ascii) : bool * Z * bool :=
  let '(neg, s1) := take_sign (skip_spaces s) in
  let '(base, s2) := detect_base s1 in
  let '(acc, any) := scan_digits base s2 0 false in
  (neg, acc, any).

(** [strtoul(s, NULL, 0)]: the value, and the error it stores in [errno], if
    any.  As in glibc, the only error is ERANGE; a string with no digits
    converts to 0 and leaves [errno] alone.  The scan stops at the first byte
    that is not part of the number, in particular at a NUL or a newline; a
    buffer that holds no such byte is read to its end. *)
Definition strtoul (s : list ascii) : Z * option Z :=
  let '(neg, acc, any) := scan_number s in
  if negb any then (0, None)
  else if ULONG_MAX <? acc then (ULONG_MAX, Some ERANGE)
  else (if neg then wrap64 (- acc) else acc, None).

(** [strtol(s, NULL, 0)]. *)
Definition strtol (s : list ascii) : Z * option Z :=
  let '(neg, acc, any) := scan_number s in
  if negb any then (0, None)
  else if neg then
    if 2 ^ 63 <? acc then (LONG_MIN, Some ERANGE) else (- acc, None)
  else
    if LONG_MAX <? acc then (LONG_MAX, Some ERANGE) else (acc, None).

(** The string a buffer holds: its bytes up to the first NUL. *)
Fixpoint c_str (buf : list ascii) : list ascii :=
  match buf with
  | c :: r => if Ascii.eqb c NUL then [] else c :: c_str r
  | [] => []
  end.

(** [strcspn(s, "\n")]: the length of the prefix of the string without a
    newline. *)
Fixpoint strcspn_lf (buf : list ascii) : nat :=
  match buf with
  | c :: r => if Ascii.eqb c NUL || Ascii.eqb c LF then O else S (strcspn_lf r)
  | [] => O
  end.

(** [strncmp(a, b, n) == 0]: the strings agree on their first [n] bytes. *)
Definition strncmp_eq (a b : list ascii) (n : nat) : bool :=
  bool_decide (take n (c_str a) = take n (c_str b)).

(** [strcmp(a, b) == 0]. *)
Definition strcmp_eq (a b : list ascii) : bool :=
  bool_decide (c_str a = c_str b).

(** What a buffer holds after [n = length data] bytes were stored at its
    start: the rest keeps what it held. *)
Definition buf_store (data buf : list ascii) : list ascii :=
  data ++ drop (length data) buf.

Definition chars (s : string) : list ascii := list_ascii_of_string s.

(** [strtok_r] with the single delimiter [delim], called until it returns
    NULL: the maximal delimiter-free pieces, empty ones skipped. *)
Fixpoint strtok_all (delim : ascii) (s cur : list ascii) : list (list ascii) :=
  match s with
  | [] => match cur with [] => [] | _ => [rev cur] end
  | c :: r =>
      if Ascii.eqb c delim then
        match cur with
        | [] => strtok_all delim r []
        | _ => rev cur :: strtok_all delim r []
        end
      else strtok_all delim r (c :: cur)
  end.

(** ** The process and its host *)

(** What the code can observe and change: [errno], the open descriptors
    (each with the path it was opened on), the number of live heap blocks and
    of live threads it created, and the allocation oracle: each allocation
    request consumes the head of [oom] and fails when it is [true]; an empty
    oracle lets every allocation succeed. *)
Record sys := mkSys {
  errno : Z;
  fdtab : gmap Z string;
  heap : Z;
  threads : Z;
  oom : list bool;
}.

Definition with_errno (e : Z) (s : sys) : sys :=
  mkSys e (fdtab s) (heap s) (threads s) (oom s).
Definition with_fdtab (t : gmap Z string) (s : sys) : sys :=
  mkSys (errno s) t (heap s) (threads s) (oom s).
Definition with_heap (n : Z) (s : sys) : sys :=
  mkSys (errno s) (fdtab s) n (threads s) (oom s).
Definition with_threads (n : Z) (s : sys) : sys :=
  mkSys (errno s) (fdtab s) (heap s) n (oom s).
Definition with_oom (o : list bool) (s : sys) : sys :=
  mkSys (errno s) (fdtab s) (heap s) (threads s) o.

(** A file of the sysfs tree: [f_open = Some e] makes [open] fail with
    [errno = e], [f_read = Some e] makes [read] fail with [e]; otherwise a
    read returns [f_data] (one [read] call returns the whole attribute, up to
    the size asked for). *)
Record file := mkFile {
  f_open : option Z;
  f_read : option Z;
  f_data : string;
}.

Inductive dtype := DT_UNKNOWN | DT_DIR | DT_LNK | DT_REG.

#[global] Instance dtype_eq_dec : EqDecision dtype.
Proof. solve_decision. Defined.

Record dirent := mkDirent {
  d_type : dtype;
  d_name : string;
}.

(** A directory: [opendir] fails with an error, or [readdir] yields the
    entries in this order. *)
Inductive dirnode :=
| DirErr (e : Z)
| Dir (entries : list dirent).

(** The read-only host: regular files and directories by path, the
    environment, the result of [pthread_create] (0 or an error number), and
    the bytes that uninitialised stack buffers happen to hold. *)
Record host := mkHost {
  h_files : gmap string file;
  h_dirs : gmap string dirnode;
  h_env : gmap string string;
  h_pthread_create : Z;
  h_stack : list ascii;
}.

(** The state monad of the process. *)
Definition M (A : Type) : Type := sys → A * sys.

#[global] Instance M_ret : MRet M := λ A (a : A) (s : sys), (a, s).
#[global] Instance M_bind : MBind M :=
  λ A B (f : A → M B) (m : M A) (s : sys), let '(a, s') := m s in f a s'.

Definition get_errno : M Z := λ s, (errno s, s).
Definition set_errno (e : Z) : M unit := λ s, (tt, with_errno e s).

(** [getenv]: the C string the variable holds. *)
Definition getenv (h : host) (name : string) : option (list ascii) :=
  (λ v, c_str (chars v)) <$> h_env h !! name.

(** An uninitialised buffer of [n] bytes. *)
Definition uninit (h : host) (n : nat) : list ascii :=
  take n (h_stack h ++ replicate n NUL).

(** *** Descriptors *)

(** The lowest descriptor number that is not in use. *)
Fixpoint lowest_free_from (fuel : nat) (n : Z) (tab : gmap Z string) : Z :=
  match fuel with
  | O => n
  | S k => if decide (is_Some (tab !! n)) then lowest_free_from k (n + 1) tab else n
  end.

Definition lowest_free (tab : gmap Z string) : Z :=
  lowest_free_from (size tab) 0 tab.

(** [open(path, O_RDONLY)]. *)
Definition sys_open (h : host) (path : string) : M Z := λ s,
  match h_files h !! path with
  | None => (-1, with_errno ENOENT s)
  | Some f =>
      match f_open f with
      | Some e => (-1, with_errno e s)
      | None =>
          let fd := lowest_free (fdtab s) in
          (fd, with_fdtab (<[fd := path]> (fdtab s)) s)
      end
  end.

(** [read(fd, buf, len)]: the count returned and the bytes stored. *)
Definition sys_read (h : host) (fd : Z) (len : nat) : M (Z * list ascii) := λ s,
  match fdtab s !! fd with
  | None => ((-1, []), with_errno EBADF s)
  | Some path =>
      match h_files h !! path with
      | None => ((-1, []), with_errno EIO s)
      | Some f =>
          match f_read f with
          | Some e => ((-1, []), with_errno e s)
          | None =>
              let data := take len (chars (f_data f)) in
              ((Z.of_nat (length data), data), s)
          end
      end
  end.

(** [close(fd)]. *)
Definition sys_close (fd : Z) : M Z := λ s,
  match fdtab s !! fd with
  | None => (-1, with_errno EBADF s)
  | Some _ => (0, with_fdtab (delete fd (fdtab s)) s)
  end.

(** [opendir] followed by [readdir] until NULL and [closedir]: the entries
    of the directory, or the error of [opendir]. *)
Definition sys_opendir (h : host) (path : string) : M (option (list dirent)) := λ s,
  match h_dirs h !! path with
  | None => (None, with_errno ENOENT s)
  | Some (DirErr e) => (None, with_errno e s)
  | Some (Dir entries) => (Some entries, s)
  end.

(** *** The heap *)

(** One allocation request ([malloc], [calloc], [strdup], [realloc]):
    whether it succeeds.  A failure sets ENOMEM. *)
Definition alloc_request : M bool := λ s,
  match oom s with
  | true :: o => (false, with_errno ENOMEM (with_oom o s))
  | false :: o => (true, with_oom o s)
  | [] => (true, s)
  end.

(** A new block comes to life, or [n] blocks are freed. *)
Definition heap_new : M unit := λ s, (tt, with_heap (heap s + 1) s).
Definition heap_free (n : Z) : M unit := λ s, (tt, with_heap (heap s - n) s).

(** ** Reading sysfs attributes *)

Definition fmt_d (n : Z) : string := NilZero.string_of_int (Z.to_int n).

(** The [snprintf] templates.  [PATH_MAX] bytes hold every path built from
    directory entry names, which have at most 255 bytes, so none is cut. *)
Definition INA3221X_DIR_TEMPLATE_BUS_ADDR (bus_addr : string) : string :=
  INA3221X_DIR +:+ "/" +:+ bus_addr.
Definition INA3221X_FILE_TEMPLATE_RAIL_NAME (bus_addr device : string) (channel : Z) : string :=
  INA3221X_DIR +:+ "/" +:+ bus_addr +:+ "/" +:+ device +:+ "/rail_name_" +:+ fmt_d channel.
Definition INA3221X_FILE_TEMPLATE_POWER (bus_addr device : string) (channel : Z) : string :=
  INA3221X_DIR +:+ "/" +:+ bus_addr +:+ "/" +:+ device +:+ "/in_power" +:+ fmt_d channel +:+ "_input".
Definition INA3221X_FILE_TEMPLATE_POLLING_DELAY (bus_addr device : string) (channel : Z) : string :=
  INA3221X_DIR +:+ "/" +:+ bus_addr +:+ "/" +:+ device +:+ "/polling_delay_" +:+ fmt_d channel.

(** The buffer of [read_string] after a read stored [data] in it: when the
    string now held has a newline before [len], it is cut there. *)
Definition strip_after_read (data str : list ascii) (len : nat) : list ascii :=
  let str1 := buf_store data str in
  let fin := strcspn_lf str1 in
  if decide (fin < len)%nat then <[fin := NUL]> str1 else str1.

Definition read_string (h : host) (file : string) (str : list ascii) (len : nat)
  : M (Z * list ascii) :=
  fd ← sys_open h file;
  if fd <? 0 then mret (-1, str)
  else
    '(ret, data) ← sys_read h fd len;
    let str' := if 0 <? ret then strip_after_read data str len else str in
    _ ← sys_close fd;
    mret (if ret <? 0 then -1 else 0, str').

Definition read_long (h : host) (file : string) : M Z :=
  fd ← sys_open h file;
  if fd <? 0 then mret (-1)
  else
    '(n, bytes) ← sys_read h fd 64;
    ret ←
      (if 0 <? n then
         _ ← set_errno 0;
         let '(v, e) := strtol (buf_store bytes (uninit h 64)) in
         _ ← from_option set_errno (mret tt) e;
         let ret := to_int v in
         en ← get_errno;
         mret (if (ret =? 0) && negb (en =? 0) then -1 else ret)
       else mret (-1));
    _ ← sys_close fd;
    mret ret.

Definition ina3221x_try_read_rail_name (h : host) (bus_addr device : string) (channel : Z)
    (name : list ascii) (len : nat) : M (Z * list ascii) :=
  read_string h (INA3221X_FILE_TEMPLATE_RAIL_NAME bus_addr device channel) name len.

Definition ina3221x_try_read_polling_delay_us (h : host) (bus_addr device : string)
    (channel : Z) : M Z :=
  v ← read_long h (INA3221X_FILE_TEMPLATE_POLLING_DELAY bus_addr device channel);
  mret (to_long (v * 1000)).

Definition ina3221x_open_power_file (h : host) (bus_addr device : string) (channel : Z) : M Z :=
  sys_open h (INA3221X_FILE_TEMPLATE_POWER bus_addr device channel).

(** ** The filesystem walk *)

Definition name_char (e : dirent) (i : nat) : ascii :=
  default NUL (chars (d_name e) !! i).

Definition is_iio_device_dir (entry : dirent) : bool :=
  bool_decide (d_type entry = DT_DIR)
  && (10 <? Z.of_nat (length (c_str (chars (d_name entry)))))
  && negb (Ascii.eqb (name_char entry 0) ".")
  && Ascii.eqb (name_char entry 3) ":".

Definition is_i2c_bus_addr_dir (entry : dirent) : bool :=
  (bool_decide (d_type entry = DT_LNK) || bool_decide (d_type entry = DT_DIR))
  && (2 <? Z.of_nat (length (c_str (chars (d_name entry)))))
  && negb (Ascii.eqb (name_char entry 0) ".")
  && Ascii.eqb (name_char entry 1) "-".

(** The inner [for] of [ina3221x_walk_device_dir]: the first index whose
    name the buffer matches. *)
Fixpoint match_index (name : list ascii) (names : list (list ascii)) : option nat :=
  match names with
  | [] => None
  | n :: r => if strncmp_eq name n 64 then Some O else S <$> match_index name r
  end.

(** What the walk carries along: the descriptor array, the largest polling
    delay seen, and the [name] buffer of the device being walked. *)
Record walk := mkWalk {
  w_fds : list Z;
  w_delay : Z;
  w_name : list ascii;
}.

(** The slot [fds[i]]. *)
Definition slot (fds : list Z) (i : nat) : Z := default 0 (fds !! i).

(** One iteration of the channel loop: 0 to go on, -1 to return -1. *)
Definition walk_channel (h : host) (names : list (list ascii)) (bus_addr device : string)
    (channel : Z) (w : walk) : M (Z * walk) :=
  _ ← set_errno 0;
  '(r, name) ← ina3221x_try_read_rail_name h bus_addr device channel (w_name w) 64;
  if r <? 0 then
    en ← get_errno;
    mret (if en =? ENOENT then 0 else -1, mkWalk (w_fds w) (w_delay w) name)
  else
    match match_index name names with
    | None => mret (0, mkWalk (w_fds w) (w_delay w) name)
    | Some i =>
        if negb (slot (w_fds w) i =? 0) then
          _ ← set_errno EEXIST;
          mret (-1, mkWalk (w_fds w) (w_delay w) name)
        else
          fd ← ina3221x_open_power_file h bus_addr device channel;
          let fds := <[i := fd]> (w_fds w) in
          if fd <? 0 then mret (-1, mkWalk fds (w_delay w) name)
          else
            polling_delay_us ← ina3221x_try_read_polling_delay_us h bus_addr device channel;
            let delay :=
              if (0 <? polling_delay_us) && (w_delay w <? polling_delay_us)
              then polling_delay_us else w_delay w in
            mret (0, mkWalk fds delay name)
    end.

Fixpoint walk_channels (h : host) (names : list (list ascii)) (bus_addr device : string)
    (channels : list Z) (w : walk) : M (Z * walk) :=
  match channels with
  | [] => mret (0, w)
  | channel :: rest =>
      '(r, w') ← walk_channel h names bus_addr device channel w;
      if r <? 0 then mret (-1, w') else walk_channels h names bus_addr device rest w'
  end.

Definition ina3221x_walk_device_dir (h : host) (names : list (list ascii)) (fds : list Z)
    (polling_delay_us_max : Z) (bus_addr device : string) : M (Z * list Z * Z) :=
  '(r, w) ← walk_channels h names bus_addr device (seqZ 0 INA3221_CHANNELS_MAX)
             (mkWalk fds polling_delay_us_max (uninit h 64));
  mret (r, w_fds w, w_delay w).

(** The [readdir] loop of [ina3221x_walk_bus_addr_dir]. *)
Fixpoint walk_devices (h : host) (names : list (list ascii)) (bus_addr : string)
    (entries : list dirent) (fds : list Z) (delay : Z) : M (Z * list Z * Z) :=
  match entries with
  | [] => mret (0, fds, delay)
  | entry :: rest =>
      if is_iio_device_dir entry then
        '(ret, fds', delay') ←
          ina3221x_walk_device_dir h names fds delay bus_addr (d_name entry);
        if ret <? 0 then mret (ret, fds', delay')
        else walk_devices h names bus_addr rest fds' delay'
      else walk_devices h names bus_addr rest fds delay
  end.

Definition ina3221x_walk_bus_addr_dir (h : host) (names : list (list ascii)) (fds : list Z)
    (polling_delay_us_max : Z) (bus_addr : string) : M (Z * list Z * Z) :=
  dir ← sys_opendir h (INA3221X_DIR_TEMPLATE_BUS_ADDR bus_addr);
  match dir with
  | None => mret (-1, fds, polling_delay_us_max)
  | Some entries => walk_devices h names bus_addr entries fds polling_delay_us_max
  end.

(** The [readdir] loop of [ina3221x_walk_i2c_drivers_dir]. *)
Fixpoint walk_buses (h : host) (names : list (list ascii)) (entries : list dirent)
    (fds : list Z) (delay : Z) : M (Z * list Z * Z) :=
  match entries with
  | [] => mret (0, fds, delay)
  | entry :: rest =>
      if is_i2c_bus_addr_dir entry then
        '(ret, fds', delay') ←
          ina3221x_walk_bus_addr_dir h names fds delay (d_name entry);
        if ret <? 0 then mret (ret, fds', delay')
        else walk_buses h names rest fds' delay'
      else walk_buses h names rest fds delay
  end.

Definition ina3221x_walk_i2c_drivers_dir (h : host) (names : list (list ascii)) (fds : list Z)
    (polling_delay_us_max : Z) : M (Z * list Z * Z) :=
  dir ← sys_opendir h INA3221X_DIR;
  match dir with
  | None => mret (-1, fds, polling_delay_us_max)
  | Some entries => walk_buses h names entries fds polling_delay_us_max
  end.

(** The loop of [close_and_clear_fds], over the indices [i .. i + n - 1]. *)
Fixpoint close_and_clear_from (fds : list Z) (i n : nat) : M (list Z) :=
  match n with
  | O => mret fds
  | S k =>
      if 0 <? slot fds i then
        _ ← sys_close (slot fds i);
        close_and_clear_from (<[i := 0]> fds) (S i) k
      else close_and_clear_from fds (S i) k
  end.

Definition close_and_clear_fds (fds : list Z) (max_fds : nat) : M (list Z) :=
  err_save ← get_errno;
  fds' ← close_and_clear_from fds 0 max_fds;
  _ ← set_errno err_save;
  mret fds'.

(** ** Default rails *)

Definition DEFAULT_RAIL_NAMES_TX : list (option string) :=
  [Some "VDD_IN"; Some "VDD_MUX"; None; None; None; None].
Definition DEFAULT_RAIL_NAMES_VDD_IN : list (option string) :=
  [Some "VDD_IN"; None; None; None; None; None].
Definition DEFAULT_RAIL_NAMES_POM_5V_IN : list (option string) :=
  [Some "POM_5V_IN"; None; None; None; None; None].
Definition DEFAULT_RAIL_NAMES_AGX_XAVIER : list (option string) :=
  [Some "GPU"; Some "CPU"; Some "SOC"; Some "CV"; Some "VDDRQ"; Some "SYS5V"].
Definition DEFAULT_RAIL_NAMES : list (list (option string)) :=
  [DEFAULT_RAIL_NAMES_TX; DEFAULT_RAIL_NAMES_VDD_IN;
   DEFAULT_RAIL_NAMES_POM_5V_IN; DEFAULT_RAIL_NAMES_AGX_XAVIER].

(** The counting loop: the entries before the first NULL, at most
    [NUM_RAILS_DEFAULT_MAX] of them. *)
Fixpoint leading_names (max : nat) (profile : list (option string)) : list (list ascii) :=
  match max, profile with
  | S k, Some n :: r => chars n :: leading_names k r
  | _, _ => []
  end.

(** The check "all channels are found": whether some [fds[j]], [j < n], is
    not positive. *)
Definition some_missing (fds : list Z) (n : nat) : bool :=
  existsb (λ j, slot fds j <=? 0) (seq 0 n).

(** The outer loop of [ina3221x_walk_i2c_drivers_dir_for_default] over the
    profiles left to try.  [n_fds] is [*n_fds] as the previous iteration left
    it. *)
Fixpoint walk_default_profiles (h : host) (profiles : list (list (option string)))
    (fds : list Z) (n_fds : nat) (delay : Z) : M (Z * list Z * nat * Z) :=
  match profiles with
  | [] =>
      _ ← set_errno ENODEV;
      mret (-1, fds, n_fds, delay)
  | profile :: rest =>
      let names := leading_names (Z.to_nat NUM_RAILS_DEFAULT_MAX) profile in
      let n := length names in
      '(r, fds1, delay1) ← ina3221x_walk_i2c_drivers_dir h names fds delay;
      if negb (r =? 0) then mret (-1, fds1, n, delay1)
      else if 0 <? slot fds1 0 then
        fds2 ← (if some_missing fds1 n then close_and_clear_fds fds1 n else mret fds1);
        mret (0, fds2, n, delay1)
      else walk_default_profiles h rest fds1 n delay1
  end.

Definition ina3221x_walk_i2c_drivers_dir_for_default (h : host) (fds : list Z) (n_fds : nat)
    (polling_delay_us_max : Z) : M (Z * list Z * nat * Z) :=
  walk_default_profiles h DEFAULT_RAIL_NAMES fds n_fds polling_delay_us_max.

(** ** The monitor *)

(** [struct energymon_jetson].  [thread] tells whether [pthread_create]
    stored a thread in the field; [fds] keeps the length it was allocated
    with, [count] says how many of its slots are in use. *)
Record energymon_jetson := mkState {
  polling_delay_us : Z;
  thread : bool;
  poll_sensors : Z;
  total_uj : Z;
  count : nat;
  fds : list Z;
}.

(** The [energymon] handle, reduced to its [state] pointer ([None] is NULL);
    a NULL handle is [None : option energymon]. *)
Record energymon := mkEm {
  state : option energymon_jetson;
}.

(** ** The polling thread *)

(** What [pread] on a descriptor gives at one tick: an error, or the bytes
    of the attribute (none at end of file). *)
Inductive pread_result :=
| PreadErr (e : Z)
| PreadData (data : string).

(** One tick as the thread meets it: the value of [state->poll_sensors] when
    the loop condition is evaluated, what each descriptor reads, and the
    value [energymon_gettime_elapsed_us(&last_us)] returns, that is, the
    monotonic time in microseconds since the previous tick.  That function
    and [energymon_sleep_us] are defined in [energymon-time-util.c], which is
    not among the sources at hand: the time elapsed is an input of the tick,
    and sleeping only lets time pass. *)
Record tick := mkTick {
  tk_poll_sensors : bool;
  tk_pread : gmap Z pread_result;
  tk_exec_us : Z;
}.

(** [pread(fd, cdata, sizeof(cdata), 0)]: a descriptor that is not open fails
    with EBADF. *)
Definition pread (t : tick) (fd : Z) (len : nat) : Z + list ascii :=
  match tk_pread t !! fd with
  | None => inl EBADF
  | Some (PreadErr e) => inl e
  | Some (PreadData d) => inr (take len (chars d))
  end.

(** The sensor loop of one tick, from index [i] on with [sum_mw] and [errno]
    as they stand: the sum, [errno] and the [cdata] buffer at the end. *)
Fixpoint read_sensors (t : tick) (fds : list Z) (cdata : list ascii) (sum_mw en : Z)
  : Z * Z * list ascii :=
  match fds with
  | [] => (sum_mw, en, cdata)
  | fd :: rest =>
      if negb (en =? 0) then (sum_mw, en, cdata)
      else
        match pread t fd 8 with
        | inl e => read_sensors t rest cdata sum_mw e
        | inr [] => read_sensors t rest cdata sum_mw en
        | inr data =>
            let cdata' := buf_store data cdata in
            let '(v, e) := strtoul cdata' in
            read_sensors t rest cdata' (wrap64 (sum_mw + v)) (default en e)
        end
  end.

(** The body of the [while] loop up to the update of the total. *)
Definition poll_tick (t : tick) (cdata : list ascii) (st : energymon_jetson)
  : energymon_jetson * list ascii :=
  let '(sum_mw, err_save, cdata') :=
    read_sensors t (take (count st) (fds st)) cdata 0 0 in
  let exec_us := tk_exec_us t in
  let total :=
    if negb (err_save =? 0) then total_uj st
    else wrap64 (total_uj st + wrap64 (sum_mw * exec_us) / 1000) in
  (mkState (polling_delay_us st) (thread st) (poll_sensors st) total (count st) (fds st),
   cdata').

(** The [while (state->poll_sensors)] loop over the ticks observed: it ends
    at the first tick that finds the flag cleared. *)
Fixpoint poll_loop (ticks : list tick) (cdata : list ascii) (st : energymon_jetson)
  : energymon_jetson :=
  match ticks with
  | [] => st
  | t :: rest =>
      if tk_poll_sensors t then
        let '(st', cdata') := poll_tick t cdata st in
        poll_loop rest cdata' st'
      else st
  end.

(** [jetson_poll_sensors]: [start_us] is what [energymon_gettime_us] returns
    at the start; 0 means there is no monotonic clock and the thread
    returns at once. *)
Definition jetson_poll_sensors (h : host) (start_us : Z) (ticks : list tick)
    (st : energymon_jetson) : energymon_jetson :=
  if start_us =? 0 then st else poll_loop ticks (uninit h 8) st.

(** ** Rail names from the environment *)

(** The [fail] label of [strtok_to_arr_r]: the [n] strings and the array are
    freed. *)
Definition strtok_fail (arr : option (list (list ascii))) : M (option (list (list ascii))) :=
  _ ← heap_free (Z.of_nat (length (default [] arr)));
  _ ← match arr with Some _ => heap_free 1 | None => mret tt end;
  mret None.

(** The [while (tok)] loop of [strtok_to_arr_r] over the tokens left. *)
Fixpoint strtok_fill (toks : list (list ascii)) (arr : option (list (list ascii)))
  : M (option (list (list ascii))) :=
  match toks with
  | [] => mret arr
  | tok :: rest =>
      ok ← alloc_request;
      if negb ok then strtok_fail arr
      else
        _ ← match arr with Some _ => mret tt | None => heap_new end;
        let a := default [] arr in
        ok' ← alloc_request;
        if negb ok' then strtok_fail (Some a)
        else
          _ ← heap_new;
          strtok_fill rest (Some (a ++ [tok])%list)
  end.

Definition strtok_to_arr_r (str : list ascii) (delim : ascii)
  : M (option (list (list ascii))) :=
  strtok_fill (strtok_all delim str []) None.

Definition free_rail_names (rail_names : list (list ascii)) : M unit :=
  heap_free (Z.of_nat (length rail_names) + 1).

(** The duplicate check: the pairs [i < j] in the order of the two loops. *)
Fixpoint has_duplicate (names : list (list ascii)) : bool :=
  match names with
  | [] => false
  | n :: r => existsb (strcmp_eq n) r || has_duplicate r
  end.

Definition get_rail_names (rail_names_str : list ascii) : M (option (list (list ascii))) :=
  ok ← alloc_request;
  if negb ok then mret None
  else
    _ ← heap_new;
    rail_names ← strtok_to_arr_r rail_names_str ",";
    _ ← heap_free 1;
    match rail_names with
    | None =>
        en ← get_errno;
        _ ← (if en =? 0 then set_errno EINVAL else mret tt);
        mret None
    | Some names =>
        if has_duplicate names then
          _ ← free_rail_names names;
          _ ← set_errno EINVAL;
          mret None
        else mret (Some names)
    end.

(** ** The polling interval *)

(** [get_polling_delay_us] up to the comment "always enforce an lower
    bound": the value [us] holds there, or [None] when the function has
    returned 0 before. *)
Definition polling_delay_before_bound (h : host) (sysfs_polling_delay_us : Z) : M (option Z) :=
  match getenv h ENERGYMON_JETSON_INTERVAL_US with
  | Some polling_interval_env =>
      _ ← set_errno 0;
      let '(us, e) := strtoul polling_interval_env in
      _ ← from_option set_errno (mret tt) e;
      en ← get_errno;
      if negb (en =? 0) then mret None else mret (Some us)
  | None =>
      let us := sysfs_polling_delay_us in
      mret (Some (if us <? INA3221_DEFAULT_POLLING_DELAY_US
                  then INA3221_DEFAULT_POLLING_DELAY_US else us))
  end.

Definition get_polling_delay_us (h : host) (sysfs_polling_delay_us : Z) : M Z :=
  r ← polling_delay_before_bound h sysfs_polling_delay_us;
  match r with
  | None => mret 0
  | Some us =>
      mret (if us <? INA3221_MIN_POLLING_DELAY_US then INA3221_MIN_POLLING_DELAY_US else us)
  end.

(** ** Lifecycle *)

(** [pthread_create]: 0 and a new thread, or the host's error. *)
Definition sys_pthread_create (h : host) : M Z := λ s,
  if h_pthread_create h =? 0 then (0, with_threads (threads s + 1) s)
  else (h_pthread_create h, s).

(** [pthread_cancel] and [pthread_join] on [state->thread].  When the field
    was never set by [pthread_create] the calls have no thread to act on;
    that is taken to fail with ESRCH. *)
Definition sys_pthread_join (created : bool) : M Z := λ s,
  if created then (0, with_threads (threads s - 1) s) else (ESRCH, s).

(** The closing loop of [energymon_finish_jetson] over the slots given. *)
Fixpoint finish_close (fds : list Z) (err_save : Z) : M Z :=
  match fds with
  | [] => mret err_save
  | fd :: rest =>
      if 0 <? fd then
        r ← sys_close fd;
        en ← get_errno;
        finish_close rest (if negb (r =? 0) then (if negb (err_save =? 0) then err_save else en)
                           else err_save)
      else finish_close rest err_save
  end.

Definition energymon_finish_jetson (em : option energymon) : M (Z * option energymon) :=
  match em with
  | Some (mkEm (Some st)) =>
      err_save ← (if negb (poll_sensors st =? 0) then sys_pthread_join (thread st)
                  else mret 0);
      err_save ← finish_close (take (count st) (fds st)) err_save;
      _ ← heap_free 1;
      _ ← set_errno err_save;
      mret (if negb (err_save =? 0) then -1 else 0, Some (mkEm None))
  | _ =>
      _ ← set_errno EINVAL;
      mret (-1, em)
  end.

(** The labels [fail_rails] and [fail_alloc]. *)
Definition fail_alloc (rail_names : option (list (list ascii))) : M unit :=
  match rail_names with
  | Some names => free_rail_names names
  | None => mret tt
  end.

Definition fail_rails (fds : list Z) (count : nat) (rail_names : option (list (list ascii)))
  : M unit :=
  _ ← close_and_clear_fds fds count;
  _ ← heap_free 1;
  fail_alloc rail_names.

(** The first stage of [energymon_init_jetson], up to [em->state = state]:
    the rails are found and [state] is allocated, or everything is undone.
    The result is the state and the polling delay seen in sysfs. *)
Definition init_rails (h : host) : M (option (energymon_jetson * Z)) :=
  match getenv h ENERGYMON_JETSON_RAIL_NAMES with
  | Some rail_names_str =>
      rail_names ← get_rail_names rail_names_str;
      match rail_names with
      | None => mret None
      | Some names =>
          let n_rails := length names in
          ok ← alloc_request;
          if negb ok then _ ← fail_alloc (Some names); mret None
          else
            _ ← heap_new;
            '(r, fds, delay) ← ina3221x_walk_i2c_drivers_dir h names (replicate n_rails 0) 0;
            if negb (r =? 0) then _ ← fail_rails fds n_rails (Some names); mret None
            else if some_missing fds n_rails then
              _ ← set_errno ENODEV;
              _ ← fail_rails fds n_rails (Some names);
              mret None
            else
              _ ← free_rail_names names;
              mret (Some (mkState 0 false 0 0 n_rails fds, delay))
      end
  | None =>
      let n_rails := Z.to_nat NUM_RAILS_DEFAULT_MAX in
      ok ← alloc_request;
      if negb ok then _ ← fail_alloc None; mret None
      else
        _ ← heap_new;
        '(r, fds, n, delay) ←
          ina3221x_walk_i2c_drivers_dir_for_default h (replicate n_rails 0) n_rails 0;
        if negb (r =? 0) then _ ← fail_rails fds n_rails None; mret None
        else mret (Some (mkState 0 false 0 0 n fds, delay))
  end.

(** The second stage: the interval is resolved and the thread started. *)
Definition init_start (h : host) (st : energymon_jetson) (delay : Z)
  : M (Z * option energymon) :=
  us ← get_polling_delay_us h delay;
  let st := mkState us (thread st) (poll_sensors st) (total_uj st) (count st) (fds st) in
  if us =? 0 then
    err_save ← get_errno;
    '(_, em') ← energymon_finish_jetson (Some (mkEm (Some st)));
    _ ← set_errno err_save;
    mret (-1, em')
  else
    let st := mkState us (thread st) 1 (total_uj st) (count st) (fds st) in
    r ← sys_pthread_create h;
    _ ← set_errno r;
    if negb (r =? 0) then
      err_save ← get_errno;
      '(_, em') ← energymon_finish_jetson (Some (mkEm (Some st)));
      _ ← set_errno err_save;
      mret (-1, em')
    else
      mret (0, Some (mkEm (Some (mkState us true 1 (total_uj st) (count st) (fds st))))).

Definition energymon_init_jetson (h : host) (em : option energymon)
  : M (Z * option energymon) :=
  match em with
  | Some (mkEm None) =>
      r ← init_rails h;
      match r with
      | None => mret (-1, em)
      | Some (st, delay) => init_start h st delay
      end
  | _ =>
      _ ← set_errno EINVAL;
      mret (-1, em)
  end.

Definition energymon_read_total_jetson (em : option energymon) : M Z :=
  match em with
  | Some (mkEm (Some st)) => _ ← set_errno 0; mret (total_uj st)
  | _ => _ ← set_errno EINVAL; mret 0
  end.

Definition energymon_get_interval_jetson (em : option energymon) : M Z :=
  match em with
  | Some (mkEm (Some st)) => mret (polling_delay_us st)
  | _ => _ ← set_errno EINVAL; mret 0
  end.

Definition energymon_get_precision_jetson (em : option energymon) : M Z :=
  match em with
  | Some (mkEm (Some st)) =>
      prec ← (v ← energymon_get_interval_jetson em; mret (v / 1000));
      mret (if negb (prec =? 0) then prec else 1)
  | _ => _ ← set_errno EINVAL; mret 0
  end.

(** ** Hosts and processes used in examples *)

Definition nl : string := String LF "".

(** The three attribute files of one channel of an INA3221. *)
Definition channel_files (bus_addr device : string) (channel : Z)
    (rail power delay : string) : list (string * file) :=
  [(INA3221X_FILE_TEMPLATE_RAIL_NAME bus_addr device channel, mkFile None None (rail +:+ nl));
   (INA3221X_FILE_TEMPLATE_POWER bus_addr device channel, mkFile None None (power +:+ nl));
   (INA3221X_FILE_TEMPLATE_POLLING_DELAY bus_addr device channel,
    mkFile None None (delay +:+ nl))].

(** A driver directory with one chip at [1-0040], device [iio:device0]. *)
Definition one_chip_dirs : gmap string dirnode :=
  list_to_map
    [(INA3221X_DIR,
      Dir [mkDirent DT_DIR "."; mkDirent DT_DIR ".."; mkDirent DT_LNK "1-0040";
           mkDirent DT_REG "bind"; mkDirent DT_REG "uevent"]);
     (INA3221X_DIR_TEMPLATE_BUS_ADDR "1-0040",
      Dir [mkDirent DT_DIR "."; mkDirent DT_DIR ".."; mkDirent DT_DIR "iio:device0";
           mkDirent DT_REG "name"])].

Definition one_chip (rails : list (Z * string)) (env : list (string * string)) : host :=
  mkHost
    (list_to_map
       (flat_map (λ r, channel_files "1-0040" "iio:device0" r.1 r.2 "500" "0 ms") rails))
    one_chip_dirs (list_to_map env) 0 [].

(** A process with the three standard descriptors open, nothing allocated
    and no allocation failure ahead. *)
Definition fresh_process : sys :=
  mkSys 0 (list_to_map [(0, "/dev/stdin"); (1, "/dev/stdout"); (2, "/dev/stderr")]) 0 0 [].

(** A board that has only the rail VDD_IN (a Xavier NX). *)
Definition host_vdd_in : host := one_chip [(0, "VDD_IN")] [].

(** A board with the rails VDD_MUX and POM_5V_IN but no VDD_IN, and an
    interval override that is out of range. *)
Definition host_mux_pom : host :=
  one_chip [(0, "VDD_MUX"); (1, "POM_5V_IN")]
    [(ENERGYMON_JETSON_INTERVAL_US, "99999999999999999999999")].

(** No override in the environment. *)
Definition host_plain : host := one_chip [(0, "VDD_IN"); (1, "VDD_MUX")] [].

(** ** The energy of a tick *)

Definition sum_Z (l : list Z) : Z := foldr Z.add 0 l.

(** Every descriptor in use reads some bytes (or none, at end of file). *)
Definition all_reads_succeed (t : tick) (fds : list Z) : Prop :=
  Forall (λ fd, ∃ data, tk_pread t !! fd = Some (PreadData data)) fds.

(** Some descriptor in use fails to read. *)
Definition some_read_fails (t : tick) (fds : list Z) : Prop :=
  Exists (λ fd, ∃ e, pread t fd 8 = inl e ∧ e ≠ 0) fds.

(** The power values parsed in a tick in which every read succeeds: for each
    descriptor that returned bytes, what [strtoul] reads in [cdata] after
    they were stored. *)
Fixpoint parsed_powers (t : tick) (fds : list Z) (cdata : list ascii) : list Z :=
  match fds with
  | [] => []
  | fd :: rest =>
      match pread t fd 8 with
      | inr (c :: data) =>
          let cdata' := buf_store (c :: data) cdata in
          (strtoul cdata').1 :: parsed_powers t rest cdata'
      | _ => parsed_powers t rest cdata
      end
  end.

(** The used part of the descriptor array. *)
Definition used_fds (st : energymon_jetson) : list Z := take (count st) (fds st).

(** What a tick adds to the total before the addition wraps: nothing when a
    read failed. *)
Definition tick_energy (t : tick) (cdata : list ascii) (st : energymon_jetson) : Z :=
  let '(sum_mw, err_save, _) := read_sensors t (used_fds st) cdata 0 0 in
  if negb (err_save =? 0) then 0 else wrap64 (sum_mw * tk_exec_us t) / 1000.

(** No tick of the run makes the 64-bit total wrap around. *)
Fixpoint never_wraps (ticks : list tick) (cdata : list ascii) (st : energymon_jetson) : Prop :=
  match ticks with
  | [] => True
  | t :: rest =>
      tk_poll_sensors t = true →
      total_uj st + tick_energy t cdata st ≤ ULONG_MAX
      ∧ never_wraps rest (poll_tick t cdata st).2 (poll_tick t cdata st).1
  end.

(** A monitor on three rails, as initialisation leaves it, and ticks 100 ms
    apart that read 500, 300 and 200 mW. *)
Definition three_rails : energymon_jetson := mkState 100000 true 1 0 3 [3; 4; 5].

Definition tick_500_300_200 : tick :=
  mkTick true
    (list_to_map [(3, PreadData ("500" +:+ nl)); (4, PreadData ("300" +:+ nl));
                  (5, PreadData ("200" +:+ nl))])
    100000.

(** A tick in which the second rail cannot be read. *)
Definition tick_cpu_fails : tick :=
  mkTick true
    (list_to_map [(3, PreadData ("500" +:+ nl)); (4, PreadErr EIO);
                  (5, PreadData ("200" +:+ nl))])
    100000.

(** A monitor on one rail and a tick that reads 9999999 mW after
    1844674407370 us. *)
Definition one_rail : energymon_jetson := mkState 1844674407370 true 1 0 1 [3].

Definition tick_long : tick :=
  mkTick true (list_to_map [(3, PreadData ("9999999" +:+ nl))]) 1844674407370.

(** ** What the host shows, apart from the descriptors borrowed to look *)

(** The error [open] meets on a path, if any. *)
Definition open_error (h : host) (path : string) : option Z :=
  match h_files h !! path with
  | None => Some ENOENT
  | Some f => f_open f
  end.

(** What opening a file and reading [len] bytes gives: the error of [open]
    or [read], or the bytes. *)
Definition file_bytes (h : host) (path : string) (len : nat) : Z + list ascii :=
  match h_files h !! path with
  | None => inl ENOENT
  | Some f =>
      match f_open f with
      | Some e => inl e
      | None =>
          match f_read f with
          | Some e => inl e
          | None => inr (take len (chars (f_data f)))
          end
      end
  end.

(** Descriptor 0 is in use, so that [open] never returns 0. *)
Definition stdin_open (s : sys) : Prop := is_Some (fdtab s !! 0).

(** [s'] is [s] up to [errno]. *)
Definition same_resources (s s' : sys) : Prop :=
  fdtab s' = fdtab s ∧ heap s' = heap s ∧ threads s' = threads s ∧ oom s' = oom s.

(** ** What the walk of a device directory meets *)

Section DeviceDir.
Variable h : host.
Variable names : list (list ascii).
Variables bus_addr device : string.

(** What reading the file [rail_name_<c>] gives. *)
Definition name_bytes (c : Z) : Z + list ascii :=
  file_bytes h (INA3221X_FILE_TEMPLATE_RAIL_NAME bus_addr device c) 64.

(** The [name] buffer after the read for channel [c], when it held [name]
    before: a failed or empty read leaves it alone. *)
Definition name_after (name : list ascii) (c : Z) : list ascii :=
  match name_bytes c with
  | inr (a :: data) => strip_after_read (a :: data) name 64
  | _ => name
  end.

(** The buffer once the channels [pre] have been gone through. *)
Definition name_at (pre : list Z) : list ascii :=
  foldl name_after (uninit h 64) pre.

(** The name that channel [c] hits, [pre] being the channels gone through
    before it: the first index whose name the buffer matches after a read
    that succeeded. *)
Definition hit (pre : list Z) (c : Z) : option nat :=
  match name_bytes c with
  | inr _ => match_index (name_after (name_at pre) c) names
  | inl _ => None
  end.

(** One of the channels [pre] hits the name [i]. *)
Definition hit_before (pre : list Z) (i : nat) : Prop :=
  ∃ p c q, pre = (p ++ c :: q)%list ∧ hit p c = Some i.

(** The reasons for which the walk returns -1 at channel [c], with the
    error reported, [fds] being the descriptor array the walk of the
    directory started with:
    - the name file cannot be read, for another reason than its absence;
    - the name hit is already taken, by an earlier channel of this
      directory or in the array as it came in;
    - the power file of the channel cannot be opened. *)
Inductive fault (fds : list Z) (pre : list Z) (c : Z) : Z → Prop :=
| fault_name e :
    name_bytes c = inl e → e ≠ ENOENT → fault fds pre c e
| fault_duplicate i :
    hit pre c = Some i →
    slot fds i ≠ 0 ∨ hit_before pre i →
    fault fds pre c EEXIST
| fault_power i e :
    hit pre c = Some i →
    slot fds i = 0 → ¬ hit_before pre i →
    open_error h (INA3221X_FILE_TEMPLATE_POWER bus_addr device c) = Some e →
    fault fds pre c e.

(** The walk state after the channels [pre], [fds0] being the array the
    walk of the directory started with: the buffer is as the reads left
    it, and a slot is taken only if it came in taken or one of the channels
    hit it. *)
Definition reached (fds0 : list Z) (pre : list Z) (w : walk) : Prop :=
  w_name w = name_at pre
  ∧ length (w_fds w) = length fds0
  ∧ ∀ i, slot (w_fds w) i ≠ 0 → slot fds0 i ≠ 0 ∨ hit_before pre i.

(** With descriptor 0 in use, every slot hit so far is taken. *)
Definition taken (fds0 : list Z) (pre : list Z) (w : walk) (s : sys) : Prop :=
  stdin_open s
  ∧ ∀ i, slot fds0 i ≠ 0 ∨ hit_before pre i → slot (w_fds w) i ≠ 0.

(** Some channel of the directory hits the name [i]. *)
Definition rail_at (i : nat) : Prop :=
  hit_before (seqZ 0 INA3221_CHANNELS_MAX) i.
End DeviceDir.

(** The entries [readdir] yields for a directory that can be opened. *)
Definition dir_entries (h : host) (path : string) : list dirent :=
  match h_dirs h !! path with
  | Some (Dir entries) => entries
  | _ => []
  end.

(** The walk from the driver directory comes by a channel that hits the
    name [i]. *)
Definition rail_found (h : host) (names : list (list ascii)) (i : nat) : Prop :=
  ∃ b d,
    b ∈ dir_entries h INA3221X_DIR ∧ is_i2c_bus_addr_dir b = true
    ∧ d ∈ dir_entries h (INA3221X_DIR_TEMPLATE_BUS_ADDR (d_name b))
    ∧ is_iio_device_dir d = true
    ∧ rail_at h names (d_name b) (d_name d) i.

(** Two of the names are the same string. *)
Definition duplicate_names (names : list (list ascii)) : Prop :=
  ∃ (i j : nat) a b,
    (i < j)%nat ∧ names !! i = Some a ∧ names !! j = Some b ∧ c_str a = c_str b.

(** The process when the walk for an explicit list of [n] names starts: the
    names, their array and the state are allocated. *)
Definition before_walk (n : nat) (s : sys) : sys :=
  with_heap (heap s + Z.of_nat n + 2) s.

(** Hosts with an explicit list of rail names. *)
Definition host_explicit (list : string) : host :=
  one_chip [(0, "VDD_IN"); (1, "VDD_MUX")] [(ENERGYMON_JETSON_RAIL_NAMES, list)].

(** ** Descriptors owned by the array *)

(** The array holds the descriptor [k]. *)
Definition held (fds : list Z) (k : Z) : Prop :=
  0 < k ∧ ∃ i, slot fds i = k.

(** The descriptor table [tab] is [tab0] with, in addition, the descriptors
    the array holds, each of them in one slot only. *)
Definition owns (tab0 : gmap Z string) (fds : list Z) (tab : gmap Z string) : Prop :=
  (∀ k, held fds k → tab0 !! k = None ∧ is_Some (tab !! k))
  ∧ (∀ k, ¬ held fds k → tab !! k = tab0 !! k)
  ∧ (∀ i j, 0 < slot fds i → slot fds i = slot fds j → i = j).

(** The process [s] differs from [s0] in [errno] and in the descriptors the
    array holds. *)
Definition keeps (s0 : sys) (fds : list Z) (s : sys) : Prop :=
  stdin_open s
  ∧ owns (fdtab s0) fds (fdtab s)
  ∧ heap s = heap s0 ∧ threads s = threads s0 ∧ oom s = oom s0.

(** The process [s'] has the descriptors, heap blocks and threads of [s]. *)
Definition same_footprint (s s' : sys) : Prop :=
  fdtab s' = fdtab s ∧ heap s' = heap s ∧ threads s' = threads s.

(** ** The energy of a run *)

(** What the ticks of a run add to the total before the 64-bit additions
    wrap: the energy of each tick met with the flag set, up to the first
    tick that finds it cleared. *)
Fixpoint run_energy (ticks : list tick) (cdata : list ascii) (st : energymon_jetson) : Z :=
  match ticks with
  | [] => 0
  | t :: rest =>
      if tk_poll_sensors t then
        tick_energy t cdata st
        + run_energy rest (poll_tick t cdata st).2 (poll_tick t cdata st).1
      else 0
  end.

From Stdlib Require SpecFloat.

(** * Other backends

    The other backends of the repository reach their hardware through a
    library that is not part of the sources: libraplcap for Intel RAPL,
    hidapi for the ODROID Smart Power, libsensors for JetPack 5.  A call into
    such a library is modelled by what the backend observes of it: the value
    returned and the error stored in [errno], if any.  Messages written to
    [stderr] are not modelled. *)

(** The handle [energymon] of a backend whose [state] points to an [S]. *)
Record energymon_of (S : Type) := mkEmOf {
  state_of : option S;
}.
Arguments mkEmOf {S} _.
Arguments state_of {S} _.

(** The process together with a resource of type [X] that the backend
    manages through its library. *)
Definition MX (X A : Type) : Type := sys * X → A * (sys * X).

#[global] Instance MX_ret (X : Type) : MRet (MX X) := λ A (a : A) (sx : sys * X), (a, sx).
#[global] Instance MX_bind (X : Type) : MBind (MX X) :=
  λ A B (f : A → MX X B) (m : MX X A) (sx : sys * X), let '(a, sx') := m sx in f a sx'.

(** A step of the process alone. *)
Definition lift_M {X A : Type} (m : M A) : MX X A := λ sx,
  let '(a, s') := m sx.1 in (a, (s', sx.2)).

(** A library call that returns [r.1] and stores [r.2] in [errno]. *)
Definition lib_call {X A : Type} (r : A * option Z) : MX X A :=
  lift_M (λ s, (r.1, from_option (λ e, with_errno e s) s r.2)).

(** A change of the resource. *)
Definition update_X {X : Type} (f : X → X) : MX X unit := λ sx, (tt, (sx.1, f sx.2)).

(** ** energymon-raplcap-ipg

    [energymon_read_total_raplcap_ipg] sums the counters in [double]
    arithmetic and is not part of the embedding; of a [double], the
    initialisation only stores the value and tests its sign. *)

Definition ENOSYS : Z := 38.

(** Conversion to [uint32_t]. *)
Definition wrap32 (z : Z) : Z := z mod 2 ^ 32.

(** A [double] is an IEEE 754 binary64 value. *)
Definition double : Type := SpecFloat.spec_float.

Definition double_0 : double := SpecFloat.S754_zero false.

(** The constant [1000000000] as a [double]: 8388608000000000 * 2^-23. *)
Definition double_1e9 : double := SpecFloat.S754_finite false 8388608000000000 (-23).

(** libraplcap.  [raplcap_get_num_packages] and [raplcap_get_num_die] return
    a [uint32_t], [raplcap_init], [raplcap_pd_is_zone_supported] and
    [raplcap_destroy] an [int], [raplcap_pd_get_energy_counter_max] a
    [double]; the zone is always [RAPLCAP_ZONE_PACKAGE]. *)
Record raplcap_lib := mkRaplcapLib {
  raplcap_get_num_packages : Z * option Z;
  raplcap_get_num_die : Z → Z * option Z;
  raplcap_init : Z * option Z;
  raplcap_pd_is_zone_supported : Z → Z → Z * option Z;
  raplcap_pd_get_energy_counter_max : Z → Z → double * option Z;
  raplcap_destroy : Z * option Z;
}.

(** [struct raplcap_ipg_info]. *)
Record raplcap_ipg_info := mkInfo {
  j_last : double;
  j_max : double;
  n_overflow : Z;
}.

(** [struct energymon_raplcap_ipg].  The field [rc] is the context of the
    library; the resource of this backend is the number of contexts that
    [raplcap_init] has set up and that [raplcap_destroy] has not been called
    on. *)
Record energymon_raplcap_ipg := mkRapl {
  n_pkg : Z;
  n_die : Z;
  n_msrs : Z;
  msrs : list raplcap_ipg_info;
}.

(** The index [i = pkg * die + die] of the entry used for a package and a
    die, computed in [uint32_t]. *)
Definition msrs_index (pkg die : Z) : Z := wrap32 (wrap32 (pkg * die) + die).

(** The first loop of [energymon_init_raplcap_ipg], over the packages left:
    [None] when the function returns -1, and the value of [n_die] at the end
    of the loop otherwise. *)
Fixpoint count_die (lib : raplcap_lib) (pkgs : list Z) (max_die dies : Z)
  : MX Z (option Z) :=
  match pkgs with
  | [] => mret (Some dies)
  | pkg :: rest =>
      n ← lib_call (raplcap_get_num_die lib pkg);
      let n := wrap32 n in
      en ← lift_M get_errno;
      if (n =? 0) && negb (en =? ENOSYS) then mret None
      else
        let dies := if n =? 0 then 1 else n in
        if pkg =? 0 then count_die lib rest dies dies
        else if negb (max_die =? dies) then
          _ ← lift_M (set_errno ENOSYS);
          mret None
        else count_die lib rest max_die dies
  end.

Definition set_j_max (i : Z) (v : double) (ms : list raplcap_ipg_info)
  : list raplcap_ipg_info :=
  alter (λ info, mkInfo (j_last info) v (n_overflow info)) (Z.to_nat i) ms.

(** The body of the inner loop of the second part: [None] is [goto fail]. *)
Definition check_zone (lib : raplcap_lib) (pkg die : Z) (ms : list raplcap_ipg_info)
  : MX Z (option (list raplcap_ipg_info)) :=
  let i := msrs_index pkg die in
  supp ← lib_call (raplcap_pd_is_zone_supported lib pkg die);
  let supp := to_int supp in
  if supp <? 0 then mret None
  else if supp =? 0 then
    _ ← lift_M (set_errno EINVAL);
    mret None
  else
    v ← lib_call (raplcap_pd_get_energy_counter_max lib pkg die);
    let ms := set_j_max i v ms in
    if SpecFloat.SFltb v double_0 then
      en ← lift_M get_errno;
      if en =? ENOSYS then mret (Some (set_j_max i double_1e9 ms))
      else mret None
    else mret (Some ms).

Fixpoint check_dies (lib : raplcap_lib) (pkg : Z) (dies : list Z)
    (ms : list raplcap_ipg_info) : MX Z (option (list raplcap_ipg_info)) :=
  match dies with
  | [] => mret (Some ms)
  | die :: rest =>
      r ← check_zone lib pkg die ms;
      match r with
      | None => mret None
      | Some ms' => check_dies lib pkg rest ms'
      end
  end.

Fixpoint check_pkgs (lib : raplcap_lib) (pkgs : list Z) (dies : Z)
    (ms : list raplcap_ipg_info) : MX Z (option (list raplcap_ipg_info)) :=
  match pkgs with
  | [] => mret (Some ms)
  | pkg :: rest =>
      r ← check_dies lib pkg (seqZ 0 dies) ms;
      match r with
      | None => mret None
      | Some ms' => check_pkgs lib rest dies ms'
      end
  end.

(** [raplcap_destroy]: the context is no longer in use, whatever the call
    returns. *)
Definition rapl_destroy (lib : raplcap_lib) : MX Z Z :=
  ret ← lib_call (raplcap_destroy lib);
  _ ← update_X (λ contexts, contexts - 1);
  mret (to_int ret).

(** The label [fail]. *)
Definition raplcap_ipg_fail (lib : raplcap_lib) : MX Z unit :=
  err_save ← lift_M get_errno;
  _ ← rapl_destroy lib;
  _ ← lift_M (heap_free 1);
  lift_M (set_errno err_save).

Definition energymon_init_raplcap_ipg (lib : raplcap_lib)
    (em : option (energymon_of energymon_raplcap_ipg))
  : MX Z (Z * option (energymon_of energymon_raplcap_ipg)) :=
  match em with
  | Some (mkEmOf None) =>
      pkgs ← lib_call (raplcap_get_num_packages lib);
      let pkgs := wrap32 pkgs in
      if pkgs =? 0 then mret (-1, em)
      else
        dies ← count_die lib (seqZ 0 pkgs) 0 0;
        match dies with
        | None => mret (-1, em)
        | Some dies =>
            let n := wrap32 (pkgs * dies) in
            ok ← lift_M alloc_request;
            if negb ok then mret (-1, em)
            else
              _ ← lift_M heap_new;
              rc ← lib_call (raplcap_init lib);
              if negb (to_int rc =? 0) then
                _ ← lift_M (heap_free 1);
                mret (-1, em)
              else
                _ ← update_X (λ contexts, contexts + 1);
                r ← check_pkgs lib (seqZ 0 pkgs) dies
                      (replicate (Z.to_nat n) (mkInfo double_0 double_0 0));
                match r with
                | Some ms => mret (0, Some (mkEmOf (Some (mkRapl pkgs dies n ms))))
                | None =>
                    _ ← raplcap_ipg_fail lib;
                    mret (-1, em)
                end
        end
  | _ =>
      _ ← lift_M (set_errno EINVAL);
      mret (-1, em)
  end.

Definition energymon_finish_raplcap_ipg (lib : raplcap_lib)
    (em : option (energymon_of energymon_raplcap_ipg))
  : MX Z (Z * option (energymon_of energymon_raplcap_ipg)) :=
  match em with
  | Some (mkEmOf (Some _)) =>
      ret ← rapl_destroy lib;
      _ ← lift_M (heap_free 1);
      mret (ret, Some (mkEmOf None))
  | _ =>
      _ ← lift_M (set_errno EINVAL);
      mret (-1, em)
  end.

Definition energymon_get_interval_raplcap_ipg
    (em : option (energymon_of energymon_raplcap_ipg)) : M Z :=
  match em with
  | Some _ => mret 1000
  | None => _ ← set_errno EINVAL; mret 0
  end.

Definition energymon_get_precision_raplcap_ipg
    (em : option (energymon_of energymon_raplcap_ipg)) : M Z :=
  match em with
  | Some (mkEmOf (Some _)) => mret 1
  | _ => _ ← set_errno EINVAL; mret 0
  end.

(** A machine with two packages, on which the library cannot tell the
    number of die (ENOSYS), every PACKAGE zone is supported and the energy
    counters wrap at 262144 J. *)
Definition raplcap_two_packages : raplcap_lib :=
  mkRaplcapLib (2, None) (λ _, (0, Some ENOSYS)) (0, None) (λ _ _, (1, None))
    (λ _ _, (SpecFloat.S754_finite false 4503599627370496 (-34), None)) (0, None).

(** ** em-osp

    The ODROID Smart Power backend, as it is built by default: neither
    [ENERGYMON_OSP_USE_POLLING] nor [ENERGYMON_OSP_STOP_ON_FINISH] is
    defined.  The backend never looks at [errno].  [energymon_read_total_osp]
    converts the reply with [atof] and is not part of the embedding. *)

Definition OSP_MAX_STR : nat := 65.
Definition OSP_REQUEST_DATA : Z := 55.
Definition OSP_REQUEST_STARTSTOP : Z := 128.
Definition OSP_REQUEST_STATUS : Z := 129.
Definition ENERGYMON_OSP_POLL_DELAY_US : Z := 200000.

(** The pointer [em->device]: not yet assigned in a block that [malloc]
    returned, NULL, or a device that [hid_open] returned. *)
Inductive hid_device := DeviceIndeterminate | DeviceNull | DeviceOpen.

(** [struct energymon_osp]; the bytes of [buf] are numbers below 256. *)
Record energymon_osp := mkOsp {
  device : hid_device;
  buf : list Z;
}.

(** The pointer [impl->state]: NULL, a block that holds an [energymon_osp],
    or a block that has been freed. *)
Inductive osp_state := StateNull | StateLive (em : energymon_osp) | StateFreed.

(** hidapi: what [hid_init] and [hid_exit] return, whether [hid_open] finds
    the device, and the bytes that a block fresh from [malloc] holds. *)
Record hid_lib := mkHidLib {
  hid_init_result : Z;
  hid_open_finds : bool;
  hid_exit_result : Z;
  hid_fresh_bytes : list Z;
}.

(** The resource of the backend: the successful calls of [hid_init] that
    [hid_exit] has not undone, the devices open, the reports written so far
    (the oldest first), and what the next calls of [hid_write] and [hid_read]
    will do: a [hid_write] fails when the head of [hid_writes] is [false]; a
    [hid_read] fails when the head of [hid_reads] is [None] and otherwise
    stores the bytes given at the start of the buffer.  When a list is
    exhausted the call succeeds, and [hid_read] stores nothing (no report is
    waiting, the device being in non-blocking mode). *)
Record hid_world := mkHidWorld {
  hid_inits : Z;
  hid_devices : Z;
  hid_sent : list (list Z);
  hid_writes : list bool;
  hid_reads : list (option (list Z));
}.

(** [hid_write(device, buf, sizeof(buf)) == -1]. *)
Definition hid_write_fails (data : list Z) : MX hid_world bool := λ sx,
  let w := sx.2 in
  match hid_writes w with
  | false :: rest =>
      (true, (sx.1, mkHidWorld (hid_inits w) (hid_devices w) (hid_sent w) rest (hid_reads w)))
  | ok =>
      (false, (sx.1, mkHidWorld (hid_inits w) (hid_devices w) (hid_sent w ++ [data])%list
                       (tail ok) (hid_reads w)))
  end.

(** [hid_read(device, buf, sizeof(buf))]: whether it returns -1, and the
    buffer afterwards. *)
Definition hid_read_into (b : list Z) : MX hid_world (bool * list Z) := λ sx,
  let w := sx.2 in
  let w' := mkHidWorld (hid_inits w) (hid_devices w) (hid_sent w) (hid_writes w)
              (tail (hid_reads w)) in
  match hid_reads w with
  | None :: _ => ((true, b), (sx.1, w'))
  | Some data :: _ =>
      let data := take (length b) data in
      ((false, (data ++ drop (length data) b)%list), (sx.1, w'))
  | [] => ((false, b), (sx.1, w'))
  end.

(** [em->buf[0] = 0x00; memset(&em->buf[2], 0x00, sizeof(em->buf) - 2)]. *)
Definition osp_clear_buf (b : list Z) : list Z :=
  <[0%nat := 0]> (take 2 b ++ replicate (length b - 2) 0)%list.

(** The common body of [em_osp_request_status] and [em_osp_request_data]:
    the value returned and the buffer afterwards. *)
Definition osp_request (code : Z) (b : list Z) : MX hid_world (Z * list Z) :=
  let b := <[1%nat := code]> (osp_clear_buf b) in
  failed ← hid_write_fails b;
  if (failed : bool) then mret (-1, b)
  else
    r ← hid_read_into b;
    mret (if (r.1 : bool) then -1 else 0, r.2).

Definition em_osp_request_status (b : list Z) : MX hid_world (Z * list Z) :=
  osp_request OSP_REQUEST_STATUS b.

Definition em_osp_request_data (b : list Z) : MX hid_world (Z * list Z) :=
  osp_request OSP_REQUEST_DATA b.

Definition em_osp_request_start_stop (b : list Z) (started : Z)
  : MX hid_world (Z * list Z) :=
  r ← (if started =? 0 then
         let b := <[1%nat := OSP_REQUEST_STARTSTOP]> b in
         failed ← hid_write_fails b;
         mret (if (failed : bool) then -1 else 0, b)
       else mret (0, b));
  if r.1 <? 0 then mret r
  else
    let b := <[1%nat := OSP_REQUEST_STARTSTOP]> r.2 in
    failed ← hid_write_fails b;
    mret (if (failed : bool) then -1 else 0, b).

Definition hid_close : MX hid_world unit :=
  update_X (λ w, mkHidWorld (hid_inits w) (hid_devices w - 1) (hid_sent w) (hid_writes w)
                   (hid_reads w)).

Definition hid_exit (lib : hid_lib) : MX hid_world Z :=
  _ ← update_X (λ w, mkHidWorld (hid_inits w - 1) (hid_devices w) (hid_sent w) (hid_writes w)
                       (hid_reads w));
  mret (hid_exit_result lib).

(** [energymon_finish_osp]: the value returned and [impl->state]
    afterwards, or [None] when the behaviour is undefined: the function
    reads a block that has been freed, or a [device] pointer that was never
    assigned. *)
Definition energymon_finish_osp (lib : hid_lib) (impl : option osp_state)
  : MX hid_world (option (Z * option osp_state)) :=
  match impl with
  | None | Some StateNull => mret (Some (-1, impl))
  | Some StateFreed => mret None
  | Some (StateLive em) =>
      match device em with
      | DeviceIndeterminate => mret None
      | DeviceNull => mret (Some (0, impl))
      | DeviceOpen =>
          _ ← hid_close;
          _ ← hid_exit lib;
          _ ← lift_M (heap_free 1);
          mret (Some (0, Some StateFreed))
      end
  end.

(** [hid_init] and [hid_open]. *)
Definition hid_init (lib : hid_lib) : MX hid_world Z :=
  if hid_init_result lib =? 0 then
    _ ← update_X (λ w, mkHidWorld (hid_inits w + 1) (hid_devices w) (hid_sent w) (hid_writes w)
                         (hid_reads w));
    mret 0
  else mret (hid_init_result lib).

Definition hid_open (lib : hid_lib) : MX hid_world hid_device :=
  if hid_open_finds lib then
    _ ← update_X (λ w, mkHidWorld (hid_inits w) (hid_devices w + 1) (hid_sent w) (hid_writes w)
                         (hid_reads w));
    mret DeviceOpen
  else mret DeviceNull.

(** [energymon_finish_osp(impl); return -1;] in [energymon_init_osp], where
    the state is live and its device open. *)
Definition osp_init_abort (lib : hid_lib) (b : list Z)
  : MX hid_world (Z * option osp_state) :=
  r ← energymon_finish_osp lib (Some (StateLive (mkOsp DeviceOpen b)));
  mret (-1, from_option snd (Some StateFreed) r).

Definition energymon_init_osp (lib : hid_lib) (impl : option osp_state)
  : MX hid_world (Z * option osp_state) :=
  match impl with
  | Some StateNull =>
      ok ← lift_M alloc_request;
      if negb ok then mret (-1, impl)
      else
        _ ← lift_M heap_new;
        let b := osp_clear_buf (take OSP_MAX_STR (hid_fresh_bytes lib
                                                  ++ replicate OSP_MAX_STR 0)%list) in
        r ← hid_init lib;
        if negb (r =? 0) then mret (-1, Some (StateLive (mkOsp DeviceIndeterminate b)))
        else
          dev ← hid_open lib;
          match dev with
          | DeviceOpen =>
              status ← em_osp_request_status b;
              if negb (status.1 =? 0) then osp_init_abort lib status.2
              else
                let started := if default 0 (status.2 !! 1%nat) =? 1 then 1 else 0 in
                toggled ← em_osp_request_start_stop status.2 started;
                if negb (toggled.1 =? 0) then osp_init_abort lib toggled.2
                else
                  first ← em_osp_request_data toggled.2;
                  if negb (first.1 =? 0) then osp_init_abort lib first.2
                  else
                    second ← em_osp_request_data first.2;
                    if negb (second.1 =? 0) then osp_init_abort lib second.2
                    else mret (0, Some (StateLive (mkOsp DeviceOpen second.2)))
          | _ => mret (-1, Some (StateLive (mkOsp dev b)))
          end
  | _ => mret (-1, impl)
  end.

Definition energymon_get_interval_osp (impl : option osp_state) : Z :=
  ENERGYMON_OSP_POLL_DELAY_US.

(** The report that asks for [code]: a zero byte, the code, and zeros. *)
Definition osp_report (code : Z) : list Z :=
  (0 :: code :: replicate (OSP_MAX_STR - 2) 0)%list.

(** A Smart Power that is found, answers the status request with a report
    whose second byte is 1 (started), and every data request with a data
    report. *)
Definition hid_smart_power : hid_lib := mkHidLib 0 true 0 [].

Definition smart_power_replies (started : Z) : list (option (list Z)) :=
  [Some (OSP_REQUEST_STATUS :: started :: replicate 63 0)%list;
   Some (OSP_REQUEST_DATA :: replicate 64 48)%list;
   Some (OSP_REQUEST_DATA :: replicate 64 48)%list].

(** [strncpy(dest, src, n)], for [n] at most the size of [dest]: the first
    [n] bytes of [dest] become the string [src], cut at [n] bytes or
    followed by NULs up to [n] bytes. *)
Definition strncpy (dest src : list ascii) (n : nat) : list ascii :=
  (take n (c_str src ++ replicate n NUL) ++ drop n dest)%list.

(** [energymon_get_source_osp]; a NULL buffer is [None]. *)
Definition energymon_get_source_osp (buffer : option (list ascii)) (n : nat)
  : option (list ascii) :=
  (λ b, strncpy b (chars "ODROID Smart Power") n) <$> buffer.

(** ** energymon-jetson-sensors

    The functions of the interface are placeholders in this backend; what
    it has of its own is the life cycle of libsensors.  The resource is the
    number of times the library has been initialised and not cleaned up;
    the [FILE] that [fopen] returns is seen through its descriptor. *)

Definition ENERGYMON_JETSON_SENSORS_SKIP_LIFECYCLE : string :=
  "ENERGYMON_JETSON_SENSORS_SKIP_LIFECYCLE".
Definition ENERGYMON_JETSON_SENSORS_INIT_FILE : string :=
  "ENERGYMON_JETSON_SENSORS_INIT_FILE".

(** The call of [sensors_init] in [init_libsensors] and the [if] that
    follows it; [sensors_init] is what the call returns and stores in
    [errno]. *)
Definition call_sensors_init (sensors_init : Z * option Z) : MX Z Z :=
  rc ← lib_call sensors_init;
  let rc := to_int rc in
  _ ← (if negb (rc =? 0) then
         en ← lift_M get_errno;
         if en =? 0 then lift_M (set_errno EAGAIN) else mret tt
       else update_X (λ n, n + 1));
  mret rc.

Definition init_libsensors (h : host) (sensors_init : Z * option Z) : MX Z Z :=
  match getenv h ENERGYMON_JETSON_SENSORS_SKIP_LIFECYCLE with
  | Some _ => mret 0
  | None =>
      match getenv h ENERGYMON_JETSON_SENSORS_INIT_FILE with
      | Some input =>
          fd ← lift_M (sys_open h (string_of_list_ascii input));
          if fd <? 0 then mret (-1)
          else
            rc ← call_sensors_init sensors_init;
            err_save ← lift_M get_errno;
            _ ← lift_M (sys_close fd);
            _ ← lift_M (set_errno err_save);
            mret rc
      | None => call_sensors_init sensors_init
      end
  end.

(** [cleanup_libsensors]. *)
Definition cleanup_libsensors (h : host) : MX Z unit :=
  match getenv h ENERGYMON_JETSON_SENSORS_SKIP_LIFECYCLE with
  | Some _ => mret tt
  | None => update_X (λ n, n - 1)
  end.

(** A host that names an init file for libsensors. *)
Definition host_sensors_conf : host :=
  mkHost (list_to_map [("/etc/sensors3.conf", mkFile None None "")]) ∅
    (list_to_map [(ENERGYMON_JETSON_SENSORS_INIT_FILE, "/etc/sensors3.conf")]) 0 [].

(** * Properties *)

Local Close Scope string_scope.

Ltac unfold_M := unfold mbind, M_bind, mret, M_ret, get_errno, set_errno in *.

#[global] Arguments energymon_finish_jetson : simpl never.
#[global] Arguments energymon_init_jetson : simpl never.
#[global] Arguments init_start : simpl never.
#[global] Arguments init_rails : simpl never.
#[global] Arguments get_polling_delay_us : simpl never.
#[global] Arguments polling_delay_before_bound : simpl never.
#[global] Arguments get_rail_names : simpl never.
#[global] Arguments ina3221x_walk_i2c_drivers_dir : simpl never.
#[global] Arguments ina3221x_walk_i2c_drivers_dir_for_default : simpl never.
#[global] Arguments ina3221x_walk_bus_addr_dir : simpl never.
#[global] Arguments ina3221x_walk_device_dir : simpl never.
#[global] Arguments walk_channel : simpl never.
#[global] Arguments close_and_clear_fds : simpl never.
#[global] Arguments sys_open : simpl never.
#[global] Arguments sys_close : simpl never.
#[global] Arguments sys_read : simpl never.
#[global] Arguments sys_pthread_create : simpl never.
#[global] Arguments sys_pthread_join : simpl never.
#[global] Arguments read_string : simpl never.
#[global] Arguments read_long : simpl never.
#[global] Arguments strtoul : simpl never.
#[global] Arguments strtol : simpl never.
#[global] Arguments wrap64 : simpl never.

(** ** Precision and interval *)

(** C10: on an initialised handle [get_precision] is the interval divided by
    1000, or 1 when that quotient is 0; it is never 0. *)
Theorem precision_is_interval_div_1000 (st : energymon_jetson) (s : sys) :
  let em := Some (mkEm (Some st)) in
  let q := (energymon_get_interval_jetson em s).1 / 1000 in
  (energymon_get_precision_jetson em s).1 = (if q =? 0 then 1 else q)
  ∧ (energymon_get_precision_jetson em s).1 ≠ 0
  ∧ (energymon_get_interval_jetson em s).1 = polling_delay_us st.
Proof.
  unfold energymon_get_precision_jetson, energymon_get_interval_jetson.
  unfold_M. cbn. split; [|split]; [| |reflexivity].
  - destruct (polling_delay_us st `div` 1000 =? 0); reflexivity.
  - destruct (polling_delay_us st `div` 1000 =? 0) eqn:E; cbn; lia.
Qed.

(** [strtoul] reports no error but ERANGE. *)
Lemma strtoul_errno (s : list ascii) (v e : Z) :
  strtoul s = (v, Some e) → e = ERANGE ∧ v = ULONG_MAX.
Proof.
  unfold strtoul. destruct (scan_number s) as [[neg acc] any].
  destruct (negb any); [congruence|].
  destruct (ULONG_MAX <? acc); [|congruence].
  intros [= <- <-]. done.
Qed.

Lemma polling_delay_before_bound_env (h : host) (d : Z) (s : sys) (v : list ascii) :
  getenv h ENERGYMON_JETSON_INTERVAL_US = Some v →
  (polling_delay_before_bound h d s).1 =
    match strtoul v with
    | (us, None) => Some us
    | (_, Some _) => None
    end.
Proof.
  intros Hv. unfold polling_delay_before_bound. rewrite Hv.
  destruct (strtoul v) as [us [e|]] eqn:Hs; unfold_M; cbn.
  - apply strtoul_errno in Hs as [-> _]. reflexivity.
  - reflexivity.
Qed.

Lemma polling_delay_before_bound_sysfs (h : host) (d : Z) (s : sys) :
  getenv h ENERGYMON_JETSON_INTERVAL_US = None →
  polling_delay_before_bound h d s =
    (Some (Z.max d INA3221_DEFAULT_POLLING_DELAY_US), s).
Proof.
  intros Hv. unfold polling_delay_before_bound. rewrite Hv. unfold_M.
  destruct (d <? INA3221_DEFAULT_POLLING_DELAY_US) eqn:E; do 2 f_equal; lia.
Qed.

Lemma get_polling_delay_us_bound (h : host) (d : Z) (s : sys) :
  (get_polling_delay_us h d s).1 =
    match (polling_delay_before_bound h d s).1 with
    | None => 0
    | Some us => Z.max us INA3221_MIN_POLLING_DELAY_US
    end.
Proof.
  unfold get_polling_delay_us. unfold_M.
  destruct (polling_delay_before_bound h d s) as [[us|] s']; cbn; [|reflexivity].
  destruct (us <? INA3221_MIN_POLLING_DELAY_US) eqn:E; lia.
Qed.

(** The interval is 0 (failure) or at least the minimum. *)
Lemma get_polling_delay_us_range (h : host) (d : Z) (s : sys) :
  (get_polling_delay_us h d s).1 = 0
  ∨ INA3221_MIN_POLLING_DELAY_US ≤ (get_polling_delay_us h d s).1.
Proof.
  rewrite get_polling_delay_us_bound.
  destruct (polling_delay_before_bound h d s).1; [right; lia | by left].
Qed.



(** ** Initialisation and the interval *)

Lemma finish_clears_handle (em : option energymon) (st : energymon_jetson) (s : sys) :
  em = Some (mkEm (Some st)) →
  (energymon_finish_jetson em s).1.2 = Some (mkEm None).
Proof.
  intros ->. unfold energymon_finish_jetson. unfold_M.
  destruct (if negb (poll_sensors st =? 0) then sys_pthread_join (thread st) else _) as [e1 s1].
  destruct (finish_close _ e1 s1) as [e2 s2]. reflexivity.
Qed.

(** The outcome of [init_start]: failure with the handle cleared, or
    success with the interval of [get_polling_delay_us], which is not 0. *)
Lemma init_start_outcome (h : host) (st : energymon_jetson) (delay : Z) (s : sys) :
  let us := (get_polling_delay_us h delay s).1 in
  let r := init_start h st delay s in
  (r.1.1 = -1 ∧ r.1.2 = Some (mkEm None))
  ∨ (r.1.1 = 0 ∧ us ≠ 0
     ∧ ∃ st', r.1.2 = Some (mkEm (Some st')) ∧ polling_delay_us st' = us
              ∧ count st' = count st ∧ fds st' = fds st).
Proof.
  cbn. unfold init_start. unfold_M.
  destruct (get_polling_delay_us h delay s) as [us s1]. cbn.
  destruct (us =? 0) eqn:Hus.
  - left.
    match goal with |- context [energymon_finish_jetson ?e ?x] =>
      pose proof (finish_clears_handle e _ x eq_refl) as Hf;
      destruct (energymon_finish_jetson e x) as [[r' em'] s2] end.
    cbn in *. by subst.
  - destruct (sys_pthread_create h s1) as [r s2]. cbn.
    destruct (negb (r =? 0)).
    + left.
      match goal with |- context [energymon_finish_jetson ?e ?x] =>
        pose proof (finish_clears_handle e _ x eq_refl) as Hf;
        destruct (energymon_finish_jetson e x) as [[r' em'] s3] end.
      cbn in *. by subst.
    + right. cbn. split; [done|]. split; [lia|]. eexists. split; [done|]. done.
Qed.

(** C4: after a successful initialisation [get_interval] is at least the
    hardware minimum of 1000 us, whatever the override and the delay seen in
    sysfs are; and when the interval resolves to 0 the initialisation fails
    and leaves the handle without state. *)
Theorem init_interval_at_least_minimum (h : host) :
  (∀ (em em' : option energymon) (s s' : sys),
     energymon_init_jetson h em s = (0, em', s') →
     INA3221_MIN_POLLING_DELAY_US ≤ (energymon_get_interval_jetson em' s').1)
  ∧ (∀ (s s1 : sys) (st : energymon_jetson) (delay : Z),
       init_rails h s = (Some (st, delay), s1) →
       (get_polling_delay_us h delay s1).1 = 0 →
       (energymon_init_jetson h (Some (mkEm None)) s).1 = (-1, Some (mkEm None))).
Proof.
  split.
  - intros em em' s s' Hinit. unfold energymon_init_jetson in Hinit.
    destruct em as [[[st0|]]|]; unfold_M; try (cbn in Hinit; congruence).
    destruct (init_rails h s) as [[[st delay]|] s1]; [|congruence].
    pose proof (init_start_outcome h st delay s1) as Hout. cbn in Hout.
    rewrite Hinit in Hout. cbn in Hout.
    destruct Hout as [[? _]|(_ & Hne & st' & -> & Hpd & _)]; [lia|].
    cbn. rewrite Hpd.
    destruct (get_polling_delay_us_range h delay s1); [congruence|done].
  - intros s s1 st delay Hrails Hzero. unfold energymon_init_jetson. unfold_M.
    rewrite Hrails.
    pose proof (init_start_outcome h st delay s1) as Hout. cbn in Hout.
    destruct (init_start h st delay s1) as [[r em'] s2]. cbn in *.
    destruct Hout as [[-> ->]|(_ & Hne & _)]; [done|congruence].
Qed.

(** C4 on a board with no override and on one whose override is out of
    range. *)
Lemma init_interval_at_least_minimum_witness :
  let r := energymon_init_jetson host_plain (Some (mkEm None)) fresh_process in
  INA3221_MIN_POLLING_DELAY_US ≤ (energymon_get_interval_jetson r.1.2 r.2).1
  ∧ (energymon_init_jetson host_mux_pom (Some (mkEm None)) fresh_process).1
    = (-1, Some (mkEm None)).
Proof.
  split.
  - apply (proj1 (init_interval_at_least_minimum host_plain) (Some (mkEm None)) _
             fresh_process).
    vm_compute. reflexivity.
  - apply (proj2 (init_interval_at_least_minimum host_mux_pom) fresh_process
             (init_rails host_mux_pom fresh_process).2
             (mkState 0 false 0 0 1 [4; 3; 0; 0; 0; 0]) 0).
    + vm_compute. reflexivity.
    + vm_compute. reflexivity.
Defined.

(** ** Parsing numbers *)

Lemma digit_in_base_range (base : Z) (c : ascii) (d : Z) :
  digit_in_base base c = Some d → 0 ≤ d < base.
Proof.
  unfold digit_in_base, digit_value.
  repeat match goal with
         | |- context [if ?b then _ else _] => destruct b eqn:?
         end; intros [= <-]; lia.
Qed.

Lemma scan_digits_bound (base : Z) (s : list ascii) (acc : Z) (any : bool) :
  0 ≤ acc → 1 ≤ base →
  0 ≤ (scan_digits base s acc any).1 < (acc + 1) * base ^ Z.of_nat (length s).
Proof.
  revert acc any. induction s as [|c r IH]; intros acc any Hacc Hbase.
  - cbn. lia.
  - cbn [scan_digits length]. rewrite Nat2Z.inj_succ, Z.pow_succ_r by lia.
    assert (0 < base ^ Z.of_nat (length r)) by (apply Z.pow_pos_nonneg; lia).
    destruct (digit_in_base base c) as [d|] eqn:Hd.
    + apply digit_in_base_range in Hd.
      specialize (IH (acc * base + d) true ltac:(nia) Hbase). nia.
    + cbn. nia.
Qed.

Lemma skip_spaces_length (s : list ascii) : (length (skip_spaces s) ≤ length s)%nat.
Proof. induction s as [|c r IH]; cbn; [lia|]. destruct (isspace c); cbn; lia. Qed.

Lemma take_sign_length (s : list ascii) : (length (take_sign s).2 ≤ length s)%nat.
Proof.
  destruct s as [|c r]; cbn; [lia|].
  destruct (Ascii.eqb c "-"%char); [cbn; lia|]. destruct (Ascii.eqb c "+"%char); cbn; lia.
Qed.

Lemma detect_base_spec (s : list ascii) :
  ((detect_base s).1 = 8 ∨ (detect_base s).1 = 10 ∨ (detect_base s).1 = 16)
  ∧ (length (detect_base s).2 ≤ length s)%nat.
Proof.
  unfold detect_base.
  destruct s as [|z [|x [|d r]]]; cbn [length];
    repeat match goal with
           | |- context [if ?b then _ else _] => destruct b
           end; cbn [fst snd length]; split; auto; lia.
Qed.

(** The magnitude read in a buffer of [n] bytes is below [16 ^ n]. *)
Lemma scan_number_bound (s : list ascii) :
  0 ≤ (scan_number s).1.2 < 16 ^ Z.of_nat (length s).
Proof.
  unfold scan_number.
  pose proof (skip_spaces_length s) as H1.
  pose proof (take_sign_length (skip_spaces s)) as H2.
  destruct (take_sign (skip_spaces s)) as [neg s1]. cbn [snd] in H2.
  pose proof (detect_base_spec s1) as [Hb H3].
  destruct (detect_base s1) as [base s2]. cbn [fst snd] in Hb, H3.
  pose proof (scan_digits_bound base s2 0 false ltac:(lia) ltac:(lia)) as H4.
  destruct (scan_digits base s2 0 false) as [acc any]. cbn [fst snd] in *.
  split; [lia|].
  assert (base ^ Z.of_nat (length s2) ≤ 16 ^ Z.of_nat (length s)); [|lia].
  transitivity (16 ^ Z.of_nat (length s2)).
  - apply Z.pow_le_mono_l. lia.
  - apply Z.pow_le_mono_r; lia.
Qed.

(** [strtoul] returns an [unsigned long]. *)
Lemma strtoul_range (s : list ascii) : 0 ≤ (strtoul s).1 ≤ ULONG_MAX.
Proof.
  unfold strtoul. pose proof (scan_number_bound s) as Hb.
  destruct (scan_number s) as [[neg acc] any]. cbn [fst snd] in Hb.
  destruct (negb any); [cbn; unfold ULONG_MAX; lia|].
  destruct (ULONG_MAX <? acc) eqn:E; [cbn; unfold ULONG_MAX; lia|].
  destruct neg; cbn; [|lia].
  unfold wrap64, ULONG_MAX. pose proof (Z.mod_pos_bound (- acc) (2 ^ 64)). lia.
Qed.

(** In a buffer of at most 8 bytes [strtoul] cannot overflow. *)
Lemma strtoul_short (s : list ascii) :
  (length s ≤ 8)%nat → (strtoul s).2 = None.
Proof.
  intros Hlen. unfold strtoul. pose proof (scan_number_bound s) as Hb.
  destruct (scan_number s) as [[neg acc] any]. cbn [fst snd] in Hb.
  destruct (negb any); [done|].
  assert (16 ^ Z.of_nat (length s) ≤ 16 ^ 8) by (apply Z.pow_le_mono_r; lia).
  destruct (ULONG_MAX <? acc) eqn:E; [|done].
  apply Z.ltb_lt in E. unfold ULONG_MAX in E. lia.
Qed.

(** ** One tick of the polling thread *)

(** The thread starts with a [cdata] buffer of 8 bytes. *)
Lemma uninit_length (h : host) (n : nat) : length (uninit h n) = n.
Proof. unfold uninit. rewrite length_take, length_app, length_replicate. lia. Qed.

Lemma wrap64_range (z : Z) : 0 ≤ wrap64 z ≤ ULONG_MAX.
Proof. unfold wrap64, ULONG_MAX. pose proof (Z.mod_pos_bound z (2 ^ 64)). lia. Qed.

Lemma wrap64_small (z : Z) : 0 ≤ z ≤ ULONG_MAX → wrap64 z = z.
Proof. unfold wrap64, ULONG_MAX. intros. apply Z.mod_small. lia. Qed.

Lemma wrap64_add_l (a b : Z) : wrap64 (wrap64 a + b) = wrap64 (a + b).
Proof. unfold wrap64. apply Zplus_mod_idemp_l. Qed.

Lemma buf_store_length (data cdata : list ascii) :
  (length data ≤ length cdata)%nat → length (buf_store data cdata) = length cdata.
Proof. intros. unfold buf_store. rewrite length_app, length_drop. lia. Qed.

Lemma pread_length (t : tick) (fd : Z) (n : nat) (data : list ascii) :
  pread t fd n = inr data → (length data ≤ n)%nat.
Proof.
  unfold pread. destruct (tk_pread t !! fd) as [[e|d]|]; intros [= <-].
  rewrite length_take. lia.
Qed.

Lemma sum_Z_nonneg (l : list Z) : Forall (λ v, 0 ≤ v) l → 0 ≤ sum_Z l.
Proof. unfold sum_Z. induction 1; cbn; lia. Qed.

Lemma parsed_powers_nonneg (t : tick) (fds : list Z) (cdata : list ascii) :
  Forall (λ v, 0 ≤ v) (parsed_powers t fds cdata).
Proof.
  revert cdata. induction fds as [|fd rest IH]; intros cdata; cbn; [constructor|].
  destruct (pread t fd 8) as [e|[|c data]]; auto.
  constructor; [apply strtoul_range | apply IH].
Qed.

(** When every read succeeds, the sensor loop ends with [errno] clear and
    the sum of the parsed values, reduced to an [unsigned long]. *)
Lemma read_sensors_all_succeed (t : tick) (fds : list Z) (cdata : list ascii) (sum_mw : Z) :
  length cdata = 8%nat →
  wrap64 sum_mw = sum_mw →
  all_reads_succeed t fds →
  (read_sensors t fds cdata sum_mw 0).1 =
    (wrap64 (sum_mw + sum_Z (parsed_powers t fds cdata)), 0)
  ∧ length (read_sensors t fds cdata sum_mw 0).2 = 8%nat.
Proof.
  intros Hlen Hsum Hall. revert cdata sum_mw Hlen Hsum.
  induction Hall as [|fd rest [data Hfd] Hall IH]; intros cdata sum_mw Hlen Hsum.
  { cbn. by rewrite Z.add_0_r, Hsum. }
  cbn [read_sensors parsed_powers negb Z.eqb].
  destruct (pread t fd 8) as [e|bytes] eqn:Hp.
  { unfold pread in Hp. rewrite Hfd in Hp. discriminate. }
  destruct bytes as [|c bytes]; [by apply IH|].
  apply pread_length in Hp.
  set (cdata' := buf_store (c :: bytes) cdata).
  assert (length cdata' = 8%nat) as Hlen'.
  { unfold cdata'. rewrite buf_store_length; lia. }
  pose proof (strtoul_short cdata' ltac:(lia)) as Hshort.
  destruct (strtoul cdata') as [v e]. cbn [fst snd] in *. subst e. cbn [default].
  destruct (IH cdata' (wrap64 (sum_mw + v)) Hlen') as [IH1 IH2].
  { unfold wrap64. apply Zmod_mod. }
  split; [|done]. rewrite IH1. f_equal. cbn [sum_Z foldr].
  fold (sum_Z (parsed_powers t rest cdata')). rewrite wrap64_add_l. f_equal. lia.
Qed.

(** A failing read leaves [errno] set at the end of the sensor loop. *)
Lemma read_sensors_some_fail (t : tick) (fds : list Z) (cdata : list ascii) (sum_mw en : Z) :
  en ≠ 0 ∨ some_read_fails t fds →
  (read_sensors t fds cdata sum_mw en).1.2 ≠ 0.
Proof.
  revert cdata sum_mw en. induction fds as [|fd rest IH]; intros cdata sum_mw en Hfail.
  { destruct Hfail as [Hen|Hex]; [done|]. by apply Exists_nil in Hex. }
  cbn [read_sensors]. destruct (en =? 0) eqn:Hen; cbn [negb].
  2: { cbn. lia. }
  apply Z.eqb_eq in Hen. subst en.
  destruct Hfail as [?|Hex]; [done|].
  apply Exists_cons in Hex.
  destruct (pread t fd 8) as [e|[|c bytes]] eqn:Hp.
  - destruct Hex as [(e' & [= <-] & Hne)|Hex]; apply IH; auto.
  - destruct Hex as [(e' & [=] & _)|Hex]. apply IH; auto.
  - destruct Hex as [(e' & [=] & _)|Hex].
    destruct (strtoul (buf_store (c :: bytes) cdata)) as [v e]. apply IH; auto.
Qed.

Lemma poll_tick_total (t : tick) (cdata : list ascii) (st : energymon_jetson) :
  total_uj (poll_tick t cdata st).1 =
    if negb ((read_sensors t (used_fds st) cdata 0 0).1.2 =? 0) then total_uj st
    else wrap64 (total_uj st + tick_energy t cdata st).
Proof.
  unfold poll_tick, tick_energy, used_fds.
  destruct (read_sensors t (take (count st) (fds st)) cdata 0 0) as [[sum_mw err] cdata'].
  cbn. by destruct (negb (err =? 0)).
Qed.

Lemma poll_tick_frame (t : tick) (cdata : list ascii) (st : energymon_jetson) :
  let st' := (poll_tick t cdata st).1 in
  polling_delay_us st' = polling_delay_us st ∧ thread st' = thread st
  ∧ poll_sensors st' = poll_sensors st ∧ count st' = count st ∧ fds st' = fds st.
Proof.
  unfold poll_tick.
  destruct (read_sensors t (take (count st) (fds st)) cdata 0 0) as [[sum_mw err] cdata'].
  cbn. done.
Qed.

Lemma read_sensors_length (t : tick) (fds : list Z) (cdata : list ascii) (sum_mw en : Z) :
  length cdata = 8%nat → length (read_sensors t fds cdata sum_mw en).2 = 8%nat.
Proof.
  revert cdata sum_mw en. induction fds as [|fd rest IH]; intros cdata sum_mw en Hlen; [done|].
  cbn [read_sensors]. destruct (negb (en =? 0)); [done|].
  destruct (pread t fd 8) as [e|[|c bytes]] eqn:Hp; auto.
  apply pread_length in Hp.
  destruct (strtoul (buf_store (c :: bytes) cdata)) as [v e].
  apply IH. rewrite buf_store_length; lia.
Qed.

Lemma poll_tick_cdata_length (t : tick) (cdata : list ascii) (st : energymon_jetson) :
  length cdata = 8%nat → length (poll_tick t cdata st).2 = 8%nat.
Proof.
  intros Hlen. unfold poll_tick.
  pose proof (read_sensors_length t (take (count st) (fds st)) cdata 0 0 Hlen) as H.
  by destruct (read_sensors t (take (count st) (fds st)) cdata 0 0) as [[sum_mw err] cdata'].
Qed.

Lemma poll_tick_all_succeed (t : tick) (cdata : list ascii) (st : energymon_jetson) :
  length cdata = 8%nat →
  all_reads_succeed t (used_fds st) →
  total_uj (poll_tick t cdata st).1 =
    wrap64 (total_uj st
            + wrap64 (wrap64 (sum_Z (parsed_powers t (used_fds st) cdata)) * tk_exec_us t)
              / 1000).
Proof.
  intros Hlen Hall. rewrite poll_tick_total. unfold tick_energy.
  destruct (read_sensors_all_succeed t (used_fds st) cdata 0 Hlen eq_refl Hall) as [Hr _].
  destruct (read_sensors t (used_fds st) cdata 0 0) as [[sum_mw err] cdata'].
  cbn [fst snd] in *. injection Hr as -> ->. cbn [negb Z.eqb]. by rewrite Z.add_0_l.
Qed.



(** ** Read failures *)

Lemma poll_tick_some_fail (t : tick) (cdata : list ascii) (st : energymon_jetson) :
  some_read_fails t (used_fds st) →
  (poll_tick t cdata st).1 = st ∧ tick_energy t cdata st = 0.
Proof.
  intros Hfail.
  pose proof (read_sensors_some_fail t (used_fds st) cdata 0 0 (or_intror Hfail)) as Hne.
  unfold poll_tick, tick_energy, used_fds in *.
  destruct (read_sensors t (take (count st) (fds st)) cdata 0 0) as [[sum_mw err] cdata'].
  cbn [fst snd] in *. apply Z.eqb_neq in Hne. rewrite Hne. cbn. by destruct st.
Qed.

(** C7: a tick in which a descriptor fails to read adds nothing to the total
    and leaves the monitor as it was, and the loop goes on to the next tick;
    when every read of that tick succeeds it adds its energy as usual. *)
Theorem failed_read_skips_one_tick (t1 t2 : tick) (rest : list tick) (cdata : list ascii)
    (st : energymon_jetson) :
  tk_poll_sensors t1 = true →
  some_read_fails t1 (used_fds st) →
  let cdata1 := (poll_tick t1 cdata st).2 in
  (poll_tick t1 cdata st).1 = st
  ∧ tick_energy t1 cdata st = 0
  ∧ poll_loop (t1 :: t2 :: rest) cdata st = poll_loop (t2 :: rest) cdata1 st
  ∧ (tk_poll_sensors t2 = true →
     length cdata = 8%nat →
     all_reads_succeed t2 (used_fds st) →
     total_uj (poll_loop [t1; t2] cdata st) =
       wrap64 (total_uj st
               + wrap64 (wrap64 (sum_Z (parsed_powers t2 (used_fds st) cdata1)) * tk_exec_us t2)
                 / 1000)).
Proof.
  intros Hrun Hfail cdata1.
  destruct (poll_tick_some_fail t1 cdata st Hfail) as [Hst Hen].
  assert (poll_loop (t1 :: t2 :: rest) cdata st = poll_loop (t2 :: rest) cdata1 st) as Hloop.
  { cbn [poll_loop]. rewrite Hrun. unfold cdata1.
    destruct (poll_tick t1 cdata st) as [st1 c1]. cbn [fst snd] in *. by subst st1. }
  repeat split; try done.
  intros Hrun2 Hlen Hall.
  assert (poll_loop [t1; t2] cdata st = poll_loop [t2] cdata1 st) as ->.
  { cbn [poll_loop]. rewrite Hrun. unfold cdata1.
    destruct (poll_tick t1 cdata st) as [st1 c1]. cbn [fst snd] in *. by subst st1. }
  cbn [poll_loop]. rewrite Hrun2.
  pose proof (poll_tick_all_succeed t2 cdata1 st
                (poll_tick_cdata_length t1 cdata st Hlen) Hall) as Htot.
  by destruct (poll_tick t2 cdata1 st) as [st2 c2].
Qed.

(** C7 on the three-rail monitor: the tick in which the second rail fails
    adds nothing, the next one adds 100000 uJ. *)
Lemma failed_read_skips_one_tick_witness :
  (poll_tick tick_cpu_fails (uninit host_plain 8) three_rails).1 = three_rails
  ∧ total_uj (poll_loop [tick_cpu_fails; tick_500_300_200] (uninit host_plain 8) three_rails)
    = 100000.
Proof.
  assert (some_read_fails tick_cpu_fails (used_fds three_rails)) as Hfail.
  { unfold some_read_fails. apply Exists_cons_tl, Exists_cons_hd.
    exists EIO. split; [reflexivity | discriminate]. }
  destruct (failed_read_skips_one_tick tick_cpu_fails tick_500_300_200 []
              (uninit host_plain 8) three_rails eq_refl Hfail) as (H1 & _ & _ & H4).
  split; [exact H1|].
  rewrite H4.
  - vm_compute. reflexivity.
  - reflexivity.
  - reflexivity.
  - unfold all_reads_succeed. vm_compute.
    repeat (constructor; [eexists; reflexivity|]). constructor.
Defined.

(** ** The total over a run *)

Lemma tick_energy_nonneg (t : tick) (cdata : list ascii) (st : energymon_jetson) :
  0 ≤ tick_energy t cdata st.
Proof.
  unfold tick_energy.
  destruct (read_sensors t (used_fds st) cdata 0 0) as [[sum_mw err] cdata'].
  destruct (negb (err =? 0)); [lia|].
  apply Z.div_pos; [apply wrap64_range | lia].
Qed.

Lemma poll_tick_monotone (t : tick) (cdata : list ascii) (st : energymon_jetson) :
  0 ≤ total_uj st →
  total_uj st + tick_energy t cdata st ≤ ULONG_MAX →
  total_uj st ≤ total_uj (poll_tick t cdata st).1.
Proof.
  intros Hpos Hfit. rewrite poll_tick_total.
  pose proof (tick_energy_nonneg t cdata st).
  destruct (negb _); [lia|]. rewrite wrap64_small; lia.
Qed.

Lemma poll_loop_monotone (ticks : list tick) (cdata : list ascii) (st : energymon_jetson) :
  0 ≤ total_uj st →
  never_wraps ticks cdata st →
  total_uj st ≤ total_uj (poll_loop ticks cdata st).
Proof.
  revert cdata st. induction ticks as [|t rest IH]; intros cdata st Hpos Hnw; [done|].
  cbn [poll_loop never_wraps] in *.
  destruct (tk_poll_sensors t); [|done].
  destruct (Hnw eq_refl) as [Hfit Hrest].
  pose proof (poll_tick_monotone t cdata st Hpos Hfit) as Hmono.
  destruct (poll_tick t cdata st) as [st1 cdata1]. cbn [fst snd] in *.
  specialize (IH cdata1 st1 ltac:(lia) Hrest). lia.
Qed.

(** C6, as the code has it: of two [read_total] calls on a running monitor,
    with any ticks in between, the second returns at least what the first
    returned as long as no tick makes the 64-bit total wrap around; each tick
    adds a non-negative amount modulo 2^64. *)
Theorem total_non_decreasing_without_wrap (ticks : list tick) (cdata : list ascii)
    (st : energymon_jetson) (s s' : sys) :
  0 ≤ total_uj st →
  never_wraps ticks cdata st →
  let before := Some (mkEm (Some st)) in
  let after := Some (mkEm (Some (poll_loop ticks cdata st))) in
  (energymon_read_total_jetson before s).1 ≤ (energymon_read_total_jetson after s').1.
Proof.
  intros Hpos Hnw. cbn. by apply poll_loop_monotone.
Qed.

(** C6 on the three-rail monitor over three ticks. *)
Lemma total_non_decreasing_without_wrap_witness :
  (energymon_read_total_jetson (Some (mkEm (Some three_rails))) fresh_process).1
  ≤ (energymon_read_total_jetson
       (Some (mkEm (Some (poll_loop (replicate 3 tick_500_300_200) (uninit host_plain 8)
                            three_rails)))) fresh_process).1.
Proof.
  apply (total_non_decreasing_without_wrap (replicate 3 tick_500_300_200)
           (uninit host_plain 8) three_rails fresh_process fresh_process).
  - vm_compute. discriminate.
  - vm_compute. repeat split; discriminate.
Defined.

(** C6 as stated fails: a monitor started at 0 whose single rail reads
    9999999 mW every 1844674407370 us has a smaller total after 1001 ticks
    than after 1000, the 64-bit total having wrapped around. *)
Lemma total_decreases_on_wrap :
  let run n := jetson_poll_sensors host_plain 1 (replicate n tick_long) one_rail in
  (energymon_read_total_jetson (Some (mkEm (Some (run 1001%nat)))) fresh_process).1
  < (energymon_read_total_jetson (Some (mkEm (Some (run 1000%nat)))) fresh_process).1.
Proof. vm_compute. reflexivity. Qed.

(** ** Descriptors *)

Lemma lowest_free_from_ge (fuel : nat) (n : Z) (tab : gmap Z string) :
  n ≤ lowest_free_from fuel n tab.
Proof.
  revert n. induction fuel as [|k IH]; intros n; cbn; [lia|].
  destruct (decide (is_Some (tab !! n))); [|lia]. specialize (IH (n + 1)). lia.
Qed.

Lemma lowest_free_from_delete (fuel : nat) (n k : Z) (tab : gmap Z string) :
  k < n → lowest_free_from fuel n (delete k tab) = lowest_free_from fuel n tab.
Proof.
  revert n. induction fuel as [|f IH]; intros n Hlt; cbn; [done|].
  rewrite lookup_delete_ne by lia. rewrite IH by lia. done.
Qed.

Lemma lowest_free_from_fresh (fuel : nat) (n : Z) (tab : gmap Z string) :
  (size tab ≤ fuel)%nat → tab !! lowest_free_from fuel n tab = None.
Proof.
  revert n tab. induction fuel as [|f IH]; intros n tab Hsize; cbn.
  - assert (tab = ∅) as -> by (apply map_size_empty_inv; lia). apply lookup_empty.
  - destruct (decide (is_Some (tab !! n))) as [Hin|Hout].
    + rewrite <- (lowest_free_from_delete f (n + 1) n tab) by lia.
      pose proof (lowest_free_from_ge f (n + 1) (delete n tab)) as Hge.
      specialize (IH (n + 1) (delete n tab)).
      rewrite lookup_delete_ne in IH by lia. apply IH.
      rewrite map_size_delete_Some by done. lia.
    + by apply eq_None_not_Some.
Qed.

Lemma lowest_free_fresh (tab : gmap Z string) :
  tab !! lowest_free tab = None ∧ 0 ≤ lowest_free tab.
Proof.
  split; [by apply lowest_free_from_fresh | apply lowest_free_from_ge].
Qed.

(** A descriptor that [open] returns is new, and positive when descriptor 0
    is in use. *)
Lemma sys_open_spec (h : host) (path : string) (s : sys) :
  match open_error h path with
  | Some e => sys_open h path s = (-1, with_errno e s)
  | None =>
      ∃ fd, sys_open h path s = (fd, with_fdtab (<[fd := path]> (fdtab s)) s)
            ∧ fdtab s !! fd = None ∧ 0 ≤ fd ∧ (stdin_open s → 0 < fd)
  end.
Proof.
  unfold open_error, sys_open.
  destruct (h_files h !! path) as [f|]; [|done].
  destruct (f_open f) as [e|]; [done|].
  destruct (lowest_free_fresh (fdtab s)) as [Hfresh Hge].
  eexists. split; [done|]. split; [done|]. split; [done|].
  intros [p Hp]. destruct (decide (lowest_free (fdtab s) = 0)) as [Hz|]; [|lia].
  rewrite Hz in Hfresh. congruence.
Qed.

Lemma with_errno_id (s : sys) : with_errno (errno s) s = s.
Proof. by destruct s. Qed.

(** [read_string] gives the descriptor it opened back: the process changes
    in [errno] only, and only on failure. *)
Lemma read_string_spec (h : host) (file : string) (str : list ascii) (s : sys) :
  read_string h file str 64 s =
    match file_bytes h file 64 with
    | inl e => ((-1, str), with_errno e s)
    | inr [] => ((0, str), s)
    | inr data => ((0, strip_after_read data str 64), s)
    end.
Proof.
  unfold read_string, file_bytes. unfold_M.
  pose proof (sys_open_spec h file s) as Hopen. unfold open_error in Hopen.
  destruct (h_files h !! file) as [f|] eqn:Hfile; [|by rewrite Hopen].
  destruct (f_open f) as [e|] eqn:Hfo; [by rewrite Hopen|].
  destruct Hopen as (fd & -> & Hfresh & Hge & _).
  destruct (fd <? 0) eqn:Hneg; [lia|].
  unfold sys_read, sys_close. cbn [fdtab with_fdtab with_errno].
  rewrite lookup_insert_eq, Hfile.
  destruct (f_read f) as [e|].
  - cbn [fdtab with_fdtab with_errno]. rewrite lookup_insert_eq. cbn.
    rewrite delete_insert_id by done. by destruct s.
  - cbn [fdtab with_fdtab with_errno]. rewrite lookup_insert_eq.
    cbn [fdtab with_fdtab with_errno errno heap threads oom].
    rewrite delete_insert_id by done.
    destruct (take 64 (chars (f_data f))) as [|c data] eqn:Hdata.
    + cbn. by destruct s.
    + cbn [length]. rewrite Nat2Z.inj_succ.
      destruct (0 <? Z.succ (Z.of_nat (length data))) eqn:Hpos.
      2: { apply Z.ltb_ge in Hpos. lia. }
      destruct (Z.succ (Z.of_nat (length data)) <? 0) eqn:Hn; [lia|].
      by destruct s.
Qed.

(** [read_long] changes nothing but [errno]. *)
Lemma read_long_resources (h : host) (file : string) (s : sys) :
  same_resources s (read_long h file s).2.
Proof.
  unfold read_long. unfold_M.
  pose proof (sys_open_spec h file s) as Hopen. unfold open_error in Hopen.
  destruct (h_files h !! file) as [f|] eqn:Hfile; [|by rewrite Hopen].
  destruct (f_open f) as [e|] eqn:Hfo; [by rewrite Hopen|].
  destruct Hopen as (fd & -> & Hfresh & Hge & _).
  destruct (fd <? 0) eqn:Hneg; [lia|].
  unfold sys_read, sys_close. cbn [fdtab with_fdtab with_errno].
  rewrite lookup_insert_eq, Hfile.
  destruct (f_read f) as [e|].
  - cbn. rewrite lookup_insert_eq. cbn. rewrite delete_insert_id by done. done.
  - destruct (0 <? Z.of_nat (length (take 64 (chars (f_data f))))).
    + destruct (strtol _) as [v [e|]]; cbn; rewrite lookup_insert_eq; cbn;
        rewrite delete_insert_id by done; done.
    + cbn. rewrite lookup_insert_eq. cbn. rewrite delete_insert_id by done. done.
Qed.

(** ** The walk of a device directory *)

Lemma slot_insert (l : list Z) (i j : nat) (x : Z) :
  (i < length l)%nat →
  slot (<[i := x]> l) j = if decide (j = i) then x else slot l j.
Proof.
  intros Hi. unfold slot. rewrite list_lookup_insert.
  destruct (decide (j = i)) as [->|Hne].
  - by rewrite decide_True.
  - rewrite decide_False; [done|]. intros [-> _]. done.
Qed.

Lemma slot_replicate (n i : nat) : slot (replicate n 0) i = 0.
Proof.
  unfold slot. destruct (replicate n 0 !! i) as [x|] eqn:Hx; [|done].
  by apply lookup_replicate in Hx as [-> _].
Qed.

Lemma match_index_lt (name : list ascii) (names : list (list ascii)) (i : nat) :
  match_index name names = Some i → (i < length names)%nat.
Proof.
  revert i. induction names as [|n r IH]; intros i; cbn; [done|].
  destruct (strncmp_eq name n 64); [intros [= <-]; lia|].
  destruct (match_index name r) as [k|]; cbn; [|done].
  intros [= <-]. specialize (IH k eq_refl). lia.
Qed.

Lemma match_index_matches (name : list ascii) (names : list (list ascii)) (i : nat) :
  match_index name names = Some i →
  ∃ n, names !! i = Some n ∧ strncmp_eq name n 64 = true.
Proof.
  revert i. induction names as [|n r IH]; intros i; cbn; [done|].
  destruct (strncmp_eq name n 64) eqn:E; [intros [= <-]; eauto|].
  destruct (match_index name r) as [k|]; cbn; [|done].
  intros [= <-]. apply (IH k eq_refl).
Qed.

Section DeviceDirWalk.
Variable h : host.
Variable names : list (list ascii).
Variables bus_addr device : string.
Variable fds0 : list Z.
Hypothesis names_fit : (length names ≤ length fds0)%nat.

Local Abbreviation hit' := (hit h names bus_addr device).
Local Abbreviation hit_before' := (hit_before h names bus_addr device).
Local Abbreviation name_at' := (name_at h bus_addr device).
Local Abbreviation name_after' := (name_after h bus_addr device).
Local Abbreviation name_bytes' := (name_bytes h bus_addr device).
Local Abbreviation fault' := (fault h names bus_addr device fds0).
Local Abbreviation reached' := (reached h names bus_addr device fds0).
Local Abbreviation taken' := (taken h names bus_addr device fds0).

Lemma hit_before_nil (i : nat) : ¬ hit_before' [] i.
Proof. intros (p & c & q & Heq & _). by destruct p. Qed.

Lemma hit_before_snoc (pre : list Z) (c : Z) (i : nat) :
  hit_before' (pre ++ [c]) i ↔ hit_before' pre i ∨ hit' pre c = Some i.
Proof.
  split.
  - intros (p & c' & q & Heq & Hhit).
    destruct q as [|x q _] using rev_ind.
    + apply app_inj_tail in Heq as [-> ->]. by right.
    + rewrite app_comm_cons, app_assoc in Heq.
      apply app_inj_tail in Heq as [-> _]. left. by exists p, c', q.
  - intros [(p & c' & q & -> & Hhit)|Hhit].
    + exists p, c', (q ++ [c]). by rewrite <- app_assoc.
    + by exists pre, c, [].
Qed.

Lemma hit_before_app (pre post : list Z) (i : nat) :
  hit_before' pre i → hit_before' (pre ++ post) i.
Proof.
  intros (p & c & q & -> & Hhit). exists p, c, (q ++ post).
  by rewrite <- app_assoc.
Qed.

Lemma name_at_snoc (pre : list Z) (c : Z) :
  name_at' (pre ++ [c]) = name_after' (name_at' pre) c.
Proof. unfold name_at. by rewrite foldl_snoc. Qed.

Lemma walk_channel_outcome (pre : list Z) (c : Z) (w : walk) (s : sys) :
  reached' pre w →
  ∃ r w' s',
    walk_channel h names bus_addr device c w s = ((r, w'), s')
    ∧ reached' (pre ++ [c]) w'
    ∧ (r = -1 ∨ r = 0)
    ∧ (name_bytes' c = inl ENOENT → r = 0 ∧ w' = w ∧ s' = with_errno ENOENT s)
    ∧ (taken' pre w s →
       (r = -1 ∧ fault' pre c (errno s'))
       ∨ (r = 0 ∧ (∀ e, ¬ fault' pre c e) ∧ taken' (pre ++ [c]) w' s')).
Proof.
  intros (Hname & Hlen & Hslots).
  unfold reached, taken.
  unfold walk_channel, ina3221x_try_read_rail_name. unfold_M.
  rewrite read_string_spec. fold (name_bytes' c).
  assert (∀ i, hit_before' pre i → hit_before' (pre ++ [c]) i) as Hmono.
  { intros i Hi. apply hit_before_snoc. by left. }
  destruct (name_bytes' c) as [e|data] eqn:Hbytes.
  - (* the name cannot be read *)
    cbn. eexists _, _, _. split; [reflexivity|].
    assert (name_after' (w_name w) c = w_name w) as Hsame.
    { unfold name_after. by rewrite Hbytes. }
    split; [|split; [|split]].
    + split; [|split]; cbn; [|done|].
      * by rewrite name_at_snoc, <- Hname, Hsame.
      * intros i Hi. destruct (Hslots i Hi); auto.
    + destruct (e =? ENOENT); auto.
    + intros [= ->]. cbn. split; [done|]. split; [by destruct w|done].
    + intros [Hstdin Htaken]. destruct (e =? ENOENT) eqn:He.
      * right. apply Z.eqb_eq in He as ->. split; [done|]. split.
        -- intros e' Hf. inversion Hf as [e1 Hb Hne|i Hh _|i e1 Hh _ _ _].
           ++ rewrite Hbytes in Hb. congruence.
           ++ unfold hit in Hh. by rewrite Hbytes in Hh.
           ++ unfold hit in Hh. by rewrite Hbytes in Hh.
        -- split; [done|]. cbn. intros i [Hi|Hi]; [auto|].
           apply hit_before_snoc in Hi as [Hi|Hi]; [auto|].
           unfold hit in Hi. by rewrite Hbytes in Hi.
      * left. apply Z.eqb_neq in He. split; [done|]. cbn. by apply fault_name.
  - (* the name is read *)
    set (name := name_after' (w_name w) c).
    assert (name_at' (pre ++ [c]) = name) as Hname'.
    { by rewrite name_at_snoc, <- Hname. }
    assert (hit' pre c = match_index name names) as Hhit.
    { unfold hit. rewrite Hbytes. unfold name. by rewrite Hname. }
    assert ((match data with
             | [] => (0, w_name w, with_errno 0 s)
             | _ :: _ => (0, strip_after_read data (w_name w) 64, with_errno 0 s)
             end) = (0, name, with_errno 0 s)) as ->.
    { unfold name, name_after. rewrite Hbytes. by destruct data. }
    cbn [Z.ltb Z.compare].
    assert (∀ e, name_bytes' c = inl e → False) as Hnoerr.
    { intros e He. rewrite Hbytes in He. discriminate. }
    destruct (match_index name names) as [i|] eqn:Hmi.
    2: { (* the name is not in the list *)
      eexists _, _, _. split; [reflexivity|].
      split; [|split; [auto|split; [done|]]].
      - split; [|split]; cbn; [done|done|].
        intros i Hi. destruct (Hslots i Hi); auto.
      - intros [Hstdin Htaken]. right. split; [done|]. split.
        + intros e Hf. inversion Hf as [e1 Hb Hne|i Hh _|i e1 Hh _ _ _];
            [by eapply Hnoerr|congruence|congruence].
        + split; [done|]. cbn. intros i [Hi|Hi]; [auto|].
          apply hit_before_snoc in Hi as [Hi|Hi]; [auto|congruence]. }
    pose proof (match_index_lt _ _ _ Hmi) as Hi.
    assert (∀ x j, slot (<[i := x]> (w_fds w)) j ≠ 0 →
                   slot fds0 j ≠ 0 ∨ hit_before' (pre ++ [c]) j) as Hins.
    { intros x j. rewrite slot_insert by lia.
      destruct (decide (j = i)) as [->|Hne].
      - intros _. right. apply hit_before_snoc. by right.
      - intros Hj. destruct (Hslots j Hj); auto. }
    destruct (slot (w_fds w) i =? 0) eqn:Hsl; cbn [negb].
    2: { (* the slot is taken' *)
      apply Z.eqb_neq in Hsl.
      eexists _, _, _. split; [reflexivity|].
      split; [|split; [auto|split; [done|]]].
      - split; [|split]; cbn; [done|done|].
        intros j Hj. destruct (Hslots j Hj); auto.
      - intros _. left. split; [done|]. cbn.
        apply (fault_duplicate _ _ _ _ _ _ _ i); [done|]. by apply Hslots. }
    apply Z.eqb_eq in Hsl.
    unfold ina3221x_open_power_file.
    pose proof (sys_open_spec h (INA3221X_FILE_TEMPLATE_POWER bus_addr device c)
                  (with_errno 0 s)) as Hopen.
    destruct (open_error h (INA3221X_FILE_TEMPLATE_POWER bus_addr device c))
      as [e|] eqn:Hoe.
    + (* the power file cannot be opened *)
      rewrite Hopen. cbn [Z.ltb Z.compare].
      eexists _, _, _. split; [reflexivity|].
      split; [|split; [auto|split; [done|]]].
      * split; [|split]; cbn; [done| by rewrite length_insert |apply Hins].
      * intros [Hstdin Htaken]. left. split; [done|]. cbn.
        apply (fault_power _ _ _ _ _ _ _ i); [done| | |done].
        -- destruct (decide (slot fds0 i = 0)) as [|Hne]; [done|].
           exfalso. by apply (Htaken i); [left|].
        -- intros Hb. by apply (Htaken i); [right|].
    + (* the power file is opened *)
      destruct Hopen as (fd & -> & Hfresh & Hge & Hpos).
      destruct (fd <? 0) eqn:Hneg; [lia|].
      unfold ina3221x_try_read_polling_delay_us. unfold_M.
      match goal with |- context [read_long h ?f ?x] =>
        pose proof (read_long_resources h f x) as Hres;
        destruct (read_long h f x) as [v s2] end.
      eexists _, _, _. split; [reflexivity|].
      split; [|split; [auto|split; [done|]]].
      * split; [|split]; cbn; [done| by rewrite length_insert |apply Hins].
      * intros [Hstdin Htaken]. right. split; [done|].
        specialize (Hpos Hstdin). split.
        -- intros e Hf. inversion Hf as [e1 Hb Hne|j Hh Hdup|j e1 Hh _ _ Hop];
             [by eapply Hnoerr| |congruence].
           assert (j = i) as -> by congruence.
           by apply (Htaken i).
        -- split.
           ++ unfold stdin_open in *. destruct Hres as [Hfd _].
              cbn in Hfd |- *. rewrite Hfd. cbn.
              rewrite lookup_insert_ne by lia. done.
           ++ cbn. intros j Hj. rewrite slot_insert by lia.
              destruct (decide (j = i)) as [->|Hne]; [lia|].
              apply Htaken. destruct Hj as [Hj|Hj]; [by left|].
              apply hit_before_snoc in Hj as [Hj|Hj]; [by right|congruence].
Qed.

Lemma walk_channels_outcome (chs pre : list Z) (w : walk) (s : sys) :
  reached' pre w →
  ∃ r w' s',
    walk_channels h names bus_addr device chs w s = ((r, w'), s')
    ∧ (r = -1 ∨ r = 0)
    ∧ length (w_fds w') = length fds0
    ∧ (∀ i, slot (w_fds w') i ≠ 0 → slot fds0 i ≠ 0 ∨ hit_before' (pre ++ chs) i)
    ∧ (taken' pre w s →
       (r = -1 ∧ ∃ p c q, chs = p ++ c :: q ∧ fault' (pre ++ p) c (errno s'))
       ∨ (r = 0 ∧ stdin_open s'
          ∧ ∀ p c q e, chs = p ++ c :: q → ¬ fault' (pre ++ p) c e)).
Proof.
  revert pre w s. induction chs as [|c rest IH]; intros pre w s Hreached.
  - exists 0, w, s. rewrite app_nil_r.
    destruct Hreached as (Hname & Hlen & Hslots).
    split; [done|]. split; [auto|]. split; [done|]. split; [done|].
    intros [Hstdin _]. right. split; [done|]. split; [done|].
    intros p c q e Heq. by destruct p.
  - destruct (walk_channel_outcome pre c w s Hreached)
      as (r1 & w1 & s1 & Hstep & Hreached1 & Hr1 & _ & Htaken1).
    cbn [walk_channels]. unfold_M. rewrite Hstep.
    destruct Hr1 as [-> | ->]; cbn [Z.ltb Z.compare].
    + (* the walk returns at this channel *)
      exists (-1), w1, s1. destruct Hreached1 as (_ & Hlen1 & Hslots1).
      split; [done|]. split; [auto|]. split; [done|]. split.
      * intros i Hi. destruct (Hslots1 i Hi) as [|Hb]; [auto|]. right.
        replace (pre ++ c :: rest) with ((pre ++ [c]) ++ rest)
          by (by rewrite <- app_assoc).
        by apply hit_before_app.
      * intros Ht. destruct (Htaken1 Ht) as [[_ Hf]|[? _]]; [|lia].
        left. split; [done|]. exists [], c, rest. by rewrite app_nil_r.
    + (* the walk goes on *)
      destruct (IH (pre ++ [c]) w1 s1 Hreached1)
        as (r & w' & s' & Hrest & Hr & Hlen' & Hslots' & Htaken').
      exists r, w', s'. rewrite <- app_assoc in Hslots'. cbn in Hslots'.
      split; [done|]. split; [done|]. split; [done|]. split; [done|].
      intros Ht. destruct (Htaken1 Ht) as [[? _]|(_ & Hnofault & Ht1)]; [lia|].
      destruct (Htaken' Ht1) as [[-> (p & c2 & q & -> & Hf)]|(-> & Hstdin & Hnone)].
      * left. split; [done|]. exists (c :: p), c2, q. split; [done|].
        by rewrite <- app_assoc in Hf.
      * right. split; [done|]. split; [done|].
        intros p c2 q e Heq. destruct p as [|c' p]; cbn in Heq.
        -- injection Heq as <- <-. rewrite app_nil_r. apply Hnofault.
        -- injection Heq as <- ->.
           replace (pre ++ c :: p) with ((pre ++ [c]) ++ p)
             by (by rewrite <- app_assoc).
           by eapply Hnone.
Qed.
End DeviceDirWalk.

(** A channel whose name file is absent is passed over: the iteration goes
    on with the walk as it was, and the process changes in [errno] only. *)
Lemma walk_channel_absent (h : host) (names : list (list ascii)) (bus_addr device : string)
    (c : Z) (w : walk) (s : sys) :
  name_bytes h bus_addr device c = inl ENOENT →
  walk_channel h names bus_addr device c w s = ((0, w), with_errno ENOENT s).
Proof.
  intros Hb. unfold walk_channel, ina3221x_try_read_rail_name. unfold_M.
  rewrite read_string_spec. fold (name_bytes h bus_addr device c). rewrite Hb.
  cbn. by destruct w.
Qed.

Lemma reached_start (h : host) (names : list (list ascii)) (bus_addr device : string)
    (fds : list Z) (d : Z) :
  reached h names bus_addr device fds [] (mkWalk fds d (uninit h 64)).
Proof. split; [done|]. split; [done|]. cbn. auto. Qed.



(** *** Name files as sysfs writes them *)

Lemma strcspn_lf_app (n rest : list ascii) :
  Forall (λ c, c ≠ NUL ∧ c ≠ LF) n →
  strcspn_lf (n ++ LF :: rest) = length n.
Proof.
  induction 1 as [|c n [Hnul Hlf] _ IH]; cbn.
  - by rewrite Ascii.eqb_refl, orb_true_r.
  - apply Ascii.eqb_neq in Hnul, Hlf. rewrite Hnul, Hlf. cbn. by rewrite IH.
Qed.

Lemma c_str_app_nul (n rest : list ascii) :
  Forall (λ c, c ≠ NUL ∧ c ≠ LF) n → c_str (n ++ NUL :: rest) = n.
Proof.
  induction 1 as [|c n [Hnul _] _ IH]; cbn; [done|].
  apply Ascii.eqb_neq in Hnul. by rewrite Hnul, IH.
Qed.

(** When the bytes read are a name of less than 64 characters followed by a
    newline, the buffer holds that name, whatever it held before. *)
Lemma strip_after_read_line (n rest str : list ascii) :
  Forall (λ c, c ≠ NUL ∧ c ≠ LF) n →
  (length n < 64)%nat →
  c_str (strip_after_read (n ++ LF :: rest) str 64) = n.
Proof.
  intros Hn Hlen. unfold strip_after_read, buf_store.
  rewrite <- app_assoc. cbn [app]. rewrite strcspn_lf_app by done.
  rewrite decide_True by done.
  rewrite insert_app_r_alt by lia. rewrite Nat.sub_diag. cbn [insert list_insert].
  by apply c_str_app_nul.
Qed.

Lemma match_index_c_str (a b : list ascii) (names : list (list ascii)) :
  c_str a = c_str b → match_index a names = match_index b names.
Proof.
  intros Heq. induction names as [|n r IH]; cbn; [done|].
  unfold strncmp_eq. by rewrite Heq, IH.
Qed.

Lemma c_str_plain (n : list ascii) :
  Forall (λ c, c ≠ NUL ∧ c ≠ LF) n → c_str n = n.
Proof.
  induction 1 as [|c n [Hnul _] _ IH]; cbn; [done|].
  apply Ascii.eqb_neq in Hnul. by rewrite Hnul, IH.
Qed.

(** A channel whose name file holds a line [n] hits the first name of the
    list that agrees with [n], whatever channels came before. *)
Lemma hit_line (h : host) (names : list (list ascii)) (bus_addr device : string)
    (pre : list Z) (c : Z) (n rest : list ascii) :
  name_bytes h bus_addr device c = inr (n ++ LF :: rest) →
  Forall (λ c, c ≠ NUL ∧ c ≠ LF) n →
  (length n < 64)%nat →
  hit h names bus_addr device pre c = match_index n names.
Proof.
  intros Hb Hn Hlen. unfold hit, name_after. rewrite Hb.
  destruct (n ++ LF :: rest) as [|a data] eqn:Hdata; [by destruct n|].
  rewrite <- Hdata. apply match_index_c_str.
  rewrite strip_after_read_line by done. by rewrite c_str_plain.
Qed.

(** ** The walk of the whole tree *)

Section TreeWalk.
Variable h : host.
Variable names : list (list ascii).

Lemma walk_device_dir_slots (fds : list Z) (d : Z) (bus_addr device : string) (s : sys) :
  (length names ≤ length fds)%nat →
  let fds' := (ina3221x_walk_device_dir h names fds d bus_addr device s).1.1.2 in
  length fds' = length fds
  ∧ ∀ i, slot fds' i ≠ 0 → slot fds i ≠ 0 ∨ rail_at h names bus_addr device i.
Proof.
  intros Hfit.
  destruct (walk_channels_outcome h names bus_addr device fds Hfit
              (seqZ 0 INA3221_CHANNELS_MAX) [] (mkWalk fds d (uninit h 64)) s
              (reached_start _ _ _ _ _ _))
    as (r1 & w' & s' & Hwalk & _ & Hlen & Hslots & _).
  unfold ina3221x_walk_device_dir. unfold_M. rewrite Hwalk. cbn. done.
Qed.

Lemma walk_devices_slots (bus_addr : string) (entries : list dirent) (fds : list Z)
    (d : Z) (s : sys) :
  (length names ≤ length fds)%nat →
  let fds' := (walk_devices h names bus_addr entries fds d s).1.1.2 in
  length fds' = length fds
  ∧ ∀ i, slot fds' i ≠ 0 →
         slot fds i ≠ 0
         ∨ ∃ e, e ∈ entries ∧ is_iio_device_dir e = true
                ∧ rail_at h names bus_addr (d_name e) i.
Proof.
  revert fds d s. induction entries as [|entry rest IH]; intros fds d s Hfit.
  { cbn. auto. }
  cbn [walk_devices]. destruct (is_iio_device_dir entry) eqn:Hdev.
  - unfold_M.
    pose proof (walk_device_dir_slots fds d bus_addr (d_name entry) s Hfit) as Hone.
    destruct (ina3221x_walk_device_dir h names fds d bus_addr (d_name entry) s)
      as [[[ret fds1] d1] s1]. cbn [fst snd] in Hone. destruct Hone as [Hlen1 Hslots1].
    assert (∀ i, slot fds1 i ≠ 0 →
                 slot fds i ≠ 0
                 ∨ ∃ e, e ∈ entry :: rest ∧ is_iio_device_dir e = true
                        ∧ rail_at h names bus_addr (d_name e) i) as Hhere.
    { intros i Hi. destruct (Hslots1 i Hi) as [|Hat]; [auto|].
      right. exists entry. split; [by left|done]. }
    destruct (ret <? 0); [cbn; done|].
    destruct (IH fds1 d1 s1 ltac:(lia)) as [Hlen' Hslots']. split; [lia|].
    intros i Hi. destruct (Hslots' i Hi) as [H1|(e & He & Hd & Hat)]; [auto|].
    right. exists e. split; [by right|done].
  - destruct (IH fds d s Hfit) as [Hlen' Hslots']. split; [done|].
    intros i Hi. destruct (Hslots' i Hi) as [H1|(e & He & Hd & Hat)]; [auto|].
    right. exists e. split; [by right|done].
Qed.

Lemma walk_bus_addr_dir_slots (fds : list Z) (d : Z) (bus_addr : string) (s : sys) :
  (length names ≤ length fds)%nat →
  let fds' := (ina3221x_walk_bus_addr_dir h names fds d bus_addr s).1.1.2 in
  length fds' = length fds
  ∧ ∀ i, slot fds' i ≠ 0 →
         slot fds i ≠ 0
         ∨ ∃ e, e ∈ dir_entries h (INA3221X_DIR_TEMPLATE_BUS_ADDR bus_addr)
                ∧ is_iio_device_dir e = true
                ∧ rail_at h names bus_addr (d_name e) i.
Proof.
  intros Hfit. unfold ina3221x_walk_bus_addr_dir, sys_opendir, dir_entries. unfold_M.
  destruct (h_dirs h !! INA3221X_DIR_TEMPLATE_BUS_ADDR bus_addr) as [[e|entries]|];
    cbn; auto.
  by apply walk_devices_slots.
Qed.

Lemma walk_buses_slots (entries : list dirent) (fds : list Z) (d : Z) (s : sys) :
  (length names ≤ length fds)%nat →
  let fds' := (walk_buses h names entries fds d s).1.1.2 in
  length fds' = length fds
  ∧ ∀ i, slot fds' i ≠ 0 →
         slot fds i ≠ 0
         ∨ ∃ b e, b ∈ entries ∧ is_i2c_bus_addr_dir b = true
                  ∧ e ∈ dir_entries h (INA3221X_DIR_TEMPLATE_BUS_ADDR (d_name b))
                  ∧ is_iio_device_dir e = true
                  ∧ rail_at h names (d_name b) (d_name e) i.
Proof.
  revert fds d s. induction entries as [|entry rest IH]; intros fds d s Hfit.
  { cbn. auto. }
  cbn [walk_buses]. destruct (is_i2c_bus_addr_dir entry) eqn:Hbus.
  - unfold_M.
    pose proof (walk_bus_addr_dir_slots fds d (d_name entry) s Hfit) as Hone.
    destruct (ina3221x_walk_bus_addr_dir h names fds d (d_name entry) s)
      as [[[ret fds1] d1] s1]. cbn [fst snd] in Hone. destruct Hone as [Hlen1 Hslots1].
    assert (∀ i, slot fds1 i ≠ 0 →
                 slot fds i ≠ 0
                 ∨ ∃ b e, b ∈ entry :: rest ∧ is_i2c_bus_addr_dir b = true
                    ∧ e ∈ dir_entries h (INA3221X_DIR_TEMPLATE_BUS_ADDR (d_name b))
                    ∧ is_iio_device_dir e = true
                    ∧ rail_at h names (d_name b) (d_name e) i) as Hhere.
    { intros i Hi. destruct (Hslots1 i Hi) as [|(e & He & Hd & Hat)]; [auto|].
      right. exists entry, e. split; [by left|done]. }
    destruct (ret <? 0); [cbn; done|].
    destruct (IH fds1 d1 s1 ltac:(lia)) as [Hlen' Hslots']. split; [lia|].
    intros i Hi. destruct (Hslots' i Hi) as [H1|(b & e & Hb & Hrest)]; [auto|].
    right. exists b, e. split; [by right|done].
  - destruct (IH fds d s Hfit) as [Hlen' Hslots']. split; [done|].
    intros i Hi. destruct (Hslots' i Hi) as [H1|(b & e & Hb & Hrest)]; [auto|].
    right. exists b, e. split; [by right|done].
Qed.

(** After the walk of the tree a slot holds something only if it did
    before or the walk came by a channel that hits its name. *)
Lemma walk_i2c_drivers_dir_slots (fds : list Z) (d : Z) (s : sys) :
  (length names ≤ length fds)%nat →
  let fds' := (ina3221x_walk_i2c_drivers_dir h names fds d s).1.1.2 in
  length fds' = length fds
  ∧ ∀ i, slot fds' i ≠ 0 → slot fds i ≠ 0 ∨ rail_found h names i.
Proof.
  intros Hfit. unfold ina3221x_walk_i2c_drivers_dir, sys_opendir, rail_found.
  unfold dir_entries at 1. unfold_M.
  destruct (h_dirs h !! INA3221X_DIR) as [[e|entries]|]; cbn; auto.
  by apply walk_buses_slots.
Qed.
End TreeWalk.

(** ** Descriptors through the walk *)

Lemma slot_positive_lt (fds : list Z) (i : nat) : slot fds i ≠ 0 → (i < length fds)%nat.
Proof.
  unfold slot. intros Hs. destruct (fds !! i) as [x|] eqn:Hx; [|done].
  by apply lookup_lt_Some in Hx.
Qed.

Lemma owns_start (tab : gmap Z string) (n : nat) : owns tab (replicate n 0) tab.
Proof.
  split; [|split].
  - intros k [Hpos [i Hi]]. rewrite slot_replicate in Hi. lia.
  - done.
  - intros i j Hpos. rewrite slot_replicate in Hpos. lia.
Qed.

(** A new descriptor is put in an empty slot. *)
Lemma owns_open (tab0 tab : gmap Z string) (fds : list Z) (i : nat) (fd : Z) (p : string) :
  owns tab0 fds tab →
  tab !! fd = None → 0 < fd → slot fds i = 0 → (i < length fds)%nat →
  owns tab0 (<[i := fd]> fds) (<[fd := p]> tab).
Proof.
  intros (Hheld & Hother & Hone) Hfresh Hpos Hempty Hi.
  assert (¬ held fds fd) as Hnew.
  { intros Hh. destruct (Hheld fd Hh) as [_ [x Hx]]. congruence. }
  assert (∀ k, held (<[i := fd]> fds) k ↔ k = fd ∨ held fds k) as Hchar.
  { intros k. unfold held. split.
    - intros [Hk [j Hj]]. rewrite slot_insert in Hj by done.
      destruct (decide (j = i)) as [->|]; [by left|]. right. eauto.
    - intros [->|[Hk [j Hj]]].
      + split; [done|]. exists i. rewrite slot_insert by done. by rewrite decide_True.
      + split; [done|]. exists j. rewrite slot_insert by done.
        rewrite decide_False; [done|]. intros ->. lia. }
  split; [|split].
  - intros k Hk. apply Hchar in Hk as [->|Hk].
    + split; [|by rewrite lookup_insert_eq]. rewrite <- (Hother fd Hnew). done.
    + destruct (Hheld k Hk) as [H0 Hk']. split; [done|].
      destruct (decide (k = fd)) as [->|Hne]; [by rewrite lookup_insert_eq|].
      by rewrite lookup_insert_ne.
  - intros k Hk. assert (k ≠ fd ∧ ¬ held fds k) as [Hne Hnh].
    { split; intros ?; apply Hk, Hchar; auto. }
    rewrite lookup_insert_ne by done. by apply Hother.
  - intros a b. rewrite !slot_insert by done.
    destruct (decide (a = i)) as [->|Ha], (decide (b = i)) as [->|Hb]; try done.
    + intros _ Heq. exfalso. apply Hnew. split; [done|]. by exists b.
    + intros Hpa Heq. exfalso. apply Hnew. split; [done|]. by exists a.
    + apply Hone.
Qed.

(** An empty slot receives -1. *)
Lemma owns_mark (tab0 tab : gmap Z string) (fds : list Z) (i : nat) :
  owns tab0 fds tab → slot fds i = 0 → (i < length fds)%nat →
  owns tab0 (<[i := -1]> fds) tab.
Proof.
  intros (Hheld & Hother & Hone) Hempty Hi.
  assert (∀ k, held (<[i := -1]> fds) k ↔ held fds k) as Hchar.
  { intros k. unfold held. split; intros [Hk [j Hj]]; (split; [done|]).
    - rewrite slot_insert in Hj by done.
      destruct (decide (j = i)) as [->|]; [lia|]. eauto.
    - exists j. rewrite slot_insert by done. rewrite decide_False; [done|].
      intros ->. lia. }
  split; [|split].
  - intros k Hk. by apply Hheld, Hchar.
  - intros k Hk. apply Hother. by rewrite <- Hchar.
  - intros a b. rewrite !slot_insert by done.
    destruct (decide (a = i)) as [->|Ha], (decide (b = i)) as [->|Hb]; try done; try lia.
    apply Hone.
Qed.

(** A held descriptor is closed and its slot cleared. *)
Lemma owns_close (tab0 tab : gmap Z string) (fds : list Z) (i : nat) :
  owns tab0 fds tab → 0 < slot fds i →
  owns tab0 (<[i := 0]> fds) (delete (slot fds i) tab).
Proof.
  intros (Hheld & Hother & Hone) Hpos.
  assert (i < length fds)%nat as Hi by (apply slot_positive_lt; lia).
  assert (held fds (slot fds i)) as Hh by (split; [done|]; eauto).
  assert (∀ k, held (<[i := 0]> fds) k ↔ k ≠ slot fds i ∧ held fds k) as Hchar.
  { intros k. unfold held. split.
    - intros [Hk [j Hj]]. rewrite slot_insert in Hj by done.
      destruct (decide (j = i)) as [->|Hne]; [lia|].
      split; [|eauto]. intros ->. apply Hne. symmetry. apply Hone; [done|]. by symmetry.
    - intros [Hne [Hk [j Hj]]]. split; [done|]. exists j.
      rewrite slot_insert by done. rewrite decide_False; [done|]. intros ->. done. }
  split; [|split].
  - intros k Hk. apply Hchar in Hk as [Hne Hk]. destruct (Hheld k Hk) as [H0 Hk'].
    split; [done|]. by rewrite lookup_delete_ne.
  - intros k Hk. destruct (decide (k = slot fds i)) as [->|Hne].
    + rewrite lookup_delete_eq. symmetry. by apply Hheld.
    + rewrite lookup_delete_ne by done. apply Hother. intros Hk'. apply Hk, Hchar. done.
  - intros a b. rewrite !slot_insert by done.
    destruct (decide (a = i)) as [->|Ha], (decide (b = i)) as [->|Hb]; try done; try lia.
    apply Hone.
Qed.

(** An array that holds nothing leaves the table as it was. *)
Lemma owns_nothing (tab0 tab : gmap Z string) (fds : list Z) :
  owns tab0 fds tab → (∀ i, slot fds i ≤ 0) → tab = tab0.
Proof.
  intros (_ & Hother & _) Hnone. apply map_eq. intros k. apply Hother.
  intros [Hpos [i Hi]]. specialize (Hnone i). lia.
Qed.

Lemma keeps_errno (s0 s : sys) (fds : list Z) (e : Z) :
  keeps s0 fds s → keeps s0 fds (with_errno e s).
Proof. by intros (? & ? & ? & ? & ?). Qed.

Lemma keeps_same_resources (s0 s s' : sys) (fds : list Z) :
  keeps s0 fds s → same_resources s s' → keeps s0 fds s'.
Proof.
  intros (Hin & Hown & Hh & Ht & Ho) (Hfd & Hh' & Ht' & Ho').
  unfold keeps, stdin_open. rewrite Hfd, Hh', Ht', Ho'. done.
Qed.

Section WalkKeeps.
Variable h : host.
Variable names : list (list ascii).
Variable s0 : sys.

Lemma walk_channel_keeps (bus_addr device : string) (c : Z) (w : walk) (s : sys) :
  (length names ≤ length (w_fds w))%nat →
  keeps s0 (w_fds w) s →
  let r := walk_channel h names bus_addr device c w s in
  keeps s0 (w_fds r.1.2) r.2 ∧ length (w_fds r.1.2) = length (w_fds w).
Proof.
  intros Hfit Hkeeps. cbn zeta.
  unfold walk_channel, ina3221x_try_read_rail_name. unfold_M.
  rewrite read_string_spec.
  apply (keeps_errno _ _ _ 0) in Hkeeps.
  destruct (file_bytes h _ 64) as [e|data].
  { cbn. split; [|done]. by apply keeps_errno. }
  assert (∃ name, (match data with
                   | [] => (0, w_name w, with_errno 0 s)
                   | _ :: _ => (0, strip_after_read data (w_name w) 64, with_errno 0 s)
                   end) = (0, name, with_errno 0 s)) as [name ->].
  { destruct data; eauto. }
  cbn [Z.ltb Z.compare].
  destruct (match_index name names) as [i|] eqn:Hmi; [|done].
  pose proof (match_index_lt _ _ _ Hmi) as Hi.
  destruct (slot (w_fds w) i =? 0) eqn:Hsl; cbn [negb].
  2: { cbn. split; [|done]. by apply keeps_errno. }
  apply Z.eqb_eq in Hsl.
  unfold ina3221x_open_power_file.
  pose proof (sys_open_spec h (INA3221X_FILE_TEMPLATE_POWER bus_addr device c)
                (with_errno 0 s)) as Hopen.
  destruct (open_error h (INA3221X_FILE_TEMPLATE_POWER bus_addr device c)) as [e|].
  - rewrite Hopen. cbn. rewrite length_insert. split; [|done].
    destruct Hkeeps as (Hin & Hown & Hrest). split; [done|]. split; [|done].
    apply owns_mark; [done|done|lia].
  - destruct Hopen as (fd & -> & Hfresh & Hge & Hpos).
    destruct Hkeeps as (Hin & Hown & Hh & Ht & Ho). specialize (Hpos Hin).
    destruct (fd <? 0) eqn:Hneg; [lia|].
    unfold ina3221x_try_read_polling_delay_us. unfold_M.
    match goal with |- context [read_long h ?f ?x] =>
      pose proof (read_long_resources h f x) as Hres;
      destruct (read_long h f x) as [v s2] end.
    cbn [fst snd w_fds] in *. rewrite length_insert. split; [|done].
    eapply keeps_same_resources; [|exact Hres].
    split; [|split; [|done]].
    + unfold stdin_open in *. cbn. by rewrite lookup_insert_ne by lia.
    + cbn. apply owns_open; [done|done|done|done|lia].
Qed.

Lemma walk_channels_keeps (bus_addr device : string) (chs : list Z) (w : walk) (s : sys) :
  (length names ≤ length (w_fds w))%nat →
  keeps s0 (w_fds w) s →
  let r := walk_channels h names bus_addr device chs w s in
  keeps s0 (w_fds r.1.2) r.2 ∧ length (w_fds r.1.2) = length (w_fds w).
Proof.
  revert w s. induction chs as [|c rest IH]; intros w s Hfit Hkeeps; [done|].
  cbn [walk_channels]. unfold_M.
  pose proof (walk_channel_keeps bus_addr device c w s Hfit Hkeeps) as Hstep.
  destruct (walk_channel h names bus_addr device c w s) as [[r1 w1] s1].
  cbn [fst snd] in Hstep. destruct Hstep as [Hk1 Hlen1].
  destruct (r1 <? 0); [done|].
  destruct (IH w1 s1 ltac:(lia) Hk1) as [Hk Hlen]. split; [done|lia].
Qed.

Lemma walk_device_dir_keeps (fds : list Z) (d : Z) (bus_addr device : string) (s : sys) :
  (length names ≤ length fds)%nat →
  keeps s0 fds s →
  let r := ina3221x_walk_device_dir h names fds d bus_addr device s in
  keeps s0 r.1.1.2 r.2 ∧ length r.1.1.2 = length fds.
Proof.
  intros Hfit Hkeeps. cbn zeta. unfold ina3221x_walk_device_dir. unfold_M.
  pose proof (walk_channels_keeps bus_addr device (seqZ 0 INA3221_CHANNELS_MAX)
                (mkWalk fds d (uninit h 64)) s Hfit Hkeeps) as Hw.
  by destruct (walk_channels h names bus_addr device _ _ s) as [[r w'] s'].
Qed.

Lemma walk_devices_keeps (bus_addr : string) (entries : list dirent) (fds : list Z) (d : Z)
    (s : sys) :
  (length names ≤ length fds)%nat →
  keeps s0 fds s →
  let r := walk_devices h names bus_addr entries fds d s in
  keeps s0 r.1.1.2 r.2 ∧ length r.1.1.2 = length fds.
Proof.
  revert fds d s. induction entries as [|entry rest IH]; intros fds d s Hfit Hkeeps; [done|].
  cbn [walk_devices]. destruct (is_iio_device_dir entry); [|by apply IH].
  unfold_M.
  pose proof (walk_device_dir_keeps fds d bus_addr (d_name entry) s Hfit Hkeeps) as Hone.
  destruct (ina3221x_walk_device_dir h names fds d bus_addr (d_name entry) s)
    as [[[ret fds1] d1] s1]. cbn [fst snd] in Hone. destruct Hone as [Hk1 Hlen1].
  destruct (ret <? 0); [done|].
  destruct (IH fds1 d1 s1 ltac:(lia) Hk1) as [Hk Hlen]. split; [done|lia].
Qed.

Lemma walk_bus_addr_dir_keeps (fds : list Z) (d : Z) (bus_addr : string) (s : sys) :
  (length names ≤ length fds)%nat →
  keeps s0 fds s →
  let r := ina3221x_walk_bus_addr_dir h names fds d bus_addr s in
  keeps s0 r.1.1.2 r.2 ∧ length r.1.1.2 = length fds.
Proof.
  intros Hfit Hkeeps. cbn zeta.
  unfold ina3221x_walk_bus_addr_dir, sys_opendir. unfold_M.
  destruct (h_dirs h !! _) as [[e|entries]|]; cbn;
    [by split; [apply keeps_errno|] | | by split; [apply keeps_errno|]].
  by apply walk_devices_keeps.
Qed.

Lemma walk_buses_keeps (entries : list dirent) (fds : list Z) (d : Z) (s : sys) :
  (length names ≤ length fds)%nat →
  keeps s0 fds s →
  let r := walk_buses h names entries fds d s in
  keeps s0 r.1.1.2 r.2 ∧ length r.1.1.2 = length fds.
Proof.
  revert fds d s. induction entries as [|entry rest IH]; intros fds d s Hfit Hkeeps; [done|].
  cbn [walk_buses]. destruct (is_i2c_bus_addr_dir entry); [|by apply IH].
  unfold_M.
  pose proof (walk_bus_addr_dir_keeps fds d (d_name entry) s Hfit Hkeeps) as Hone.
  destruct (ina3221x_walk_bus_addr_dir h names fds d (d_name entry) s)
    as [[[ret fds1] d1] s1]. cbn [fst snd] in Hone. destruct Hone as [Hk1 Hlen1].
  destruct (ret <? 0); [done|].
  destruct (IH fds1 d1 s1 ltac:(lia) Hk1) as [Hk Hlen]. split; [done|lia].
Qed.

(** The walk of the tree opens descriptors into the array and nowhere else. *)
Lemma walk_i2c_drivers_dir_keeps (fds : list Z) (d : Z) (s : sys) :
  (length names ≤ length fds)%nat →
  keeps s0 fds s →
  let r := ina3221x_walk_i2c_drivers_dir h names fds d s in
  keeps s0 r.1.1.2 r.2 ∧ length r.1.1.2 = length fds.
Proof.
  intros Hfit Hkeeps. cbn zeta.
  unfold ina3221x_walk_i2c_drivers_dir, sys_opendir. unfold_M.
  destruct (h_dirs h !! _) as [[e|entries]|]; cbn;
    [by split; [apply keeps_errno|] | | by split; [apply keeps_errno|]].
  by apply walk_buses_keeps.
Qed.
End WalkKeeps.

(** ** Descriptors given back *)

Lemma sys_close_held (s0 s : sys) (fds : list Z) (i : nat) :
  keeps s0 fds s → 0 < slot fds i →
  sys_close (slot fds i) s = (0, with_fdtab (delete (slot fds i) (fdtab s)) s)
  ∧ keeps s0 (<[i := 0]> fds) (with_fdtab (delete (slot fds i) (fdtab s)) s).
Proof.
  intros (Hin & Hown & Hrest) Hpos.
  assert (is_Some (fdtab s !! slot fds i)) as [p Hp].
  { apply Hown. split; [done|]. eauto. }
  split; [unfold sys_close; by rewrite Hp|].
  split; [|split; [|done]].
  - unfold stdin_open in *. cbn. by rewrite lookup_delete_ne by lia.
  - cbn. by apply owns_close.
Qed.

Lemma close_and_clear_from_keeps (s0 : sys) (n i : nat) (fds : list Z) (s : sys) :
  keeps s0 fds s →
  let r := close_and_clear_from fds i n s in
  keeps s0 r.1 r.2
  ∧ (∀ j, (i ≤ j < i + n)%nat → slot r.1 j ≤ 0)
  ∧ (∀ j, (j < i)%nat → slot r.1 j = slot fds j)
  ∧ (∀ j, (i + n ≤ j)%nat → slot r.1 j = slot fds j).
Proof.
  revert i fds s. induction n as [|k IH]; intros i fds s Hkeeps.
  { cbn. split; [done|]. split; [lia|]. done. }
  cbn [close_and_clear_from]. destruct (0 <? slot fds i) eqn:Hpos.
  - apply Z.ltb_lt in Hpos. unfold_M.
    destruct (sys_close_held s0 s fds i Hkeeps Hpos) as [-> Hk1].
    assert (i < length fds)%nat as Hi by (apply slot_positive_lt; lia).
    destruct (IH (S i) _ _ Hk1) as (Hk & Hin & Hlo & Hhi).
    split; [done|]. split; [|split].
    + intros j Hj. destruct (decide (j = i)) as [->|Hne]; [|apply Hin; lia].
      rewrite Hlo by lia. rewrite slot_insert by done. by rewrite decide_True.
    + intros j Hj. rewrite Hlo by lia. rewrite slot_insert by done.
      rewrite decide_False by lia. done.
    + intros j Hj. rewrite Hhi by lia. rewrite slot_insert by done.
      rewrite decide_False by lia. done.
  - apply Z.ltb_ge in Hpos.
    destruct (IH (S i) fds s Hkeeps) as (Hk & Hin & Hlo & Hhi).
    split; [done|]. split; [|split].
    + intros j Hj. destruct (decide (j = i)) as [->|Hne]; [|apply Hin; lia].
      by rewrite Hlo by lia.
    + intros j Hj. apply Hlo. lia.
    + intros j Hj. apply Hhi. lia.
Qed.

(** [close_and_clear_fds] over the whole array gives every descriptor of the
    array back. *)
Lemma close_and_clear_fds_all (s0 : sys) (fds : list Z) (n : nat) (s : sys) :
  keeps s0 fds s → (length fds ≤ n)%nat →
  let s' := (close_and_clear_fds fds n s).2 in
  fdtab s' = fdtab s0 ∧ heap s' = heap s0 ∧ threads s' = threads s0
  ∧ oom s' = oom s0 ∧ errno s' = errno s.
Proof.
  intros Hkeeps Hn. cbn zeta. unfold close_and_clear_fds. unfold_M.
  pose proof (close_and_clear_from_keeps s0 n 0 fds s Hkeeps) as Hc.
  destruct (close_and_clear_from fds 0 n s) as [fds' s1]. cbn [fst snd] in *.
  destruct Hc as ((Hin & Hown & Hh & Ht & Ho) & Hclear & _ & Hhi).
  split; [|done].
  apply (owns_nothing _ _ fds' Hown). intros j.
  destruct (decide (j < n)%nat) as [Hj|Hj]; [apply Hclear; lia|].
  rewrite Hhi by lia. unfold slot. rewrite lookup_ge_None_2 by lia. done.
Qed.

Lemma owns_tail (tab0 tab : gmap Z string) (fd : Z) (rest : list Z) :
  owns tab0 (fd :: rest) tab →
  owns tab0 rest (if 0 <? fd then delete fd tab else tab).
Proof.
  intros Hown. destruct (0 <? fd) eqn:Hpos.
  - apply Z.ltb_lt in Hpos.
    pose proof (owns_close tab0 tab (fd :: rest) 0 Hown Hpos) as (Hheld & Hother & Hone).
    change (slot (fd :: rest) 0) with fd in *. cbn [insert list_insert] in *.
    assert (∀ k, held rest k ↔ held (0 :: rest) k) as Hchar.
    { intros k. unfold held. split; intros [Hk [j Hj]]; (split; [done|]).
      - by exists (S j).
      - destruct j as [|j]; [cbn in Hj; lia|]. by exists j. }
    split; [|split].
    + intros k Hk. by apply Hheld, Hchar.
    + intros k Hk. apply Hother. by rewrite <- Hchar.
    + intros a b Ha Hab. specialize (Hone (S a) (S b) Ha Hab). lia.
  - apply Z.ltb_ge in Hpos. destruct Hown as (Hheld & Hother & Hone).
    assert (∀ k, held rest k ↔ held (fd :: rest) k) as Hchar.
    { intros k. unfold held. split; intros [Hk [j Hj]]; (split; [done|]).
      - by exists (S j).
      - destruct j as [|j]; [cbn in Hj; lia|]. by exists j. }
    split; [|split].
    + intros k Hk. by apply Hheld, Hchar.
    + intros k Hk. apply Hother. by rewrite <- Hchar.
    + intros a b Ha Hab. specialize (Hone (S a) (S b) Ha Hab). lia.
Qed.

(** The closing loop of [energymon_finish_jetson] over the whole array
    gives every descriptor back, and no [close] fails. *)
Lemma finish_close_all (tab0 : gmap Z string) (l : list Z) (err_save : Z) (s : sys) :
  owns tab0 l (fdtab s) →
  let r := finish_close l err_save s in
  r.1 = err_save ∧ fdtab r.2 = tab0 ∧ heap r.2 = heap s ∧ threads r.2 = threads s.
Proof.
  revert s. induction l as [|fd rest IH]; intros s Hown.
  { cbn. split; [done|]. split; [|done]. apply (owns_nothing _ _ [] Hown). by intros []. }
  pose proof (owns_tail _ _ _ _ Hown) as Htail.
  cbn [finish_close]. destruct (0 <? fd) eqn:Hpos; [|by apply IH].
  apply Z.ltb_lt in Hpos. unfold_M.
  assert (is_Some (fdtab s !! fd)) as [p Hp].
  { apply Hown. split; [done|]. by exists O. }
  unfold sys_close. rewrite Hp. cbn.
  specialize (IH (with_fdtab (delete fd (fdtab s)) s) Htail). apply IH.
Qed.

(** ** Rail names from the environment *)

Lemma has_duplicate_iff (names : list (list ascii)) :
  has_duplicate names = true ↔ duplicate_names names.
Proof.
  unfold duplicate_names. induction names as [|n r IH]; cbn [has_duplicate].
  { split; [done|]. intros (i & j & a & b & _ & Hi & _). by destruct i. }
  rewrite orb_true_iff, IH, existsb_exists. split.
  - intros [(b & Hin & Heq)|(i & j & a & b & Hlt & Hi & Hj & Heq)].
    + apply list_elem_of_In, list_elem_of_lookup in Hin as [j Hj].
      exists O, (S j), n, b. unfold strcmp_eq in Heq. apply bool_decide_eq_true in Heq.
      split_and!; try done; lia.
    + exists (S i), (S j), a, b. split_and!; try done; lia.
  - intros (i & j & a & b & Hlt & Hi & Hj & Heq).
    destruct j as [|j]; [lia|]. cbn in Hj. destruct i as [|i]; cbn in Hi.
    + injection Hi as ->. left. exists b. split.
      * apply list_elem_of_In, list_elem_of_lookup. eauto.
      * unfold strcmp_eq. by apply bool_decide_eq_true.
    + right. exists i, j, a, b. split_and!; try done; lia.
Qed.

Lemma strtok_fail_none (arr : option (list (list ascii))) (s : sys) :
  (strtok_fail arr s).1 = None.
Proof. unfold strtok_fail. unfold_M. by destruct arr. Qed.

(** [strtok_to_arr_r] returns NULL or all the tokens. *)
Lemma strtok_fill_result (toks : list (list ascii)) (arr : option (list (list ascii)))
    (s : sys) :
  (strtok_fill toks arr s).1 = None
  ∨ (strtok_fill toks arr s).1 =
      (if toks is [] then arr else Some (default [] arr ++ toks)).
Proof.
  revert arr s. induction toks as [|tok rest IH]; intros arr s; [by right|].
  cbn [strtok_fill]. unfold_M.
  destruct (alloc_request s) as [[] s1]; cbn [negb].
  2: { left. apply strtok_fail_none. }
  destruct arr as [a|]; unfold heap_new; cbn beta iota;
    (destruct (alloc_request _) as [[] s3]; cbn [negb];
     [|left; apply strtok_fail_none]);
    match goal with |- context [strtok_fill rest ?a' ?s'] =>
      destruct (IH a' s') as [-> | ->]; [by left|] end;
    right; cbn [default]; (destruct rest; [done|]);
    unfold id; by rewrite <- ?app_assoc.
Qed.

(** The names [get_rail_names] returns are the tokens of the string, without
    duplicates. *)
Lemma get_rail_names_result (str : list ascii) (s : sys) (names : list (list ascii)) :
  (get_rail_names str s).1 = Some names →
  names = strtok_all "," str [] ∧ has_duplicate names = false.
Proof.
  unfold get_rail_names, strtok_to_arr_r. unfold_M.
  destruct (alloc_request s) as [[] s1]; cbn [negb]; [|done].
  destruct (heap_new s1) as [[] s2].
  pose proof (strtok_fill_result (strtok_all "," str []) None s2) as Hfill.
  destruct (strtok_fill (strtok_all "," str []) None s2) as [arr s3]. cbn [fst] in Hfill.
  destruct (heap_free 1 s3) as [[] s4].
  destruct arr as [arr|].
  2: { by destruct (errno s4 =? 0). }
  destruct (has_duplicate arr) eqn:Hdup; cbn; [done|].
  intros [= <-]. split; [|done].
  destruct Hfill as [|Hfill]; [done|].
  destruct (strtok_all "," str []); [done|]. by injection Hfill.
Qed.

(** Without allocation failures. *)
Lemma strtok_fill_plentiful (toks : list (list ascii)) (arr : option (list (list ascii)))
    (e : Z) (t : gmap Z string) (hp th : Z) :
  strtok_fill toks arr (mkSys e t hp th []) =
    (if toks is [] then arr else Some (default [] arr ++ toks),
     mkSys e t
       (hp + Z.of_nat (length toks)
        + (if toks is [] then 0 else if arr is Some _ then 0 else 1)) th []).
Proof.
  revert arr hp. induction toks as [|tok rest IH]; intros arr hp.
  { cbn. do 2 f_equal. lia. }
  cbn [strtok_fill]. unfold_M. unfold alloc_request, heap_new, with_heap.
  destruct arr as [a|]; cbn.
  - rewrite IH. f_equal.
    + destruct rest; [done|]. cbn. by rewrite <- app_assoc.
    + f_equal. cbn [length]. destruct rest; lia.
  - rewrite IH. f_equal.
    + by destruct rest.
    + f_equal. cbn [length]. destruct rest; lia.
Qed.

Lemma get_rail_names_plentiful (str : list ascii) (e : Z) (t : gmap Z string) (hp th : Z) :
  let names := strtok_all "," str [] in
  get_rail_names str (mkSys e t hp th []) =
    match names with
    | [] => (None, mkSys (if e =? 0 then EINVAL else e) t hp th [])
    | _ =>
        if has_duplicate names then (None, mkSys EINVAL t hp th [])
        else (Some names, mkSys e t (hp + Z.of_nat (length names) + 1) th [])
    end.
Proof.
  cbn zeta. unfold get_rail_names, strtok_to_arr_r. unfold_M.
  unfold alloc_request, heap_new, with_heap. cbn.
  rewrite strtok_fill_plentiful.
  destruct (strtok_all "," str []) as [|tok rest] eqn:Htoks.
  - cbn. destruct (e =? 0); unfold with_errno, with_heap; cbn;
      f_equal; f_equal; lia.
  - unfold heap_free, free_rail_names, heap_free, with_errno, with_heap. cbn.
    destruct (existsb (strcmp_eq tok) rest || has_duplicate rest);
      unfold with_errno, with_heap; cbn; f_equal; f_equal; lia.
Qed.

Lemma get_rail_names_plentiful_nonempty (str : list ascii) (e : Z) (t : gmap Z string)
    (hp th : Z) :
  let names := strtok_all "," str [] in
  names ≠ [] →
  get_rail_names str (mkSys e t hp th []) =
    if has_duplicate names then (None, mkSys EINVAL t hp th [])
    else (Some names, mkSys e t (hp + Z.of_nat (length names) + 1) th []).
Proof.
  cbn zeta. intros Hne. rewrite get_rail_names_plentiful.
  by destruct (strtok_all "," str []).
Qed.

(** ** Initialisation with an explicit list *)

Lemma some_missing_false (fds : list Z) (n : nat) :
  some_missing fds n = false → ∀ j, (j < n)%nat → 0 < slot fds j.
Proof.
  intros Hnone j Hj. destruct (Z.ltb_spec 0 (slot fds j)) as [|Hle]; [done|].
  exfalso. assert (some_missing fds n = true) as Hsome; [|congruence].
  apply existsb_exists. exists j. split; [apply in_seq; lia | by apply Z.leb_le].
Qed.

Lemma some_missing_true (fds : list Z) (n j : nat) :
  (j < n)%nat → slot fds j ≤ 0 → some_missing fds n = true.
Proof.
  intros Hj Hle. apply existsb_exists. exists j.
  split; [apply in_seq; lia | by apply Z.leb_le].
Qed.

Lemma close_and_clear_fds_errno (fds : list Z) (n : nat) (s : sys) :
  errno (close_and_clear_fds fds n s).2 = errno s.
Proof.
  unfold close_and_clear_fds. unfold_M.
  by destruct (close_and_clear_from fds 0 n s) as [fds' s1].
Qed.

Lemma fail_rails_errno (fds : list Z) (n : nat) (rail_names : option (list (list ascii)))
    (s : sys) :
  errno (fail_rails fds n rail_names s).2 = errno s.
Proof.
  unfold fail_rails. unfold_M.
  pose proof (close_and_clear_fds_errno fds n s) as Hc.
  destruct (close_and_clear_fds fds n s) as [fds' s1]. cbn [snd] in Hc.
  by destruct rail_names.
Qed.

(** When the first stage succeeds on an explicit list, every name of the
    list has a descriptor, and the walk came by a channel that hits it. *)
Lemma init_rails_explicit (h : host) (s s' : sys) (str : list ascii)
    (st : energymon_jetson) (d : Z) :
  getenv h ENERGYMON_JETSON_RAIL_NAMES = Some str →
  init_rails h s = (Some (st, d), s') →
  let names := strtok_all "," str [] in
  has_duplicate names = false
  ∧ count st = length names
  ∧ ∀ i, (i < length names)%nat → 0 < slot (fds st) i ∧ rail_found h names i.
Proof.
  intros Henv. unfold init_rails. rewrite Henv. unfold_M.
  destruct (get_rail_names str s) as [[names|] s1] eqn:Hg; [|done].
  apply (f_equal fst) in Hg. apply get_rail_names_result in Hg as [-> Hnodup].
  destruct (alloc_request s1) as [[] s2]; cbn [negb].
  2: { by destruct (fail_alloc _ s2) as [[] s3]. }
  destruct (heap_new s2) as [[] s3].
  pose proof (walk_i2c_drivers_dir_slots h (strtok_all "," str [])
                (replicate (length (strtok_all "," str [])) 0) 0 s3) as Hslots.
  rewrite length_replicate in Hslots. specialize (Hslots ltac:(lia)).
  destruct (ina3221x_walk_i2c_drivers_dir h _ _ 0 s3) as [[[r fds1] d1] s4].
  cbn [fst snd] in Hslots. destruct Hslots as [Hlen Hslots].
  destruct (negb (r =? 0)).
  { by destruct (fail_rails _ _ _ s4) as [[] s5]. }
  destruct (some_missing fds1 _) eqn:Hmiss.
  { cbn. by destruct (fail_rails _ _ _ _) as [[] s5]. }
  destruct (free_rail_names _ s4) as [[] s5]. intros [= <- <- <-]. cbn.
  split; [done|]. split; [done|]. intros i Hi.
  pose proof (some_missing_false _ _ Hmiss i Hi) as Hpos. split; [done|].
  destruct (Hslots i ltac:(lia)) as [Hz|]; [|done].
  by rewrite slot_replicate in Hz.
Qed.

(** [energymon_init_jetson] returns 0 or -1. *)
Lemma init_returns_0_or_minus_1 (h : host) (em : option energymon) (s : sys) :
  (energymon_init_jetson h em s).1.1 = -1 ∨ (energymon_init_jetson h em s).1.1 = 0.
Proof.
  unfold energymon_init_jetson. unfold_M.
  destruct em as [[[st0|]]|]; cbn; auto.
  destruct (init_rails h s) as [[[st d]|] s1]; cbn; auto.
  pose proof (init_start_outcome h st d s1) as Hout. cbn in Hout.
  destruct Hout as [[? _]|[? _]]; auto.
Qed.

(** A successful initialisation keeps the rails of the first stage. *)
Lemma init_success (h : host) (s : sys) :
  (energymon_init_jetson h (Some (mkEm None)) s).1.1 = 0 →
  ∃ st d s1 st',
    init_rails h s = (Some (st, d), s1)
    ∧ (energymon_init_jetson h (Some (mkEm None)) s).1.2 = Some (mkEm (Some st'))
    ∧ count st' = count st ∧ fds st' = fds st.
Proof.
  unfold energymon_init_jetson. unfold_M.
  destruct (init_rails h s) as [[[st d]|] s1]; cbn; [|lia].
  pose proof (init_start_outcome h st d s1) as Hout. cbn in Hout.
  intros Hr. destruct Hout as [[? _]|(_ & _ & st' & Hem & _ & Hc & Hf)]; [lia|].
  by exists st, d, s1, st'.
Qed.



(** ** Failures of an initialisation with an explicit list *)

Lemma alloc_request_frame (s : sys) :
  same_footprint s (alloc_request s).2.
Proof. unfold alloc_request. by destruct (oom s) as [|[] o]. Qed.

Lemma strtok_fill_frame (toks : list (list ascii)) (arr : option (list (list ascii)))
    (s : sys) :
  let r := strtok_fill toks arr s in
  fdtab r.2 = fdtab s ∧ threads r.2 = threads s
  ∧ heap r.2 = heap s
               + (if r.1 is Some names then Z.of_nat (length names) + 1 else 0)
               - (if arr is Some a then Z.of_nat (length a) + 1 else 0).
Proof.
  revert arr s. induction toks as [|tok rest IH]; intros arr s.
  { cbn. destruct arr; split_and!; try done; lia. }
  cbn [strtok_fill]. unfold_M.
  pose proof (alloc_request_frame s) as (Hf1 & Hh1 & Ht1).
  destruct (alloc_request s) as [[] s1]; cbn [negb fst snd] in *.
  2: { unfold strtok_fail, heap_free. unfold_M. destruct arr; cbn;
       rewrite ?Hf1, ?Hh1, ?Ht1; split_and!; try done; lia. }
  destruct arr as [a|]; unfold heap_new; cbn beta iota.
  - pose proof (alloc_request_frame s1) as (Hf2 & Hh2 & Ht2).
    destruct (alloc_request s1) as [[] s2]; cbn [negb fst snd] in *.
    2: { unfold strtok_fail, heap_free. unfold_M. cbn.
         rewrite ?Hf2, ?Hh2, ?Ht2, ?Hf1, ?Hh1, ?Ht1. split_and!; try done; lia. }
    match goal with |- context [strtok_fill rest ?a' ?s'] =>
      destruct (IH a' s') as (Hf & Ht & Hh); destruct (strtok_fill rest a' s') as [res s3]
    end.
    cbn [fst snd fdtab heap threads with_heap default] in *.
    rewrite Hf, Ht, Hh, Hf2, Hh2, Ht2, Hf1, Hh1, Ht1. unfold id.
    rewrite length_app. cbn [length]. split_and!; try done; lia.
  - pose proof (alloc_request_frame (with_heap (heap s1 + 1) s1)) as (Hf2 & Hh2 & Ht2).
    destruct (alloc_request (with_heap (heap s1 + 1) s1)) as [[] s2];
      cbn [negb fst snd] in *.
    2: { unfold strtok_fail, heap_free. unfold_M. cbn in *.
         rewrite ?Hf2, ?Hh2, ?Ht2, ?Hf1, ?Hh1, ?Ht1. split_and!; try done; lia. }
    match goal with |- context [strtok_fill rest ?a' ?s'] =>
      destruct (IH a' s') as (Hf & Ht & Hh); destruct (strtok_fill rest a' s') as [res s3]
    end.
    cbn [fst snd fdtab heap threads with_heap default] in *.
    rewrite Hf, Ht, Hh, Hf2, Hh2, Ht2, Hf1, Hh1, Ht1. unfold id.
    cbn [length app]. split_and!; try done; lia.
Qed.

(** [get_rail_names] leaves the names allocated, or nothing. *)
Lemma get_rail_names_frame (str : list ascii) (s : sys) :
  let r := get_rail_names str s in
  fdtab r.2 = fdtab s ∧ threads r.2 = threads s
  ∧ heap r.2 = heap s + (if r.1 is Some names then Z.of_nat (length names) + 1 else 0).
Proof.
  cbn zeta. unfold get_rail_names, strtok_to_arr_r. unfold_M.
  pose proof (alloc_request_frame s) as (Hf1 & Hh1 & Ht1).
  destruct (alloc_request s) as [[] s1]; cbn [negb fst snd] in *.
  2: { rewrite Hf1, Hh1, Ht1. split_and!; try done; lia. }
  unfold heap_new. cbn beta iota.
  match goal with |- context [strtok_fill ?t None ?s'] =>
    pose proof (strtok_fill_frame t None s') as (Hf & Ht & Hh);
    destruct (strtok_fill t None s') as [res s2]
  end.
  cbn [fst snd fdtab heap threads with_heap] in *. unfold heap_free. cbn beta iota.
  destruct res as [names|].
  - destruct (has_duplicate names); unfold free_rail_names, heap_free; cbn;
      rewrite ?Hf, ?Ht, ?Hh, ?Hf1, ?Hh1, ?Ht1; split_and!; try done; lia.
  - destruct (errno _ =? 0); cbn; rewrite ?Hf, ?Ht, ?Hh, ?Hf1, ?Hh1, ?Ht1;
      split_and!; try done; lia.
Qed.

Lemma polling_delay_resources (h : host) (d : Z) (s : sys) :
  same_resources s (get_polling_delay_us h d s).2.
Proof.
  unfold get_polling_delay_us, polling_delay_before_bound. unfold_M.
  destruct (getenv h ENERGYMON_JETSON_INTERVAL_US) as [v|]; [|done].
  destruct (strtoul v) as [us [e|]]; cbn; [by destruct (e =? 0)|done].
Qed.

(** [energymon_finish_jetson] on a monitor that uses its whole array: the
    descriptors of the array are given back, the state is freed, the thread
    joined if there is one, and the handle is cleared. *)
Lemma finish_releases (tab0 : gmap Z string) (st : energymon_jetson) (s : sys) :
  owns tab0 (fds st) (fdtab s) →
  count st = length (fds st) →
  let r := energymon_finish_jetson (Some (mkEm (Some st))) s in
  r.1.2 = Some (mkEm None)
  ∧ fdtab r.2 = tab0
  ∧ heap r.2 = heap s - 1
  ∧ threads r.2 = (if negb (poll_sensors st =? 0) && thread st
                   then threads s - 1 else threads s).
Proof.
  intros Hown Hcount. cbn zeta. unfold energymon_finish_jetson. unfold_M.
  rewrite Hcount, firstn_all.
  assert (∃ e s1, (if negb (poll_sensors st =? 0) then sys_pthread_join (thread st)
                   else λ s : sys, (0, s)) s = (e, s1)
                  ∧ fdtab s1 = fdtab s ∧ heap s1 = heap s
                  ∧ threads s1 = (if negb (poll_sensors st =? 0) && thread st
                                  then threads s - 1 else threads s))
    as (e & s1 & -> & Hf & Hh & Ht).
  { destruct (negb (poll_sensors st =? 0)); [|by eexists _, _].
    unfold sys_pthread_join. destruct (thread st); by eexists _, _. }
  rewrite <- Hf in Hown.
  pose proof (finish_close_all tab0 (fds st) e s1 Hown) as Hc.
  destruct (finish_close (fds st) e s1) as [e' s2]. cbn [fst snd] in Hc.
  destruct Hc as (-> & Hf2 & Hh2 & Ht2). cbn.
  rewrite Hh2, Ht2, Hh, Ht. done.
Qed.

(** When the second stage fails, the descriptors of the array and the state
    are given back and the handle is cleared. *)
Lemma init_start_failure (h : host) (tab0 : gmap Z string) (st : energymon_jetson) (d : Z)
    (s : sys) :
  owns tab0 (fds st) (fdtab s) →
  count st = length (fds st) →
  thread st = false →
  let r := init_start h st d s in
  r.1.1 = -1 →
  r.1.2 = Some (mkEm None)
  ∧ fdtab r.2 = tab0 ∧ heap r.2 = heap s - 1 ∧ threads r.2 = threads s.
Proof.
  intros Hown Hcount Hthread. cbn zeta. unfold init_start. unfold_M.
  pose proof (polling_delay_resources h d s) as (Hf1 & Hh1 & Ht1 & _).
  destruct (get_polling_delay_us h d s) as [us s1]. cbn [fst snd] in *.
  rewrite <- Hf1 in Hown.
  destruct (us =? 0).
  - match goal with |- context [energymon_finish_jetson (Some (mkEm (Some ?st'))) ?x] =>
      pose proof (finish_releases tab0 st' x Hown Hcount) as Hfin;
      destruct (energymon_finish_jetson (Some (mkEm (Some st'))) x) as [[r' em'] s2]
    end.
    cbn [fst snd thread poll_sensors] in *. rewrite Hthread, andb_false_r in Hfin.
    destruct Hfin as (-> & Hf2 & Hh2 & Ht2). intros _. cbn.
    rewrite Hh2, Ht2, Hh1, Ht1. done.
  - unfold sys_pthread_create. destruct (h_pthread_create h =? 0) eqn:Hpc.
    { cbn. lia. }
    cbn [fst snd]. rewrite Hpc. cbn [negb errno with_errno].
    match goal with |- context [energymon_finish_jetson (Some (mkEm (Some ?st'))) ?x] =>
      pose proof (finish_releases tab0 st' x Hown Hcount) as Hfin;
      destruct (energymon_finish_jetson (Some (mkEm (Some st'))) x) as [[r' em'] s2]
    end.
    cbn [fst snd thread poll_sensors] in *. rewrite Hthread, andb_false_r in Hfin.
    destruct Hfin as (-> & Hf2 & Hh2 & Ht2). intros _. cbn.
    rewrite Hh2, Ht2. cbn. rewrite Hh1, Ht1. done.
Qed.

(** With an explicit list of rail names, and descriptor 0 in use, a failed
    initialisation gives back all it acquired: the descriptors, the heap
    blocks and the threads of the process are those it had before the call,
    and the handle has no state.  This is the part of C5 that the code keeps;
    the default search is where it breaks it. *)
Lemma init_explicit_is_transactional (h : host) (s : sys) (str : list ascii) :
  getenv h ENERGYMON_JETSON_RAIL_NAMES = Some str →
  stdin_open s →
  let r := energymon_init_jetson h (Some (mkEm None)) s in
  r.1.1 = -1 →
  r.1.2 = Some (mkEm None) ∧ same_footprint s r.2.
Proof.
  intros Henv Hin. cbn zeta. unfold energymon_init_jetson, init_rails, same_footprint.
  rewrite Henv. unfold_M.
  pose proof (get_rail_names_frame str s) as (Hf1 & Ht1 & Hh1).
  destruct (get_rail_names str s) as [[names|] s1]; cbn [fst snd] in *.
  2: { intros _. cbn. rewrite Hf1, Ht1, Hh1. split_and!; try done; lia. }
  pose proof (alloc_request_frame s1) as (Hf2 & Hh2 & Ht2).
  destruct (alloc_request s1) as [[] s2]; cbn [negb fst snd] in *.
  2: { intros _. unfold free_rail_names, heap_free. cbn.
       rewrite Hf2, Ht2, Hh2, Hf1, Ht1, Hh1. split_and!; try done; lia. }
  unfold heap_new. cbn beta iota.
  set (s3 := with_heap (heap s2 + 1) s2).
  assert (keeps s3 (replicate (length names) 0) s3) as Hkeeps.
  { split; [|split; [apply owns_start|done]].
    unfold stdin_open, s3 in *. cbn. by rewrite Hf2, Hf1. }
  pose proof (walk_i2c_drivers_dir_keeps h names s3 (replicate (length names) 0) 0 s3) as Hw.
  rewrite length_replicate in Hw. specialize (Hw ltac:(lia) Hkeeps).
  destruct (ina3221x_walk_i2c_drivers_dir h names (replicate (length names) 0) 0 s3)
    as [[[r fds1] d1] s4]. cbn [fst snd] in Hw. destruct Hw as [Hk4 Hlen4].
  assert (∀ e, let s5 := (fail_rails fds1 (length names) (Some names) (with_errno e s4)).2 in
               fdtab s5 = fdtab s ∧ heap s5 = heap s ∧ threads s5 = threads s) as Hfail.
  { intros e. cbn zeta. unfold fail_rails, fail_alloc, free_rail_names, heap_free. unfold_M.
    pose proof (close_and_clear_fds_all s3 fds1 (length names) (with_errno e s4)
                  (keeps_errno _ _ _ e Hk4) ltac:(lia)) as Hc.
    destruct (close_and_clear_fds fds1 (length names) (with_errno e s4)) as [fds' s5].
    cbn [fst snd] in *. destruct Hc as (Hf5 & Hh5 & Ht5 & _).
    cbn [fdtab heap threads with_heap]. rewrite Hf5, Hh5, Ht5. unfold s3. cbn. rewrite Hf2, Hh2, Ht2, Hf1, Hh1, Ht1.
    split_and!; try done; lia. }
  destruct (negb (r =? 0)).
  { intros _. specialize (Hfail (errno s4)). rewrite with_errno_id in Hfail.
    destruct (fail_rails fds1 (length names) (Some names) s4) as [[] s5]. by cbn in *. }
  destruct (some_missing fds1 (length names)).
  { intros _. specialize (Hfail ENODEV). cbn.
    destruct (fail_rails fds1 (length names) (Some names) (with_errno ENODEV s4))
      as [[] s5]. by cbn in *. }
  unfold free_rail_names, heap_free. cbn beta iota.
  destruct Hk4 as (_ & Hown4 & Hh4 & Ht4 & _).
  match goal with |- context [init_start h ?st ?d ?x] =>
    pose proof (init_start_failure h (fdtab s3) st d x Hown4 (eq_sym Hlen4) eq_refl) as Hst;
    destruct (init_start h st d x) as [[r' em'] s6]
  end.
  cbn [fst snd heap threads fdtab with_heap] in *. intros Hr.
  destruct (Hst Hr) as (-> & Hf6 & Hh6 & Ht6). split; [done|].
  rewrite Hf6, Hh6, Ht6, Hh4, Ht4. unfold s3. cbn.
  rewrite Hf2, Hh2, Ht2, Hf1, Hh1, Ht1. split_and!; try done; lia.
Qed.

(** ** The default search on boards it gets wrong *)

(** C1 fails on a board that has VDD_IN and no VDD_MUX.  The first profile,
    {VDD_IN, VDD_MUX}, matches in part; its descriptor is closed, and the
    search returns 0 at once with the count of that profile and no
    descriptor, where the second profile, {VDD_IN}, would match in full (the
    walk for it alone puts descriptor 3 in its slot).  Initialisation
    succeeds on a monitor of two rails that read descriptor 0. *)
Theorem default_search_stops_at_partial_profile :
  let r := ina3221x_walk_i2c_drivers_dir_for_default host_vdd_in (replicate 6 0) 6 0
             fresh_process in
  let second := leading_names 6 DEFAULT_RAIL_NAMES_VDD_IN in
  let init := energymon_init_jetson host_vdd_in (Some (mkEm None)) fresh_process in
  r.1 = (0, [0; 0; 0; 0; 0; 0], 2%nat, 0)
  ∧ fdtab r.2 = fdtab fresh_process
  ∧ (ina3221x_walk_i2c_drivers_dir host_vdd_in second [0] 0 fresh_process).1
    = (0, [3], 0)
  ∧ init.1 = (0, Some (mkEm (Some (mkState 100000 true 1 0 2 [0; 0; 0; 0; 0; 0])))).
Proof. vm_compute. repeat split; reflexivity. Qed.

(** C5 fails on a board with VDD_MUX and POM_5V_IN, no VDD_IN, when the
    interval override is out of range.  The first profile finds VDD_MUX in
    slot 1 and is passed over without a cleanup, its first slot being empty;
    the third profile, of one rail, is accepted; [get_polling_delay_us] then
    returns 0 and [energymon_finish_jetson] closes slot 0 only.  The call
    returns -1 with the handle cleared and ERANGE in [errno], and the
    descriptor of the power file of VDD_MUX stays open. *)
Theorem failed_init_leaves_descriptor_open :
  let r := energymon_init_jetson host_mux_pom (Some (mkEm None)) fresh_process in
  r.1 = (-1, Some (mkEm None))
  ∧ errno r.2 = ERANGE
  ∧ fdtab fresh_process !! 3 = None
  ∧ fdtab r.2 !! 3 = Some (INA3221X_FILE_TEMPLATE_POWER "1-0040" "iio:device0" 0)
  ∧ heap r.2 = heap fresh_process
  ∧ threads r.2 = threads fresh_process.
Proof. vm_compute. repeat split; reflexivity. Qed.

(** * Further properties of the backend *)

(** ** Reading attributes *)

(** X1: [read_string] either returns 0 and leaves the process as it was,
    [errno] included, or returns -1 with the caller's buffer untouched and
    the error of [open] or [read] in [errno]; in both cases the descriptor
    it opened is closed again. *)
Theorem read_string_returns_descriptor (h : host) (file : string) (str : list ascii)
    (s : sys) :
  let r := read_string h file str 64 s in
  same_resources s r.2
  ∧ ((r.1.1 = 0 ∧ r.2 = s)
     ∨ (r.1 = (-1, str) ∧ ∃ e, file_bytes h file 64 = inl e ∧ r.2 = with_errno e s)).
Proof.
  cbn zeta. rewrite read_string_spec.
  destruct (file_bytes h file 64) as [e|[|c data]] eqn:Hb; cbn [fst snd].
  - split; [done|]. right. split; [done|]. by exists e.
  - split; [done|]. by left.
  - split; [done|]. by left.
Qed.

(** X2: when the file holds a line of less than 64 characters, [read_string]
    returns 0 and the buffer holds the line without its newline, whatever
    the buffer held before; when the file is empty it also returns 0, and the
    buffer keeps what it held. *)
Theorem read_string_strips_newline (h : host) (file : string) (str : list ascii)
    (s : sys) :
  (∀ n rest,
     file_bytes h file 64 = inr (n ++ LF :: rest) →
     Forall (λ c, c ≠ NUL ∧ c ≠ LF) n →
     (length n < 64)%nat →
     ∃ str', read_string h file str 64 s = ((0, str'), s) ∧ c_str str' = n)
  ∧ (file_bytes h file 64 = inr [] → read_string h file str 64 s = ((0, str), s)).
Proof.
  split.
  - intros n rest Hb Hn Hlen. rewrite read_string_spec, Hb.
    destruct (n ++ LF :: rest) as [|a data] eqn:Hdata; [by destruct n|].
    rewrite <- Hdata. eexists. split; [done|]. by apply strip_after_read_line.
  - intros Hb. by rewrite read_string_spec, Hb.
Qed.

(** X2 on the name file of the first channel of a board with the rail
    VDD_IN, read into a buffer that holds another name. *)
Lemma read_string_strips_newline_witness :
  ∃ str',
    read_string host_vdd_in (INA3221X_FILE_TEMPLATE_RAIL_NAME "1-0040" "iio:device0" 0)
      (chars "POM_5V_GPU") 64 fresh_process = ((0, str'), fresh_process)
    ∧ c_str str' = chars "VDD_IN".
Proof.
  apply (proj1 (read_string_strips_newline host_vdd_in _ (chars "POM_5V_GPU") fresh_process)
           (chars "VDD_IN") []).
  - vm_compute. reflexivity.
  - repeat constructor; vm_compute; congruence.
  - vm_compute. lia.
Defined.

Lemma to_int_range (z : Z) : - 2 ^ 31 ≤ to_int z < 2 ^ 31.
Proof. unfold to_int. pose proof (Z.mod_pos_bound (z + 2 ^ 31) (2 ^ 32)). lia. Qed.

Lemma to_long_small (z : Z) : - 2 ^ 63 ≤ z < 2 ^ 63 → to_long z = z.
Proof. intros Hz. unfold to_long. rewrite Z.mod_small; lia. Qed.

(** What [read_long] returns, case by case. *)
Lemma read_long_spec (h : host) (file : string) (s : sys) :
  match file_bytes h file 64 with
  | inl e => read_long h file s = (-1, with_errno e s)
  | inr [] => read_long h file s = (-1, s)
  | inr data =>
      let '(v, e) := strtol (buf_store data (uninit h 64)) in
      let en := default 0 e in
      read_long h file s
      = (if (to_int v =? 0) && negb (en =? 0) then -1 else to_int v, with_errno en s)
  end.
Proof.
  unfold read_long, file_bytes. unfold_M.
  pose proof (sys_open_spec h file s) as Hopen. unfold open_error in Hopen.
  destruct (h_files h !! file) as [f|] eqn:Hfile; [|by rewrite Hopen].
  destruct (f_open f) as [e|] eqn:Hfo; [by rewrite Hopen|].
  destruct Hopen as (fd & -> & Hfresh & Hge & _).
  destruct (fd <? 0) eqn:Hneg; [lia|].
  unfold sys_read, sys_close. cbn [fdtab with_fdtab with_errno].
  rewrite lookup_insert_eq, Hfile.
  destruct (f_read f) as [e|].
  - cbn. rewrite lookup_insert_eq. cbn. rewrite delete_insert_id by done. by destruct s.
  - destruct (take 64 (chars (f_data f))) as [|c data] eqn:Hdata.
    + change (0 <? Z.of_nat (length (@nil ascii))) with false. cbn.
      rewrite lookup_insert_eq. cbn. rewrite delete_insert_id by done. by destruct s.
    + cbn [length]. rewrite Nat2Z.inj_succ.
      destruct (0 <? Z.succ (Z.of_nat (length data))) eqn:Hpos.
      2: { apply Z.ltb_ge in Hpos. lia. }
      destruct (strtol _) as [v [e|]]; cbn; rewrite lookup_insert_eq; cbn;
        rewrite delete_insert_id by done; done.
Qed.

Lemma read_long_range (h : host) (file : string) (s : sys) :
  - 2 ^ 31 ≤ (read_long h file s).1 < 2 ^ 31.
Proof.
  pose proof (read_long_spec h file s) as Hspec.
  destruct (file_bytes h file 64) as [e|[|c data]]; [rewrite Hspec; cbn; lia..|].
  destruct (strtol _) as [v e]. rewrite Hspec. cbn [fst].
  pose proof (to_int_range v). destruct (_ && _); lia.
Qed.

Lemma try_read_polling_delay_us_value (h : host) (bus_addr device : string) (channel : Z)
    (s : sys) :
  let r := read_long h (INA3221X_FILE_TEMPLATE_POLLING_DELAY bus_addr device channel) s in
  ina3221x_try_read_polling_delay_us h bus_addr device channel s = (1000 * r.1, r.2).
Proof.
  cbn zeta. unfold ina3221x_try_read_polling_delay_us. unfold_M.
  pose proof (read_long_range h
                (INA3221X_FILE_TEMPLATE_POLLING_DELAY bus_addr device channel) s) as Hrange.
  destruct (read_long h _ s) as [v s1]. cbn [fst snd] in *.
  rewrite to_long_small by lia. f_equal. lia.
Qed.

(** X3: [read_long] returns -1 when the file cannot be opened or read or is
    empty, and a value of type [int] otherwise; it changes nothing in the
    process but [errno].  The polling delay in microseconds is 1000 times
    that value, without overflow: -1000 when the delay cannot be read. *)
Theorem read_long_outcome (h : host) (bus_addr device : string) (channel : Z) (s : sys) :
  let file := INA3221X_FILE_TEMPLATE_POLLING_DELAY bus_addr device channel in
  let r := read_long h file s in
  same_resources s r.2
  ∧ - 2 ^ 31 ≤ r.1 < 2 ^ 31
  ∧ match file_bytes h file 64 with
    | inl e => r = (-1, with_errno e s)
    | inr [] => r = (-1, s)
    | inr _ => True
    end
  ∧ ina3221x_try_read_polling_delay_us h bus_addr device channel s = (1000 * r.1, r.2).
Proof.
  cbn zeta. split; [apply read_long_resources|].
  split; [apply read_long_range|].
  split; [|apply try_read_polling_delay_us_value].
  pose proof (read_long_spec h (INA3221X_FILE_TEMPLATE_POLLING_DELAY bus_addr device channel) s)
    as Hspec.
  by destruct (file_bytes h _ 64) as [e|[|c data]].
Qed.

(** ** The largest polling delay *)

Lemma walk_channel_delay (h : host) (names : list (list ascii)) (bus_addr device : string)
    (c : Z) (w : walk) (s : sys) :
  let w' := (walk_channel h names bus_addr device c w s).1.2 in
  w_delay w ≤ w_delay w' ≤ Z.max (w_delay w) 2147483647000.
Proof.
  cbn zeta. unfold walk_channel. unfold_M.
  destruct (ina3221x_try_read_rail_name h bus_addr device c (w_name w) 64 _)
    as [[r name] s1].
  destruct (r <? 0); [cbn; lia|].
  destruct (match_index name names) as [i|]; [|cbn; lia].
  destruct (negb (slot (w_fds w) i =? 0)); [cbn; lia|].
  destruct (ina3221x_open_power_file h bus_addr device c s1) as [fd s2].
  destruct (fd <? 0); [cbn; lia|].
  rewrite try_read_polling_delay_us_value.
  pose proof (read_long_range h
                (INA3221X_FILE_TEMPLATE_POLLING_DELAY bus_addr device c) s2) as Hrange.
  cbn [fst snd w_delay].
  destruct (_ && _) eqn:E; [|lia].
  apply andb_true_iff in E as [_ E]. apply Z.ltb_lt in E. lia.
Qed.

Lemma walk_channels_delay (h : host) (names : list (list ascii)) (bus_addr device : string)
    (chs : list Z) (w : walk) (s : sys) :
  let w' := (walk_channels h names bus_addr device chs w s).1.2 in
  w_delay w ≤ w_delay w' ≤ Z.max (w_delay w) 2147483647000.
Proof.
  revert w s. induction chs as [|c rest IH]; intros w s; [cbn; lia|].
  cbn [walk_channels]. unfold_M.
  pose proof (walk_channel_delay h names bus_addr device c w s) as Hone.
  destruct (walk_channel h names bus_addr device c w s) as [[r w1] s1].
  cbn [fst snd] in Hone.
  destruct (r <? 0); [done|].
  specialize (IH w1 s1). cbn zeta in IH. lia.
Qed.

Lemma walk_device_dir_delay (h : host) (names : list (list ascii)) (fds : list Z) (d : Z)
    (bus_addr device : string) (s : sys) :
  let d' := (ina3221x_walk_device_dir h names fds d bus_addr device s).1.2 in
  d ≤ d' ≤ Z.max d 2147483647000.
Proof.
  cbn zeta. unfold ina3221x_walk_device_dir. unfold_M.
  pose proof (walk_channels_delay h names bus_addr device (seqZ 0 INA3221_CHANNELS_MAX)
                (mkWalk fds d (uninit h 64)) s) as Hw.
  by destruct (walk_channels h names bus_addr device _ _ s) as [[r w'] s'].
Qed.

Lemma walk_devices_delay (h : host) (names : list (list ascii)) (bus_addr : string)
    (entries : list dirent) (fds : list Z) (d : Z) (s : sys) :
  let d' := (walk_devices h names bus_addr entries fds d s).1.2 in
  d ≤ d' ≤ Z.max d 2147483647000.
Proof.
  revert fds d s. induction entries as [|entry rest IH]; intros fds d s; [cbn; lia|].
  cbn [walk_devices]. unfold_M.
  destruct (is_iio_device_dir entry); [|apply IH].
  pose proof (walk_device_dir_delay h names fds d bus_addr (d_name entry) s) as Hone.
  destruct (ina3221x_walk_device_dir h names fds d bus_addr (d_name entry) s)
    as [[[ret fds1] d1] s1]. cbn [fst snd] in Hone.
  destruct (ret <? 0); [done|].
  specialize (IH fds1 d1 s1). cbn zeta in IH. lia.
Qed.

Lemma walk_bus_addr_dir_delay (h : host) (names : list (list ascii)) (fds : list Z) (d : Z)
    (bus_addr : string) (s : sys) :
  let d' := (ina3221x_walk_bus_addr_dir h names fds d bus_addr s).1.2 in
  d ≤ d' ≤ Z.max d 2147483647000.
Proof.
  cbn zeta. unfold ina3221x_walk_bus_addr_dir, sys_opendir. unfold_M.
  destruct (h_dirs h !! _) as [[e|entries]|]; cbn [fst snd]; [lia| |lia].
  apply walk_devices_delay.
Qed.

Lemma walk_buses_delay (h : host) (names : list (list ascii)) (entries : list dirent)
    (fds : list Z) (d : Z) (s : sys) :
  let d' := (walk_buses h names entries fds d s).1.2 in
  d ≤ d' ≤ Z.max d 2147483647000.
Proof.
  revert fds d s. induction entries as [|entry rest IH]; intros fds d s; [cbn; lia|].
  cbn [walk_buses]. unfold_M.
  destruct (is_i2c_bus_addr_dir entry); [|apply IH].
  pose proof (walk_bus_addr_dir_delay h names fds d (d_name entry) s) as Hone.
  destruct (ina3221x_walk_bus_addr_dir h names fds d (d_name entry) s)
    as [[[ret fds1] d1] s1]. cbn [fst snd] in Hone.
  destruct (ret <? 0); [done|].
  specialize (IH fds1 d1 s1). cbn zeta in IH. lia.
Qed.

Lemma walk_i2c_drivers_dir_delay (h : host) (names : list (list ascii)) (fds : list Z)
    (d : Z) (s : sys) :
  let d' := (ina3221x_walk_i2c_drivers_dir h names fds d s).1.2 in
  d ≤ d' ≤ Z.max d 2147483647000.
Proof.
  cbn zeta. unfold ina3221x_walk_i2c_drivers_dir, sys_opendir. unfold_M.
  destruct (h_dirs h !! _) as [[e|entries]|]; cbn [fst snd]; [lia| |lia].
  apply walk_buses_delay.
Qed.

Lemma walk_default_profiles_delay (h : host) (profiles : list (list (option string)))
    (fds : list Z) (n : nat) (d : Z) (s : sys) :
  let d' := (walk_default_profiles h profiles fds n d s).1.2 in
  d ≤ d' ≤ Z.max d 2147483647000.
Proof.
  revert fds n d s. induction profiles as [|p rest IH]; intros fds n d s.
  { cbn [walk_default_profiles]. unfold_M. cbn. lia. }
  cbn [walk_default_profiles]. unfold_M.
  pose proof (walk_i2c_drivers_dir_delay h
                (leading_names (Z.to_nat NUM_RAILS_DEFAULT_MAX) p) fds d s) as Hone.
  destruct (ina3221x_walk_i2c_drivers_dir h _ fds d s) as [[[r fds1] d1] s1].
  cbn [fst snd] in Hone.
  destruct (negb (r =? 0)); [done|].
  destruct (0 <? slot fds1 0).
  - by destruct (if some_missing fds1 _ then _ else _) as [fds2 s2].
  - specialize (IH fds1 (length (leading_names (Z.to_nat NUM_RAILS_DEFAULT_MAX) p)) d1 s1).
    cbn zeta in IH. lia.
Qed.

(** X4: the largest polling delay that the walk of the tree reports is never
    below the value passed in, and exceeds it only by a delay read from a
    [polling_delay] file, which is at most 2147483647000 us; the same holds
    for the default search. *)
Theorem walk_polling_delay_max_bounds (h : host) (names : list (list ascii)) (fds : list Z)
    (n : nat) (d : Z) (s : sys) :
  let explicit := (ina3221x_walk_i2c_drivers_dir h names fds d s).1.2 in
  let default := (ina3221x_walk_i2c_drivers_dir_for_default h fds n d s).1.2 in
  d ≤ explicit ≤ Z.max d 2147483647000
  ∧ d ≤ default ≤ Z.max d 2147483647000.
Proof.
  split; [apply walk_i2c_drivers_dir_delay|].
  unfold ina3221x_walk_i2c_drivers_dir_for_default. apply walk_default_profiles_delay.
Qed.

(** ** The entries the walk descends into *)

Lemma c_str_length_gt (n : nat) (l : list ascii) :
  (Z.of_nat n <? Z.of_nat (length (c_str l))) = true
  ↔ (n < length l)%nat ∧ Forall (λ c, c ≠ NUL) (take (S n) l).
Proof.
  rewrite Z.ltb_lt. revert n. induction l as [|c r IH]; intros n; cbn [c_str length].
  { split; [lia|]. intros [? _]. lia. }
  destruct (Ascii.eqb_spec c NUL) as [->|Hc]; cbn [length].
  - split; [lia|]. intros [_ Hall]. cbn in Hall. by inversion Hall.
  - destruct n as [|n].
    + split; [|lia]. intros _. split; [lia|]. cbn. rewrite take_0. by repeat constructor.
    + specialize (IH n). split.
      * intros Hlt. destruct (proj1 IH ltac:(lia)) as [Hn Hall].
        split; [lia|]. cbn [take]. by constructor.
      * intros [Hn Hall]. cbn [take] in Hall. inversion Hall; subst.
        assert (Z.of_nat n < Z.of_nat (length (c_str r))); [|lia].
        apply IH. split; [lia|done].
Qed.

(** X5: [is_i2c_bus_addr_dir] accepts exactly the links and directories
    whose name is one character other than a dot, a hyphen, and at least one
    more character: an address on a bus whose number has two digits is passed
    over.  [is_iio_device_dir] accepts every directory [iio:device<N>] and
    nothing that is not a directory; neither accepts [.] or [..]. *)
Theorem walk_descends_into (e : dirent) :
  (is_i2c_bus_addr_dir e = true
   ↔ (d_type e = DT_LNK ∨ d_type e = DT_DIR)
     ∧ ∃ b c rest, d_name e = String b (String "-" (String c rest))
                   ∧ b ≠ "."%char ∧ b ≠ NUL ∧ c ≠ NUL)
  ∧ (∀ c suffix,
       d_name e = String.append "iio:device" (String c suffix) →
       is_iio_device_dir e = bool_decide (d_type e = DT_DIR ∧ c ≠ NUL))
  ∧ (is_iio_device_dir e = true → d_type e = DT_DIR)
  ∧ (is_iio_device_dir e = true ∨ is_i2c_bus_addr_dir e = true →
     d_name e ≠ "."%string ∧ d_name e ≠ ".."%string).
Proof.
  destruct e as [t name]. unfold is_i2c_bus_addr_dir, is_iio_device_dir, name_char.
  cbn [d_type d_name]. split; [|split; [|split]].
  - rewrite !andb_true_iff, orb_true_iff, !bool_decide_eq_true, negb_true_iff.
    change 2 with (Z.of_nat 2). rewrite c_str_length_gt. split.
    + intros [[[Ht [Hlen Hall]] Hdot] Hdash]. split; [done|].
      destruct name as [|b [|m [|c rest]]]; cbn in Hlen; try lia.
      cbn in Hdot, Hdash, Hall. apply Ascii.eqb_eq in Hdash as ->.
      apply Ascii.eqb_neq in Hdot.
      inversion Hall as [|? ? Hb Hall1]; subst. inversion Hall1 as [|? ? _ Hall2]; subst.
      inversion Hall2; subst. by exists b, c, rest.
    + intros [Ht (b & c & rest & -> & Hdot & Hb & Hc)].
      cbn. apply Ascii.eqb_neq in Hdot. rewrite Hdot.
      split_and!; try done; [lia|]. by repeat constructor.
  - intros c suffix ->.
    assert (chars (String.append "iio:device" (String c suffix))
            = (chars "iio:device" ++ c :: chars suffix)%list) as Hname by reflexivity.
    rewrite Hname. cbn [app chars list_ascii_of_string lookup list_lookup default].
    unfold id. change (Ascii.eqb "i" ".") with false. change (Ascii.eqb ":" ":") with true.
    rewrite !andb_true_r.
    destruct (decide (t = DT_DIR ∧ c ≠ NUL)) as [[-> Hc]|Hno].
    + rewrite bool_decide_eq_true_2 by done. rewrite bool_decide_eq_true_2 by done.
      change 10 with (Z.of_nat 10). apply c_str_length_gt. split.
      * cbn [length]. lia.
      * cbn. by repeat constructor.
    + rewrite (bool_decide_eq_false_2 _ Hno). apply andb_false_iff.
      destruct (decide (t = DT_DIR)) as [->|Ht]; [|left; by apply bool_decide_eq_false].
      right. apply not_true_is_false. change 10 with (Z.of_nat 10).
      rewrite c_str_length_gt. intros [_ Hall]. cbn in Hall.
      apply Hno. split; [done|].
      do 10 (inversion Hall as [|? ? _ Hall']; subst; clear Hall; rename Hall' into Hall).
      by inversion Hall.
  - rewrite !andb_true_iff, bool_decide_eq_true. by intros [[[Ht _] _] _].
  - rewrite !andb_true_iff, !negb_true_iff.
    intros [[[[_ _] Hdot] _]|[[[_ _] Hdot] _]]; apply Ascii.eqb_neq in Hdot;
      split; intros ->; by apply Hdot.
Qed.

(** ** The walk and the descriptor array *)

(** X6: the walk of the tree leaves the array at its length and fills a slot
    only when it comes by a channel whose name matches the name of that
    slot: a slot that is not 0 after the walk was not 0 before, or its rail
    was found. *)
Theorem walk_fills_only_matching_slots (h : host) (names : list (list ascii)) (fds : list Z)
    (d : Z) (s : sys) :
  (length names ≤ length fds)%nat →
  let fds' := (ina3221x_walk_i2c_drivers_dir h names fds d s).1.1.2 in
  length fds' = length fds
  ∧ ∀ i, slot fds' i ≠ 0 →
         slot fds i ≠ 0 ∨ (rail_found h names i ∧ (i < length names)%nat).
Proof.
  intros Hfit. cbn zeta.
  destruct (walk_i2c_drivers_dir_slots h names fds d s Hfit) as [Hlen Hslots].
  split; [done|]. intros i Hi. destruct (Hslots i Hi) as [|Hfound]; [by left|].
  right. split; [done|].
  destruct Hfound as (b & dv & _ & _ & _ & _ & p & c & q & _ & Hhit).
  unfold hit in Hhit. destruct (name_bytes _ _ _ _); [done|].
  by apply match_index_lt in Hhit.
Qed.

(** X6 on a board with the rail VDD_IN, for the names VDD_IN and VDD_MUX:
    the second slot stays empty. *)
Lemma walk_fills_only_matching_slots_witness :
  let fds' := (ina3221x_walk_i2c_drivers_dir host_vdd_in [chars "VDD_IN"; chars "VDD_MUX"]
                 [0; 0] 0 fresh_process).1.1.2 in
  length fds' = 2%nat
  ∧ ∀ i, slot fds' i ≠ 0 →
         slot [0; 0] i ≠ 0
         ∨ (rail_found host_vdd_in [chars "VDD_IN"; chars "VDD_MUX"] i ∧ (i < 2)%nat).
Proof.
  apply (walk_fills_only_matching_slots host_vdd_in [chars "VDD_IN"; chars "VDD_MUX"]
           [0; 0] 0 fresh_process).
  cbn. lia.
Defined.

(** X7: started on an array of zeros in a process that has descriptor 0 in
    use, the walk of the tree leaves open only descriptors that the array
    holds: each positive slot holds a descriptor that is open now and was not
    before, no two slots hold the same one, every other descriptor is as it
    was, and the heap and the threads are untouched. *)
Theorem walk_descriptors_are_in_the_array (h : host) (names : list (list ascii)) (n : nat)
    (d : Z) (s : sys) :
  stdin_open s →
  (length names ≤ n)%nat →
  let r := ina3221x_walk_i2c_drivers_dir h names (replicate n 0) d s in
  let fds' := r.1.1.2 in
  heap r.2 = heap s ∧ threads r.2 = threads s
  ∧ (∀ i, 0 < slot fds' i →
          fdtab s !! slot fds' i = None ∧ is_Some (fdtab r.2 !! slot fds' i))
  ∧ (∀ i j, 0 < slot fds' i → slot fds' i = slot fds' j → i = j)
  ∧ (∀ k, ¬ (0 < k ∧ ∃ i, slot fds' i = k) → fdtab r.2 !! k = fdtab s !! k).
Proof.
  intros Hin Hfit. cbn zeta.
  assert (keeps s (replicate n 0) s) as Hkeeps.
  { split; [done|]. split; [apply owns_start|done]. }
  pose proof (walk_i2c_drivers_dir_keeps h names s (replicate n 0) d s) as Hw.
  rewrite length_replicate in Hw. destruct (Hw Hfit Hkeeps) as [Hk _].
  destruct Hk as (_ & (Hheld & Hother & Hone) & Hh & Ht & _).
  split; [done|]. split; [done|]. split; [|split; [done|]].
  - intros i Hi. apply Hheld. split; [done|]. by exists i.
  - intros k Hk. by apply Hother.
Qed.

(** X7 on a board with the rails VDD_IN and VDD_MUX. *)
Lemma walk_descriptors_are_in_the_array_witness :
  let r := ina3221x_walk_i2c_drivers_dir host_plain [chars "VDD_IN"; chars "VDD_MUX"]
             (replicate 2 0) 0 fresh_process in
  heap r.2 = 0 ∧ threads r.2 = 0
  ∧ (∀ i, 0 < slot r.1.1.2 i →
          fdtab fresh_process !! slot r.1.1.2 i = None
          ∧ is_Some (fdtab r.2 !! slot r.1.1.2 i))
  ∧ (∀ i j, 0 < slot r.1.1.2 i → slot r.1.1.2 i = slot r.1.1.2 j → i = j)
  ∧ (∀ k, ¬ (0 < k ∧ ∃ i, slot r.1.1.2 i = k) →
          fdtab r.2 !! k = fdtab fresh_process !! k).
Proof.
  apply (walk_descriptors_are_in_the_array host_plain [chars "VDD_IN"; chars "VDD_MUX"]
           2 0 fresh_process).
  - vm_compute. eauto.
  - cbn. lia.
Defined.

(** ** Closing the array *)

Lemma close_and_clear_from_slots (n i : nat) (fds : list Z) (s : sys) :
  let r := close_and_clear_from fds i n s in
  length r.1 = length fds
  ∧ heap r.2 = heap s ∧ threads r.2 = threads s ∧ oom r.2 = oom s
  ∧ ∀ j, slot r.1 j
         = if bool_decide (i ≤ j < i + n)%nat && (0 <? slot fds j) then 0 else slot fds j.
Proof.
  revert i fds s. induction n as [|k IH]; intros i fds s.
  { cbn. split_and!; try done. intros j. rewrite bool_decide_eq_false_2 by lia. done. }
  cbn [close_and_clear_from]. unfold_M.
  destruct (0 <? slot fds i) eqn:Hpos.
  - apply Z.ltb_lt in Hpos.
    assert (i < length fds)%nat as Hi by (apply slot_positive_lt; lia).
    assert (∃ s1, sys_close (slot fds i) s = ((sys_close (slot fds i) s).1, s1)
                  ∧ heap s1 = heap s ∧ threads s1 = threads s ∧ oom s1 = oom s)
      as (s1 & Hc & Hh1 & Ht1 & Ho1).
    { unfold sys_close. destruct (fdtab s !! slot fds i); by eexists. }
    rewrite Hc. cbn zeta in IH.
    destruct (IH (S i) (<[i := 0]> fds) s1) as (Hlen & Hh & Ht & Ho & Hslots).
    rewrite length_insert in Hlen. rewrite Hh, Ht, Ho. split_and!; try done.
    intros j. rewrite Hslots, (slot_insert fds i j 0 Hi).
    destruct (decide (j = i)) as [->|Hne].
    + rewrite bool_decide_eq_false_2 by lia. cbn.
      rewrite bool_decide_eq_true_2 by lia. apply Z.ltb_lt in Hpos. by rewrite Hpos.
    + destruct (decide (S i ≤ j < S i + k)%nat).
      * rewrite !bool_decide_eq_true_2 by lia. done.
      * rewrite !bool_decide_eq_false_2 by lia. done.
  - cbn zeta in IH. destruct (IH (S i) fds s) as (Hlen & Hh & Ht & Ho & Hslots).
    split_and!; try done. intros j. rewrite Hslots.
    destruct (decide (j = i)) as [->|Hne].
    + rewrite bool_decide_eq_false_2 by lia. cbn.
      rewrite Hpos. by rewrite andb_false_r.
    + destruct (decide (S i ≤ j < S i + k)%nat).
      * rewrite !bool_decide_eq_true_2 by lia. done.
      * rewrite !bool_decide_eq_false_2 by lia. done.
Qed.

Lemma close_and_clear_fds_keeps (s0 : sys) (fds : list Z) (n : nat) (s : sys) :
  keeps s0 fds s →
  let r := close_and_clear_fds fds n s in
  keeps s0 r.1 r.2 ∧ length r.1 = length fds.
Proof.
  intros Hkeeps. cbn zeta. unfold close_and_clear_fds. unfold_M.
  pose proof (close_and_clear_from_keeps s0 n 0 fds s Hkeeps) as (Hk & _).
  pose proof (close_and_clear_from_slots n 0 fds s) as (Hlen & _).
  destruct (close_and_clear_from fds 0 n s) as [fds' s1]. cbn [fst snd] in *.
  split; [by apply keeps_errno|done].
Qed.

(** X8: [close_and_clear_fds] sets to 0 every positive slot below [max_fds]
    and leaves every other slot, the length of the array, [errno], the heap
    and the threads as they were; when the array holds the descriptors that
    were opened into it and [max_fds] covers it, the descriptor table is back
    to what it was before they were opened. *)
Theorem close_and_clear_fds_clears (fds : list Z) (max_fds : nat) (s : sys) :
  let r := close_and_clear_fds fds max_fds s in
  length r.1 = length fds
  ∧ errno r.2 = errno s ∧ heap r.2 = heap s ∧ threads r.2 = threads s
  ∧ (∀ j, slot r.1 j
          = if bool_decide (j < max_fds)%nat && (0 <? slot fds j) then 0 else slot fds j)
  ∧ (∀ s0, keeps s0 fds s → (length fds ≤ max_fds)%nat → fdtab r.2 = fdtab s0).
Proof.
  cbn zeta. split_and!.
  - unfold close_and_clear_fds. unfold_M.
    pose proof (close_and_clear_from_slots max_fds 0 fds s) as (Hlen & _).
    by destruct (close_and_clear_from fds 0 max_fds s).
  - apply close_and_clear_fds_errno.
  - unfold close_and_clear_fds. unfold_M.
    pose proof (close_and_clear_from_slots max_fds 0 fds s) as (_ & Hh & _).
    by destruct (close_and_clear_from fds 0 max_fds s).
  - unfold close_and_clear_fds. unfold_M.
    pose proof (close_and_clear_from_slots max_fds 0 fds s) as (_ & _ & Ht & _).
    by destruct (close_and_clear_from fds 0 max_fds s).
  - intros j. unfold close_and_clear_fds. unfold_M.
    pose proof (close_and_clear_from_slots max_fds 0 fds s) as (_ & _ & _ & _ & Hslots).
    destruct (close_and_clear_from fds 0 max_fds s) as [fds' s1]. cbn [fst snd] in *.
    rewrite Hslots. destruct (decide (j < max_fds)%nat).
    + rewrite !bool_decide_eq_true_2 by lia. done.
    + rewrite !bool_decide_eq_false_2 by lia. done.
  - intros s0 Hkeeps Hn. by apply (close_and_clear_fds_all s0 fds max_fds s Hkeeps Hn).
Qed.

(** X8 on the array that the walk of a board with the rails VDD_IN and
    VDD_MUX has filled. *)
Lemma close_and_clear_fds_clears_witness :
  let w := ina3221x_walk_i2c_drivers_dir host_plain [chars "VDD_IN"; chars "VDD_MUX"]
             (replicate 2 0) 0 fresh_process in
  fdtab (close_and_clear_fds w.1.1.2 2 w.2).2 = fdtab fresh_process.
Proof.
  cbn zeta.
  apply (proj2 (proj2 (proj2 (proj2 (proj2 (close_and_clear_fds_clears _ 2 _))))) fresh_process).
  - apply (walk_i2c_drivers_dir_keeps host_plain [chars "VDD_IN"; chars "VDD_MUX"]
             fresh_process (replicate 2 0) 0 fresh_process).
    + cbn. lia.
    + split; [vm_compute; eauto|]. split; [apply owns_start|done].
  - vm_compute. lia.
Defined.

(** ** The default search *)

Lemma leading_names_length (max : nat) (profile : list (option string)) :
  (length (leading_names max profile) ≤ max)%nat.
Proof.
  revert profile. induction max as [|k IH]; intros profile; [cbn; lia|].
  destruct profile as [|[n|] r]; cbn; try lia. specialize (IH r). lia.
Qed.

Lemma walk_default_profiles_first_rail (h : host) (profiles : list (list (option string)))
    (fds : list Z) (n : nat) (d : Z) (s : sys) :
  (Z.to_nat NUM_RAILS_DEFAULT_MAX ≤ length fds)%nat →
  (walk_default_profiles h profiles fds n d s).1.1.1.1 = 0 →
  slot fds 0 ≠ 0
  ∨ ∃ p, p ∈ profiles
         ∧ rail_found h (leading_names (Z.to_nat NUM_RAILS_DEFAULT_MAX) p) 0.
Proof.
  revert fds n d s. induction profiles as [|p rest IH]; intros fds n d s Hfit.
  { cbn [walk_default_profiles]. unfold_M. cbn. lia. }
  cbn [walk_default_profiles]. unfold_M.
  pose proof (leading_names_length (Z.to_nat NUM_RAILS_DEFAULT_MAX) p) as Hnames.
  pose proof (walk_i2c_drivers_dir_slots h
                (leading_names (Z.to_nat NUM_RAILS_DEFAULT_MAX) p) fds d s ltac:(lia))
    as Hslots.
  destruct (ina3221x_walk_i2c_drivers_dir h _ fds d s) as [[[r fds1] d1] s1].
  cbn [fst snd] in Hslots. destruct Hslots as [Hlen Hslots].
  assert (slot fds1 0 ≠ 0 →
          slot fds 0 ≠ 0
          ∨ ∃ p', p' ∈ p :: rest
                  ∧ rail_found h (leading_names (Z.to_nat NUM_RAILS_DEFAULT_MAX) p') 0)
    as Hfirst.
  { intros Hnz. destruct (Hslots 0%nat Hnz) as [|Hf]; [by left|].
    right. exists p. split; [apply elem_of_cons; by left|done]. }
  destruct (negb (r =? 0)); [cbn; lia|].
  destruct (0 <? slot fds1 0) eqn:Hpos.
  - intros _. apply Hfirst. apply Z.ltb_lt in Hpos. lia.
  - intros Hr. destruct (IH fds1 _ d1 s1 ltac:(lia) Hr) as [Hnz|(p' & Hin & Hf)].
    + by apply Hfirst.
    + right. exists p'. split; [apply elem_of_cons; by right|done].
Qed.

(** X9: without a list of rail names, the initialisation succeeds only if
    the walk of the tree comes by a channel that bears the first rail name of
    one of the default profiles (VDD_IN, POM_5V_IN or GPU); the default search
    started on an array whose first slot is empty returns 0 only then. *)
Theorem default_search_needs_first_rail (h : host) (s : sys) :
  let found :=
    ∃ p, p ∈ DEFAULT_RAIL_NAMES
         ∧ rail_found h (leading_names (Z.to_nat NUM_RAILS_DEFAULT_MAX) p) 0 in
  (∀ fds n d,
     slot fds 0 = 0 → (Z.to_nat NUM_RAILS_DEFAULT_MAX ≤ length fds)%nat →
     (ina3221x_walk_i2c_drivers_dir_for_default h fds n d s).1.1.1.1 = 0 → found)
  ∧ (getenv h ENERGYMON_JETSON_RAIL_NAMES = None →
     (energymon_init_jetson h (Some (mkEm None)) s).1.1 = 0 → found).
Proof.
  cbn zeta. split.
  - intros fds n d Hz Hfit Hr. unfold ina3221x_walk_i2c_drivers_dir_for_default in Hr.
    destruct (walk_default_profiles_first_rail h _ fds n d s Hfit Hr); [done|done].
  - intros Henv Hr. destruct (init_success h s Hr) as (st & d & s1 & _ & Hrails & _).
    unfold init_rails in Hrails. rewrite Henv in Hrails. unfold_M.
    destruct (alloc_request s) as [[] s2]; cbn [negb] in Hrails; [|done].
    destruct (heap_new s2) as [[] s3].
    unfold ina3221x_walk_i2c_drivers_dir_for_default in Hrails.
    pose proof (walk_default_profiles_first_rail h DEFAULT_RAIL_NAMES
                  (replicate (Z.to_nat NUM_RAILS_DEFAULT_MAX) 0)
                  (Z.to_nat NUM_RAILS_DEFAULT_MAX) 0 s3) as Hfirst.
    rewrite length_replicate in Hfirst. specialize (Hfirst ltac:(lia)).
    destruct (walk_default_profiles h DEFAULT_RAIL_NAMES _ _ 0 s3) as [[[[r fds1] n1] d1] s4].
    cbn [fst snd] in Hfirst.
    destruct (r =? 0) eqn:Hz; cbn [negb] in Hrails.
    2: { by destruct (fail_rails _ _ _ s4) as [[] s5]. }
    apply Z.eqb_eq in Hz. destruct (Hfirst Hz) as [Hnz|]; [|done].
    by rewrite slot_replicate in Hnz.
Qed.

(** X9 on a board with the rails VDD_IN and VDD_MUX. *)
Lemma default_search_needs_first_rail_witness :
  ∃ p, p ∈ DEFAULT_RAIL_NAMES
       ∧ rail_found host_plain (leading_names (Z.to_nat NUM_RAILS_DEFAULT_MAX) p) 0.
Proof.
  apply (proj2 (default_search_needs_first_rail host_plain fresh_process)).
  - vm_compute. reflexivity.
  - vm_compute. reflexivity.
Defined.

Lemma walk_default_profiles_keeps (h : host) (s0 : sys) (profiles : list (list (option string)))
    (fds : list Z) (n : nat) (d : Z) (s : sys) :
  (Z.to_nat NUM_RAILS_DEFAULT_MAX ≤ length fds)%nat →
  keeps s0 fds s →
  let r := walk_default_profiles h profiles fds n d s in
  keeps s0 r.1.1.1.2 r.2 ∧ length r.1.1.1.2 = length fds
  ∧ (r.1.1.2 ≤ Z.to_nat NUM_RAILS_DEFAULT_MAX ∨ r.1.1.2 = n)%nat.
Proof.
  revert fds n d s. induction profiles as [|p rest IH]; intros fds n d s Hfit Hkeeps.
  { cbn [walk_default_profiles]. unfold_M. cbn.
    split; [by apply keeps_errno|]. split; [done|by right]. }
  cbn [walk_default_profiles]. unfold_M.
  pose proof (leading_names_length (Z.to_nat NUM_RAILS_DEFAULT_MAX) p) as Hnames.
  pose proof (walk_i2c_drivers_dir_keeps h
                (leading_names (Z.to_nat NUM_RAILS_DEFAULT_MAX) p) s0 fds d s
                ltac:(lia) Hkeeps) as Hw.
  destruct (ina3221x_walk_i2c_drivers_dir h _ fds d s) as [[[r fds1] d1] s1].
  cbn [fst snd] in Hw. destruct Hw as [Hk1 Hlen1].
  destruct (negb (r =? 0)); [cbn; split_and!; try done; by left|].
  destruct (0 <? slot fds1 0).
  - destruct (some_missing fds1 _).
    + pose proof (close_and_clear_fds_keeps s0 fds1
                    (length (leading_names (Z.to_nat NUM_RAILS_DEFAULT_MAX) p)) s1 Hk1)
        as Hc.
      destruct (close_and_clear_fds fds1 _ s1) as [fds2 s2]. cbn [fst snd] in *.
      destruct Hc as [Hk2 Hlen2]. split_and!; [done|lia|by left].
    + cbn. split_and!; [done|done|by left].
  - specialize (IH fds1 (length (leading_names (Z.to_nat NUM_RAILS_DEFAULT_MAX) p)) d1 s1
                  ltac:(lia) Hk1).
    cbn zeta in IH. destruct IH as (Hk & Hlen & Hn). split_and!; [done|lia|].
    destruct Hn as [|Hn]; [by left|]. left. lia.
Qed.

(** The first stage leaves the process with the descriptors that the array
    of the state holds and with one more heap block, the state. *)
Lemma init_rails_keeps (h : host) (s s1 : sys) (st : energymon_jetson) (d : Z) :
  stdin_open s →
  init_rails h s = (Some (st, d), s1) →
  owns (fdtab s) (fds st) (fdtab s1)
  ∧ heap s1 = heap s + 1 ∧ threads s1 = threads s
  ∧ (count st ≤ length (fds st))%nat
  ∧ thread st = false
  ∧ (is_Some (getenv h ENERGYMON_JETSON_RAIL_NAMES) → count st = length (fds st)).
Proof.
  intros Hin. unfold init_rails. unfold_M.
  destruct (getenv h ENERGYMON_JETSON_RAIL_NAMES) as [str|].
  - pose proof (get_rail_names_frame str s) as (Hf1 & Ht1 & Hh1).
    destruct (get_rail_names str s) as [[names|] s2]; cbn [fst snd] in *; [|done].
    pose proof (alloc_request_frame s2) as (Hf2 & Hh2 & Ht2).
    destruct (alloc_request s2) as [[] s3]; cbn [negb fst snd] in *; [|done].
    unfold heap_new. cbn beta iota.
    set (s4 := with_heap (heap s3 + 1) s3).
    assert (keeps s4 (replicate (length names) 0) s4) as Hkeeps.
    { split; [|split; [apply owns_start|done]].
      unfold stdin_open, s4 in *. cbn. by rewrite Hf2, Hf1. }
    pose proof (walk_i2c_drivers_dir_keeps h names s4 (replicate (length names) 0) 0 s4) as Hw.
    rewrite length_replicate in Hw. specialize (Hw ltac:(lia) Hkeeps).
    destruct (ina3221x_walk_i2c_drivers_dir h names (replicate (length names) 0) 0 s4)
      as [[[r fds1] d1] s5]. cbn [fst snd] in Hw. destruct Hw as [Hk5 Hlen5].
    destruct (negb (r =? 0)).
    { by destruct (fail_rails _ _ _ s5) as [[] s6]. }
    destruct (some_missing fds1 _).
    { cbn. by destruct (fail_rails _ _ _ _) as [[] s6]. }
    unfold free_rail_names, heap_free. cbn. intros [= <- <- <-]. cbn.
    destruct Hk5 as (_ & Hown & Hh5 & Ht5 & _). unfold s4 in *. cbn in *.
    rewrite Hf2, Hf1 in Hown. rewrite Hh5, Ht5, Hh2, Ht2, Hh1, Ht1.
    split_and!; try done; lia.
  - pose proof (alloc_request_frame s) as (Hf2 & Hh2 & Ht2).
    destruct (alloc_request s) as [[] s3]; cbn [negb fst snd] in *; [|done].
    unfold heap_new. cbn beta iota.
    set (s4 := with_heap (heap s3 + 1) s3).
    assert (keeps s4 (replicate (Z.to_nat NUM_RAILS_DEFAULT_MAX) 0) s4) as Hkeeps.
    { split; [|split; [apply owns_start|done]].
      unfold stdin_open, s4 in *. cbn. by rewrite Hf2. }
    unfold ina3221x_walk_i2c_drivers_dir_for_default.
    pose proof (walk_default_profiles_keeps h s4 DEFAULT_RAIL_NAMES
                  (replicate (Z.to_nat NUM_RAILS_DEFAULT_MAX) 0)
                  (Z.to_nat NUM_RAILS_DEFAULT_MAX) 0 s4) as Hw.
    rewrite length_replicate in Hw. specialize (Hw ltac:(lia) Hkeeps).
    destruct (walk_default_profiles h DEFAULT_RAIL_NAMES _ _ 0 s4) as [[[[r fds1] n1] d1] s5].
    cbn [fst snd] in Hw. destruct Hw as (Hk5 & Hlen5 & Hn).
    destruct (negb (r =? 0)).
    { by destruct (fail_rails _ _ _ s5) as [[] s6]. }
    intros [= <- <- <-]. cbn.
    destruct Hk5 as (_ & Hown & Hh5 & Ht5 & _). unfold s4 in *. cbn in *.
    rewrite Hf2 in Hown. rewrite Hh5, Ht5, Hh2, Ht2.
    split_and!; try done; lia.
Qed.

(** X10: without a list of rail names, when the first stage of the
    initialisation fails (the state cannot be allocated, the tree cannot be
    walked, or no profile has its first rail) the initialisation returns -1
    with the handle as it was and with the descriptors, the heap blocks and
    the threads the process had before. *)
Theorem failed_default_search_gives_all_back (h : host) (s : sys) :
  getenv h ENERGYMON_JETSON_RAIL_NAMES = None →
  stdin_open s →
  (init_rails h s).1 = None →
  let r := energymon_init_jetson h (Some (mkEm None)) s in
  r.1 = (-1, Some (mkEm None)) ∧ same_footprint s r.2.
Proof.
  intros Henv Hin. cbn zeta. unfold energymon_init_jetson, init_rails, same_footprint.
  rewrite Henv. unfold_M.
  pose proof (alloc_request_frame s) as (Hf2 & Hh2 & Ht2).
  destruct (alloc_request s) as [[] s3]; cbn [negb fst snd] in *.
  2: { intros _. cbn. rewrite Hf2, Hh2, Ht2. done. }
  unfold heap_new. cbn beta iota.
  set (s4 := with_heap (heap s3 + 1) s3).
  assert (keeps s4 (replicate (Z.to_nat NUM_RAILS_DEFAULT_MAX) 0) s4) as Hkeeps.
  { split; [|split; [apply owns_start|done]].
    unfold stdin_open, s4 in *. cbn. by rewrite Hf2. }
  unfold ina3221x_walk_i2c_drivers_dir_for_default.
  pose proof (walk_default_profiles_keeps h s4 DEFAULT_RAIL_NAMES
                (replicate (Z.to_nat NUM_RAILS_DEFAULT_MAX) 0)
                (Z.to_nat NUM_RAILS_DEFAULT_MAX) 0 s4) as Hw.
  rewrite length_replicate in Hw. specialize (Hw ltac:(lia) Hkeeps).
  destruct (walk_default_profiles h DEFAULT_RAIL_NAMES _ _ 0 s4) as [[[[r fds1] n1] d1] s5].
  cbn [fst snd] in Hw. destruct Hw as (Hk5 & Hlen5 & Hn).
  destruct (negb (r =? 0)); [|done].
  intros _. unfold fail_rails, fail_alloc, heap_free. unfold_M.
  pose proof (close_and_clear_fds_all s4 fds1 (Z.to_nat NUM_RAILS_DEFAULT_MAX) s5 Hk5
                ltac:(lia)) as Hc.
  destruct (close_and_clear_fds fds1 _ s5) as [fds' s6]. cbn [fst snd] in *.
  destruct Hc as (Hf6 & Hh6 & Ht6 & _). cbn.
  rewrite Hf6, Hh6, Ht6. unfold s4. cbn. rewrite Hf2, Hh2, Ht2.
  split_and!; try done; lia.
Qed.

(** X10 on a board whose driver directory shows a chip without any rail. *)
Lemma failed_default_search_gives_all_back_witness :
  let r := energymon_init_jetson (one_chip [] []) (Some (mkEm None)) fresh_process in
  r.1 = (-1, Some (mkEm None)) ∧ same_footprint fresh_process r.2.
Proof.
  apply (failed_default_search_gives_all_back (one_chip [] []) fresh_process).
  - vm_compute. reflexivity.
  - vm_compute. eauto.
  - vm_compute. reflexivity.
Defined.

(** ** The lifecycle *)



Lemma finish_close_prefix (tab0 : gmap Z string) (l l' : list Z) (err_save : Z) (s : sys) :
  owns tab0 (l ++ l') (fdtab s) →
  let r := finish_close l err_save s in
  r.1 = err_save ∧ owns tab0 l' (fdtab r.2)
  ∧ heap r.2 = heap s ∧ threads r.2 = threads s ∧ errno r.2 = errno s.
Proof.
  revert s. induction l as [|fd rest IH]; intros s Hown; [done|].
  cbn [app] in Hown. pose proof (owns_tail _ _ _ _ Hown) as Htail.
  cbn [finish_close]. destruct (0 <? fd) eqn:Hpos; [|by apply IH].
  apply Z.ltb_lt in Hpos. unfold_M.
  assert (is_Some (fdtab s !! fd)) as [p Hp].
  { apply Hown. split; [done|]. by exists O. }
  unfold sys_close. rewrite Hp. cbn.
  specialize (IH (with_fdtab (delete fd (fdtab s)) s) Htail). apply IH.
Qed.

Lemma poll_loop_frame (ticks : list tick) (cdata : list ascii) (st : energymon_jetson) :
  let st' := poll_loop ticks cdata st in
  polling_delay_us st' = polling_delay_us st ∧ thread st' = thread st
  ∧ poll_sensors st' = poll_sensors st ∧ count st' = count st ∧ fds st' = fds st.
Proof.
  revert cdata st. induction ticks as [|t rest IH]; intros cdata st; [done|].
  cbn [poll_loop]. destruct (tk_poll_sensors t); [|done].
  pose proof (poll_tick_frame t cdata st) as (H1 & H2 & H3 & H4 & H5).
  destruct (poll_tick t cdata st) as [st1 cdata1]. cbn [fst] in *.
  destruct (IH cdata1 st1) as (G1 & G2 & G3 & G4 & G5).
  cbn zeta. by rewrite G1, G2, G3, G4, G5.
Qed.

Lemma jetson_poll_sensors_frame (h : host) (start_us : Z) (ticks : list tick)
    (st : energymon_jetson) :
  let st' := jetson_poll_sensors h start_us ticks st in
  polling_delay_us st' = polling_delay_us st ∧ thread st' = thread st
  ∧ poll_sensors st' = poll_sensors st ∧ count st' = count st ∧ fds st' = fds st.
Proof.
  unfold jetson_poll_sensors. destruct (start_us =? 0); [done|]. apply poll_loop_frame.
Qed.

(** What a successful second stage leaves: the thread runs, the flag is
    set, and the rails are those of the first stage. *)
Lemma init_start_success (h : host) (st : energymon_jetson) (d : Z) (s : sys) :
  let r := init_start h st d s in
  r.1.1 = 0 →
  ∃ st', r.1.2 = Some (mkEm (Some st'))
         ∧ thread st' = true ∧ poll_sensors st' = 1
         ∧ count st' = count st ∧ fds st' = fds st
         ∧ fdtab r.2 = fdtab s ∧ heap r.2 = heap s ∧ threads r.2 = threads s + 1.
Proof.
  cbn zeta. unfold init_start. unfold_M.
  pose proof (polling_delay_resources h d s) as (Hf1 & Hh1 & Ht1 & _).
  destruct (get_polling_delay_us h d s) as [us s1]. cbn [fst snd] in *.
  destruct (us =? 0).
  { destruct (energymon_finish_jetson _ s1) as [[r' em'] s2]. cbn. lia. }
  unfold sys_pthread_create. destruct (h_pthread_create h =? 0) eqn:Hpc.
  - cbn. intros _. eexists. split; [done|]. cbn. by rewrite Hf1, Hh1, Ht1.
  - cbn [fst snd]. rewrite Hpc. cbn [negb errno with_errno].
    destruct (energymon_finish_jetson _ _) as [[r' em'] s2]. cbn. lia.
Qed.

(** [energymon_finish_jetson] on a monitor whose thread runs and whose array
    holds the descriptors opened into it. *)
Lemma finish_running (tab0 : gmap Z string) (st : energymon_jetson) (s : sys) :
  owns tab0 (fds st) (fdtab s) →
  thread st = true → poll_sensors st = 1 →
  let r := energymon_finish_jetson (Some (mkEm (Some st))) s in
  r.1 = (0, Some (mkEm None)) ∧ errno r.2 = 0
  ∧ heap r.2 = heap s - 1 ∧ threads r.2 = threads s - 1
  ∧ owns tab0 (drop (count st) (fds st)) (fdtab r.2).
Proof.
  intros Hown Hthread Hflag. cbn zeta. unfold energymon_finish_jetson. unfold_M.
  rewrite Hflag, Hthread. cbn [Z.eqb negb]. unfold sys_pthread_join.
  rewrite <- (take_drop (count st) (fds st)) in Hown.
  pose proof (finish_close_prefix tab0 (take (count st) (fds st)) (drop (count st) (fds st))
                0 (with_threads (threads s - 1) s) Hown) as Hc.
  destruct (finish_close (take (count st) (fds st)) 0 _) as [e s2]. cbn [fst snd] in Hc.
  destruct Hc as (-> & Hown2 & Hh & Ht & _). cbn. rewrite Hh, Ht. done.
Qed.

(** X12: in a process that has descriptor 0 in use, after a successful
    initialisation and any run of the polling thread, [energymon_finish_jetson]
    returns 0 with [errno] 0, clears the handle, and gives back the state and
    the thread; with an explicit list of rail names the descriptor table is
    also the one the process had before the initialisation. *)
Theorem init_then_finish (h : host) (s : sys) (start_us : Z) (ticks : list tick) :
  stdin_open s →
  let r := energymon_init_jetson h (Some (mkEm None)) s in
  r.1.1 = 0 →
  ∃ st, r.1.2 = Some (mkEm (Some st))
        ∧ let running := jetson_poll_sensors h start_us ticks st in
          let f := energymon_finish_jetson (Some (mkEm (Some running))) r.2 in
          f.1 = (0, Some (mkEm None)) ∧ errno f.2 = 0
          ∧ heap f.2 = heap s ∧ threads f.2 = threads s
          ∧ (is_Some (getenv h ENERGYMON_JETSON_RAIL_NAMES) → fdtab f.2 = fdtab s).
Proof.
  intros Hin. cbn zeta. unfold energymon_init_jetson. unfold_M.
  destruct (init_rails h s) as [[[st0 d]|] s1] eqn:Hrails; [|cbn; lia].
  destruct (init_rails_keeps h s s1 st0 d Hin Hrails) as (Hown & Hh1 & Ht1 & Hc & Hth & Hexp).
  pose proof (init_start_success h st0 d s1) as Hst.
  destruct (init_start h st0 d s1) as [[r0 em'] s2]. cbn [fst snd] in *.
  intros Hr. destruct (Hst Hr) as (st & -> & Hthread & Hflag & Hcount & Hfds & Hf2 & Hh2 & Ht2).
  exists st. split; [done|].
  destruct (jetson_poll_sensors_frame h start_us ticks st) as (_ & G2 & G3 & G4 & G5).
  pose proof (finish_running (fdtab s) (jetson_poll_sensors h start_us ticks st) s2) as Hfin.
  rewrite G5, Hfds, Hf2, G2, G3, G4, Hcount in Hfin.
  specialize (Hfin Hown Hthread Hflag). cbn zeta in Hfin.
  destruct (energymon_finish_jetson _ s2) as [[rf emf] s3]. cbn [fst snd] in *.
  destruct Hfin as (-> & -> & Hh3 & Ht3 & Hown3).
  split_and!; try done; try lia.
  intros Hlist. specialize (Hexp Hlist). rewrite Hexp, drop_all in Hown3.
  apply (owns_nothing _ _ [] Hown3). by intros [].
Qed.

(** X12 on a board with the rails VDD_IN and VDD_MUX, both asked for. *)
Lemma init_then_finish_witness :
  let r := energymon_init_jetson (host_explicit "VDD_IN,VDD_MUX") (Some (mkEm None))
             fresh_process in
  ∃ st, r.1.2 = Some (mkEm (Some st))
        ∧ let running := jetson_poll_sensors (host_explicit "VDD_IN,VDD_MUX") 1 [] st in
          let f := energymon_finish_jetson (Some (mkEm (Some running))) r.2 in
          f.1 = (0, Some (mkEm None)) ∧ errno f.2 = 0
          ∧ heap f.2 = heap fresh_process ∧ threads f.2 = threads fresh_process
          ∧ (is_Some (getenv (host_explicit "VDD_IN,VDD_MUX") ENERGYMON_JETSON_RAIL_NAMES) →
             fdtab f.2 = fdtab fresh_process).
Proof.
  apply (init_then_finish (host_explicit "VDD_IN,VDD_MUX") fresh_process 1 []).
  - vm_compute. eauto.
  - vm_compute. reflexivity.
Defined.

(** X13: a handle that a successful initialisation has filled is refused by
    a second initialisation, and a handle that [energymon_finish_jetson] has
    been through is refused by a second one: both return -1 with EINVAL and
    change neither the handle nor anything else in the process. *)
Theorem lifecycle_calls_out_of_order (h : host) (s : sys) :
  (∀ em' s',
     energymon_init_jetson h (Some (mkEm None)) s = ((0, em'), s') →
     energymon_init_jetson h em' s' = ((-1, em'), with_errno EINVAL s'))
  ∧ (∀ st r em' s',
       energymon_finish_jetson (Some (mkEm (Some st))) s = ((r, em'), s') →
       energymon_finish_jetson em' s' = ((-1, em'), with_errno EINVAL s')).
Proof.
  split.
  - intros em' s' Hinit.
    pose proof (init_success h s) as Hs. rewrite Hinit in Hs.
    destruct (Hs eq_refl) as (st & d & s1 & st' & _ & Hem & _). cbn in Hem. by subst.
  - intros st r em' s' Hfin.
    pose proof (finish_clears_handle _ st s eq_refl) as Hc. rewrite Hfin in Hc.
    cbn in Hc. by subst.
Qed.

(** X13 after the initialisation on a board with the rails VDD_IN and
    VDD_MUX. *)
Lemma lifecycle_calls_out_of_order_witness :
  let r := energymon_init_jetson host_plain (Some (mkEm None)) fresh_process in
  energymon_init_jetson host_plain r.1.2 r.2 = ((-1, r.1.2), with_errno EINVAL r.2).
Proof.
  apply (proj1 (lifecycle_calls_out_of_order host_plain fresh_process)).
  vm_compute. reflexivity.
Defined.

(** ** Rail names and their memory *)

Lemma get_rail_names_nonempty (str : list ascii) (s : sys) (names : list (list ascii)) :
  (get_rail_names str s).1 = Some names → names ≠ [].
Proof.
  unfold get_rail_names, strtok_to_arr_r. unfold_M.
  destruct (alloc_request s) as [[] s1]; cbn [negb]; [|done].
  destruct (heap_new s1) as [[] s2].
  pose proof (strtok_fill_result (strtok_all "," str []) None s2) as Hfill.
  destruct (strtok_fill (strtok_all "," str []) None s2) as [arr s3]. cbn [fst] in Hfill.
  destruct (heap_free 1 s3) as [[] s4].
  destruct arr as [arr|].
  2: { by destruct (errno s4 =? 0). }
  destruct (has_duplicate arr) eqn:Hdup; cbn; [done|].
  intros [= <-]. destruct Hfill as [|Hfill]; [done|].
  destruct (strtok_all "," str []) as [|tok rest]; [done|].
  injection Hfill as ->. done.
Qed.

(** X14: [get_rail_names] returns the names between the commas of the list,
    in order and without the empty ones, or NULL.  It returns NULL when two
    names are the same (EINVAL) and when the list holds no name; in that
    case [errno] becomes EINVAL only if it was 0 on entry.  When no
    allocation fails these are the only reasons for NULL. *)
Theorem get_rail_names_tokens (str : list ascii) (s : sys) :
  let names := strtok_all "," str [] in
  let r := get_rail_names str s in
  (∀ l, r.1 = Some l → l = names ∧ l ≠ [] ∧ ¬ duplicate_names l)
  ∧ (duplicate_names names ∨ names = [] → r.1 = None)
  ∧ (oom s = [] →
     if bool_decide (names = []) then
       r.1 = None ∧ errno r.2 = (if errno s =? 0 then EINVAL else errno s)
     else if has_duplicate names then r.1 = None ∧ errno r.2 = EINVAL
     else r.1 = Some names ∧ errno r.2 = errno s).
Proof.
  cbn zeta.
  assert (∀ l, (get_rail_names str s).1 = Some l →
               l = strtok_all "," str [] ∧ l ≠ [] ∧ ¬ duplicate_names l) as Hsome.
  { intros l Hl. destruct (get_rail_names_result str s l Hl) as [Heq Hnd].
    split; [done|]. split; [by apply (get_rail_names_nonempty str s)|].
    intros Hdup. apply has_duplicate_iff in Hdup. congruence. }
  split; [done|]. split.
  - intros Hbad. destruct (get_rail_names str s).1 as [l|] eqn:Hl; [|done].
    destruct (Hsome l eq_refl) as (-> & Hne & Hnd). by destruct Hbad.
  - intros Hoom. destruct s as [e t hp th o]. cbn in Hoom. subst o.
    rewrite get_rail_names_plentiful.
    destruct (strtok_all "," str []) as [|tok rest] eqn:Htoks.
    + by rewrite bool_decide_eq_true_2.
    + rewrite bool_decide_eq_false_2 by done.
      by destruct (has_duplicate (tok :: rest)).
Qed.

(** X15: whatever allocations fail, [strtok_to_arr_r] and [get_rail_names]
    leave allocated the array and the strings they return, and nothing when
    they return NULL; [free_rail_names] on the names returned brings the heap
    back to what it was.  [strtok_to_arr_r] returns NULL or all the tokens. *)
Theorem rail_names_memory_is_balanced (str : list ascii) (delim : ascii) (s : sys) :
  let blocks := λ r : option (list (list ascii)),
    match r with Some names => Z.of_nat (length names) + 1 | None => 0 end in
  let t := strtok_to_arr_r str delim s in
  let g := get_rail_names str s in
  heap t.2 = heap s + blocks t.1
  ∧ (t.1 = None ∨ (t.1 = Some (strtok_all delim str []) ∧ strtok_all delim str [] ≠ []))
  ∧ heap g.2 = heap s + blocks g.1
  ∧ (∀ names, g.1 = Some names → heap (free_rail_names names g.2).2 = heap s)
  ∧ fdtab t.2 = fdtab s ∧ fdtab g.2 = fdtab s.
Proof.
  cbn zeta.
  pose proof (strtok_fill_frame (strtok_all delim str []) None s) as (Hf & _ & Hh).
  pose proof (strtok_fill_result (strtok_all delim str []) None s) as Hres.
  pose proof (get_rail_names_frame str s) as (Hgf & _ & Hgh).
  unfold strtok_to_arr_r. cbn zeta in *.
  split_and!; try done.
  - rewrite Hh. destruct (strtok_fill _ None s).1; lia.
  - destruct Hres as [|Hres]; [by left|].
    destruct (strtok_all delim str []) as [|tok rest]; [by left|by right].
  - intros names Hnames. rewrite Hnames in Hgh.
    unfold free_rail_names, heap_free. cbn. lia.
Qed.

(** ** The total over a run *)

Lemma poll_tick_total_wrap (t : tick) (cdata : list ascii) (st : energymon_jetson) :
  0 ≤ total_uj st ≤ ULONG_MAX →
  total_uj (poll_tick t cdata st).1 = wrap64 (total_uj st + tick_energy t cdata st).
Proof.
  intros Hrange. rewrite poll_tick_total. unfold tick_energy.
  destruct (read_sensors t (used_fds st) cdata 0 0) as [[sum_mw err] cdata'].
  cbn [fst snd]. destruct (negb (err =? 0)); [|done].
  rewrite Z.add_0_r. symmetry. by apply wrap64_small.
Qed.

(** X16: over any run of the polling thread the total grows by the energies
    of the ticks, modulo 2^64 (a tick in which a read fails counts for 0, and
    the run ends at the first tick that finds the flag cleared), and no other
    field of the state changes. *)
Theorem total_is_sum_of_tick_energies (ticks : list tick) (cdata : list ascii)
    (st : energymon_jetson) :
  0 ≤ total_uj st ≤ ULONG_MAX →
  let st' := poll_loop ticks cdata st in
  total_uj st' = wrap64 (total_uj st + run_energy ticks cdata st)
  ∧ 0 ≤ run_energy ticks cdata st
  ∧ polling_delay_us st' = polling_delay_us st ∧ thread st' = thread st
  ∧ poll_sensors st' = poll_sensors st ∧ count st' = count st ∧ fds st' = fds st.
Proof.
  intros Hrange. cbn zeta. split; [|split; [|apply poll_loop_frame]].
  - revert cdata st Hrange. induction ticks as [|t rest IH]; intros cdata st Hrange.
    { cbn. rewrite Z.add_0_r. symmetry. by apply wrap64_small. }
    cbn [poll_loop run_energy]. destruct (tk_poll_sensors t).
    2: { rewrite Z.add_0_r. symmetry. by apply wrap64_small. }
    pose proof (poll_tick_total_wrap t cdata st Hrange) as Htick.
    destruct (poll_tick t cdata st) as [st1 cdata1]. cbn [fst snd] in *.
    rewrite IH by (rewrite Htick; apply wrap64_range).
    rewrite Htick, wrap64_add_l. f_equal. lia.
  - clear Hrange. revert cdata st. induction ticks as [|t rest IH]; intros cdata st; [done|].
    cbn [run_energy]. destruct (tk_poll_sensors t); [|done].
    pose proof (tick_energy_nonneg t cdata st). specialize (IH (poll_tick t cdata st).2
                                                             (poll_tick t cdata st).1). lia.
Qed.

(** X16 on three rails that read 500, 300 and 200 mW in two ticks 100 ms
    apart: 200000 uJ. *)
Lemma total_is_sum_of_tick_energies_witness :
  total_uj (poll_loop [tick_500_300_200; tick_500_300_200] (replicate 8 NUL) three_rails)
  = 200000.
Proof.
  destruct (total_is_sum_of_tick_energies [tick_500_300_200; tick_500_300_200]
              (replicate 8 NUL) three_rails) as [Htotal _].
  - vm_compute. split; congruence.
  - rewrite Htotal. vm_compute. reflexivity.
Defined.

(** ** What the default search returns *)

Lemma walk_default_profiles_all_or_none (h : host) (profiles : list (list (option string)))
    (fds : list Z) (n : nat) (d : Z) (s : sys) :
  let r := walk_default_profiles h profiles fds n d s in
  r.1.1.1.1 = 0 →
  (∃ p, p ∈ profiles ∧ r.1.1.2 = length (leading_names (Z.to_nat NUM_RAILS_DEFAULT_MAX) p))
  ∧ ((∀ j, (j < r.1.1.2)%nat → 0 < slot r.1.1.1.2 j)
     ∨ (∀ j, (j < r.1.1.2)%nat → slot r.1.1.1.2 j ≤ 0)).
Proof.
  revert fds n d s. induction profiles as [|p rest IH]; intros fds n d s.
  { cbn [walk_default_profiles]. unfold_M. cbn. lia. }
  cbn [walk_default_profiles]. unfold_M.
  destruct (ina3221x_walk_i2c_drivers_dir h _ fds d s) as [[[r fds1] d1] s1].
  destruct (negb (r =? 0)); [cbn; lia|].
  destruct (0 <? slot fds1 0).
  - destruct (some_missing fds1 _) eqn:Hmiss.
    + pose proof (close_and_clear_from_slots
                    (length (leading_names (Z.to_nat NUM_RAILS_DEFAULT_MAX) p)) 0 fds1 s1)
        as (_ & _ & _ & _ & Hslots).
      unfold close_and_clear_fds. unfold_M.
      destruct (close_and_clear_from fds1 0 _ s1) as [fds2 s2]. cbn [fst snd] in *.
      intros _. split; [exists p; split; [apply elem_of_cons; by left|done]|].
      right. intros j Hj. rewrite Hslots. rewrite bool_decide_eq_true_2 by lia. cbn.
      destruct (Z.ltb_spec 0 (slot fds1 j)); lia.
    + cbn. intros _. split; [exists p; split; [apply elem_of_cons; by left|done]|].
      left. by apply some_missing_false.
  - intros Hr. destruct (IH fds1 _ d1 s1 Hr) as [(p' & Hin & Hn) Hall].
    split; [|done]. exists p'. split; [apply elem_of_cons; by right|done].
Qed.



(** ** The shape of the rail names *)

Lemma strtok_all_tokens (delim : ascii) (s cur : list ascii) :
  Forall (λ c, c ≠ delim) cur →
  Forall (λ tok, tok ≠ [] ∧ Forall (λ c, c ≠ delim) tok) (strtok_all delim s cur).
Proof.
  revert cur. induction s as [|c r IH]; intros cur Hcur; cbn [strtok_all].
  - destruct cur as [|a cur']; [constructor|].
    constructor; [|constructor]. split.
    + intros Hnil. apply (f_equal length) in Hnil. rewrite length_rev in Hnil. done.
    + by apply Forall_rev.
  - destruct (Ascii.eqb_spec c delim) as [->|Hne].
    + destruct cur as [|a cur'].
      * apply IH. constructor.
      * constructor; [|apply IH; constructor]. split.
        -- intros Hnil. apply (f_equal length) in Hnil. rewrite length_rev in Hnil. done.
        -- by apply Forall_rev.
    + apply IH. by constructor.
Qed.

(** X18: every name that [get_rail_names] returns is a non-empty string
    without a comma, whatever the list looks like (commas at its ends, or
    several in a row). *)
Theorem rail_names_are_plain (str : list ascii) (s : sys) (names : list (list ascii)) :
  (get_rail_names str s).1 = Some names →
  Forall (λ name, name ≠ [] ∧ Forall (λ c, c ≠ ","%char) name) names.
Proof.
  intros Hnames. destruct (get_rail_names_result str s names Hnames) as [-> _].
  apply strtok_all_tokens. constructor.
Qed.

(** X18 on the list ",VDD_IN,,VDD_MUX,". *)
Lemma rail_names_are_plain_witness :
  Forall (λ name, name ≠ [] ∧ Forall (λ c, c ≠ ","%char) name)
    [chars "VDD_IN"; chars "VDD_MUX"].
Proof.
  apply (rail_names_are_plain (chars ",VDD_IN,,VDD_MUX,") fresh_process).
  vm_compute. reflexivity.
Defined.

(** * The other backends *)

Ltac unfold_MX :=
  unfold mbind, MX_bind, mret, MX_ret, lib_call, lift_M, update_X, get_errno, set_errno in *.

#[global] Arguments energymon_init_raplcap_ipg : simpl never.
#[global] Arguments energymon_finish_raplcap_ipg : simpl never.

(** ** energymon-raplcap-ipg *)

Lemma wrap32_range (z : Z) : 0 ≤ wrap32 z < 2 ^ 32.
Proof. unfold wrap32. apply Z.mod_pos_bound. lia. Qed.

Lemma lib_errno_frame (s : sys) (e : option Z) :
  same_footprint s (from_option (λ e, with_errno e s) s e).
Proof. by destruct e. Qed.

Lemma count_die_step (lib : raplcap_lib) (pkg : Z) (rest : list Z) (max_die dies : Z)
    (s : sys) (live : Z) :
  let s1 := from_option (λ e, with_errno e s) s (raplcap_get_num_die lib pkg).2 in
  let n := wrap32 (raplcap_get_num_die lib pkg).1 in
  let d := if n =? 0 then 1 else n in
  count_die lib (pkg :: rest) max_die dies (s, live) =
    if (n =? 0) && negb (errno s1 =? ENOSYS) then (None, (s1, live))
    else if pkg =? 0 then count_die lib rest d d (s1, live)
    else if negb (max_die =? d) then (None, (with_errno ENOSYS s1, live))
    else count_die lib rest max_die d (s1, live).
Proof.
  cbn [count_die]. unfold_MX. cbn [fst snd].
  destruct (_ && _); [done|]. destruct (pkg =? 0); [done|]. by destruct (negb _).
Qed.

(** The first loop after package 0: every package has the die count
    [max_die], or reports none and counts for one die. *)
Lemma count_die_rest (lib : raplcap_lib) (pkgs : list Z) (max_die dies : Z)
    (sx : sys * Z) :
  Forall (λ p, p ≠ 0) pkgs →
  let r := count_die lib pkgs max_die dies sx in
  same_footprint sx.1 r.2.1 ∧ r.2.2 = sx.2
  ∧ ∀ d, r.1 = Some d →
         d = (if pkgs is [] then dies else max_die)
         ∧ Forall (λ p, let n := wrap32 (raplcap_get_num_die lib p).1 in
                        n = max_die ∨ (n = 0 ∧ max_die = 1)) pkgs.
Proof.
  revert dies sx. induction pkgs as [|pkg rest IH]; intros dies sx Hnz.
  { cbn. split_and!; try done. by intros d [= <-]. }
  apply Forall_cons in Hnz as [Hpkg Hnz].
  destruct sx as [s live]. rewrite count_die_step. cbv zeta. cbn [fst snd].
  pose proof (lib_errno_frame s (raplcap_get_num_die lib pkg).2) as (Hf1 & Hh1 & Ht1).
  set (s1 := from_option (λ e, with_errno e s) s (raplcap_get_num_die lib pkg).2) in *.
  set (n := wrap32 (raplcap_get_num_die lib pkg).1).
  destruct ((n =? 0) && negb (errno s1 =? ENOSYS)) eqn:Hbad.
  { cbn. split_and!; try done. }
  apply Z.eqb_neq in Hpkg. rewrite Hpkg.
  destruct (Z.eqb_spec max_die (if n =? 0 then 1 else n)) as [Heq|Hne]; cbn [negb].
  2: { cbn. split_and!; try done. }
  specialize (IH (if n =? 0 then 1 else n) (s1, live) Hnz). cbn zeta in IH.
  cbn [fst snd] in IH. destruct IH as ((Hf & Hh & Ht) & Hl & Hres).
  split; [unfold same_footprint; by rewrite Hf, Hh, Ht|]. split; [done|].
  intros d Hd. destruct (Hres d Hd) as [Hd' Hall]. split.
  - destruct rest; [by rewrite Hd'|done].
  - constructor; [|done]. cbn zeta. fold n. destruct (Z.eqb_spec n 0); lia.
Qed.

Lemma seqZ_head (n : Z) : 0 < n → seqZ 0 n = 0 :: seqZ 1 (n - 1).
Proof. intros Hn. rewrite (seqZ_cons 0 n) by lia. f_equal. Qed.

(** The first loop over all the packages. *)
Lemma count_die_outcome (lib : raplcap_lib) (pkgs : Z) (sx : sys * Z) :
  0 < pkgs →
  let r := count_die lib (seqZ 0 pkgs) 0 0 sx in
  same_footprint sx.1 r.2.1 ∧ r.2.2 = sx.2
  ∧ ∀ d, r.1 = Some d →
         0 < d < 2 ^ 32
         ∧ ∀ p, 0 ≤ p < pkgs →
                let n := wrap32 (raplcap_get_num_die lib p).1 in
                n = d ∨ (n = 0 ∧ d = 1).
Proof.
  intros Hpkgs. rewrite seqZ_head by done.
  destruct sx as [s live]. rewrite count_die_step. cbv zeta. cbn [fst snd].
  pose proof (lib_errno_frame s (raplcap_get_num_die lib 0).2) as (Hf1 & Hh1 & Ht1).
  set (s1 := from_option (λ e, with_errno e s) s (raplcap_get_num_die lib 0).2) in *.
  set (n := wrap32 (raplcap_get_num_die lib 0).1).
  pose proof (wrap32_range (raplcap_get_num_die lib 0).1) as Hn. fold n in Hn.
  destruct ((n =? 0) && negb (errno s1 =? ENOSYS)) eqn:Hbad.
  { cbn. split_and!; try done. }
  cbn [Z.eqb].
  pose proof (count_die_rest lib (seqZ 1 (pkgs - 1)) (if n =? 0 then 1 else n)
                (if n =? 0 then 1 else n) (s1, live)) as Hrest.
  cbn zeta in Hrest. cbn [fst snd] in Hrest.
  destruct Hrest as ((Hf & Hh & Ht) & Hl & Hres).
  { apply Forall_forall. intros p Hp. apply elem_of_seqZ in Hp. lia. }
  split; [unfold same_footprint; by rewrite Hf, Hh, Ht|]. split; [done|].
  intros d Hd. destruct (Hres d Hd) as [Hd' Hall].
  assert (d = if n =? 0 then 1 else n) as Hdn by (by destruct (seqZ 1 (pkgs - 1))).
  split; [destruct (Z.eqb_spec n 0); lia|].
  intros p Hp. destruct (decide (p = 0)) as [->|Hp0].
  - cbn zeta. fold n. destruct (Z.eqb_spec n 0); lia.
  - rewrite Forall_forall in Hall. rewrite Hdn. apply Hall. apply elem_of_seqZ. lia.
Qed.

Lemma set_j_max_length (i : Z) (v : double) (ms : list raplcap_ipg_info) :
  length (set_j_max i v ms) = length ms.
Proof. unfold set_j_max. apply length_alter. Qed.

Lemma check_zone_outcome (lib : raplcap_lib) (pkg die : Z) (ms : list raplcap_ipg_info)
    (sx : sys * Z) :
  let r := check_zone lib pkg die ms sx in
  same_footprint sx.1 r.2.1 ∧ r.2.2 = sx.2
  ∧ ∀ ms', r.1 = Some ms' →
           length ms' = length ms
           ∧ 0 < to_int (raplcap_pd_is_zone_supported lib pkg die).1.
Proof.
  cbn zeta. unfold check_zone. unfold_MX. destruct sx as [s live]. cbn [fst snd].
  pose proof (lib_errno_frame s (raplcap_pd_is_zone_supported lib pkg die).2)
    as (Hf1 & Hh1 & Ht1).
  set (s1 := from_option (λ e, with_errno e s) s (raplcap_pd_is_zone_supported lib pkg die).2)
    in *.
  destruct (Z.ltb_spec (to_int (raplcap_pd_is_zone_supported lib pkg die).1) 0).
  { cbn. split_and!; try done. }
  destruct (Z.eqb_spec (to_int (raplcap_pd_is_zone_supported lib pkg die).1) 0).
  { cbn. split_and!; try done. }
  pose proof (lib_errno_frame s1 (raplcap_pd_get_energy_counter_max lib pkg die).2)
    as (Hf2 & Hh2 & Ht2).
  set (s2 := from_option (λ e, with_errno e s1) s1
               (raplcap_pd_get_energy_counter_max lib pkg die).2) in *.
  assert (same_footprint s s2) as Hfp by (unfold same_footprint; split_and!; congruence).
  destruct (SpecFloat.SFltb _ _); [destruct (errno _ =? ENOSYS)|]; cbn;
    (split; [done|]); (split; [done|]);
    intros ms'; try done; intros [= <-]; rewrite ?set_j_max_length; (split; [done|lia]).
Qed.

Lemma check_dies_outcome (lib : raplcap_lib) (pkg : Z) (dies : list Z)
    (ms : list raplcap_ipg_info) (sx : sys * Z) :
  let r := check_dies lib pkg dies ms sx in
  same_footprint sx.1 r.2.1 ∧ r.2.2 = sx.2
  ∧ ∀ ms', r.1 = Some ms' →
           length ms' = length ms
           ∧ Forall (λ die, 0 < to_int (raplcap_pd_is_zone_supported lib pkg die).1) dies.
Proof.
  revert ms sx. induction dies as [|die rest IH]; intros ms sx.
  { cbn. split_and!; try done. by intros ms' [= <-]. }
  cbn [check_dies]. unfold mbind, MX_bind.
  pose proof (check_zone_outcome lib pkg die ms sx) as ((Hf1 & Hh1 & Ht1) & Hl1 & Hres1).
  destruct (check_zone lib pkg die ms sx) as [[ms1|] sx1]; cbn [fst snd] in *.
  2: { cbn. split_and!; try done. }
  destruct (Hres1 ms1 eq_refl) as [Hlen1 Hsupp].
  destruct (IH ms1 sx1) as ((Hf & Hh & Ht) & Hl & Hres).
  split; [unfold same_footprint; by rewrite Hf, Hh, Ht|]. split; [congruence|].
  intros ms' Hms'. destruct (Hres ms' Hms') as [Hlen Hall]. split; [congruence|].
  by constructor.
Qed.

Lemma check_pkgs_outcome (lib : raplcap_lib) (pkgs : list Z) (dies : Z)
    (ms : list raplcap_ipg_info) (sx : sys * Z) :
  let r := check_pkgs lib pkgs dies ms sx in
  same_footprint sx.1 r.2.1 ∧ r.2.2 = sx.2
  ∧ ∀ ms', r.1 = Some ms' →
           length ms' = length ms
           ∧ Forall (λ pkg, ∀ die, 0 ≤ die < dies →
                            0 < to_int (raplcap_pd_is_zone_supported lib pkg die).1) pkgs.
Proof.
  revert ms sx. induction pkgs as [|pkg rest IH]; intros ms sx.
  { cbn. split_and!; try done. by intros ms' [= <-]. }
  cbn [check_pkgs]. unfold mbind, MX_bind.
  pose proof (check_dies_outcome lib pkg (seqZ 0 dies) ms sx)
    as ((Hf1 & Hh1 & Ht1) & Hl1 & Hres1).
  destruct (check_dies lib pkg (seqZ 0 dies) ms sx) as [[ms1|] sx1]; cbn [fst snd] in *.
  2: { cbn. split_and!; try done. }
  destruct (Hres1 ms1 eq_refl) as [Hlen1 Hsupp].
  destruct (IH ms1 sx1) as ((Hf & Hh & Ht) & Hl & Hres).
  split; [unfold same_footprint; by rewrite Hf, Hh, Ht|]. split; [congruence|].
  intros ms' Hms'. destruct (Hres ms' Hms') as [Hlen Hall]. split; [congruence|].
  constructor; [|done]. intros die Hdie. rewrite Forall_forall in Hsupp.
  apply Hsupp. apply elem_of_seqZ. lia.
Qed.

(** What [energymon_init_raplcap_ipg] leaves on an empty handle. *)
Lemma init_raplcap_ipg_outcome (lib : raplcap_lib) (s : sys) (contexts : Z) :
  let r := energymon_init_raplcap_ipg lib (Some (mkEmOf None)) (s, contexts) in
  (r.1 = (-1, Some (mkEmOf None)) ∧ same_footprint s r.2.1 ∧ r.2.2 = contexts)
  ∨ (∃ st, r.1 = (0, Some (mkEmOf (Some st)))
           ∧ fdtab r.2.1 = fdtab s ∧ heap r.2.1 = heap s + 1 ∧ threads r.2.1 = threads s
           ∧ r.2.2 = contexts + 1
           ∧ n_pkg st = wrap32 (raplcap_get_num_packages lib).1
           ∧ 0 < n_pkg st < 2 ^ 32 ∧ 0 < n_die st < 2 ^ 32
           ∧ n_msrs st = wrap32 (n_pkg st * n_die st)
           ∧ length (msrs st) = Z.to_nat (n_msrs st)
           ∧ to_int (raplcap_init lib).1 = 0
           ∧ ∀ pkg, 0 ≤ pkg < n_pkg st →
                    (let n := wrap32 (raplcap_get_num_die lib pkg).1 in
                     n = n_die st ∨ (n = 0 ∧ n_die st = 1))
                    ∧ ∀ die, 0 ≤ die < n_die st →
                             0 < to_int (raplcap_pd_is_zone_supported lib pkg die).1).
Proof.
  cbn zeta. unfold energymon_init_raplcap_ipg. unfold_MX. cbn [fst snd].
  pose proof (lib_errno_frame s (raplcap_get_num_packages lib).2) as (Hf1 & Hh1 & Ht1).
  set (s1 := from_option (λ e, with_errno e s) s (raplcap_get_num_packages lib).2) in *.
  pose proof (wrap32_range (raplcap_get_num_packages lib).1) as Hpk.
  set (pkgs := wrap32 (raplcap_get_num_packages lib).1) in *.
  destruct (Z.eqb_spec pkgs 0) as [|Hnz].
  { left. cbn. unfold same_footprint. split_and!; try done. }
  pose proof (count_die_outcome lib pkgs (s1, contexts) ltac:(lia))
    as ((Hf2 & Hh2 & Ht2) & Hl2 & Hres2).
  destruct (count_die lib (seqZ 0 pkgs) 0 0 (s1, contexts)) as [[dies|] [s2 c2]];
    cbn [fst snd] in *.
  2: { left. unfold same_footprint. split_and!; try done; congruence. }
  destruct (Hres2 dies eq_refl) as [Hdies Hhom].
  pose proof (alloc_request_frame s2) as (Hf3 & Hh3 & Ht3).
  destruct (alloc_request s2) as [[] s3]; cbn [negb fst snd] in *.
  2: { left. unfold same_footprint. split_and!; try done; congruence. }
  unfold heap_new. cbn [fst snd].
  pose proof (lib_errno_frame (with_heap (heap s3 + 1) s3) (raplcap_init lib).2)
    as (Hf4 & Hh4 & Ht4).
  set (s4 := from_option (λ e, with_errno e (with_heap (heap s3 + 1) s3))
               (with_heap (heap s3 + 1) s3) (raplcap_init lib).2) in *.
  cbn [heap fdtab threads with_heap] in Hf4, Hh4, Ht4.
  destruct (Z.eqb_spec (to_int (raplcap_init lib).1) 0) as [Hrc|Hrc]; cbn [negb].
  2: { left. unfold heap_free, same_footprint. cbn. split_and!; try done; try congruence. lia. }
  match goal with |- context [check_pkgs ?a ?b ?c ?d ?e] =>
    pose proof (check_pkgs_outcome a b c d e) as ((Hf5 & Hh5 & Ht5) & Hl5 & Hres5);
    destruct (check_pkgs a b c d e) as [[ms|] [s5 c5]]
  end; cbn [fst snd] in *.
  - right. destruct (Hres5 ms eq_refl) as [Hlen Hsupp]. rewrite length_replicate in Hlen.
    eexists. split; [reflexivity|]. cbn. split_and!; try done; try congruence; try lia.
    intros pkg Hpkg. split; [by apply Hhom|].
    rewrite Forall_forall in Hsupp. apply Hsupp. apply elem_of_seqZ. lia.
  - left. unfold raplcap_ipg_fail, rapl_destroy, same_footprint. unfold_MX. cbn.
    split_and!; try done.
    + destruct (raplcap_destroy lib).2; cbn; congruence.
    + destruct (raplcap_destroy lib).2; cbn; lia.
    + destruct (raplcap_destroy lib).2; cbn; congruence.
    + lia.
Qed.

(** X19: [energymon_init_raplcap_ipg] on an empty handle either returns -1
    and leaves the handle, the heap and the contexts of the library as they
    were, or returns 0 with a state of [n_pkg * n_die] entries (in 32 bits)
    for the number of packages the library reports, one more heap block and
    one more context. *)
Theorem init_raplcap_ipg_all_or_nothing (lib : raplcap_lib) (s : sys) (contexts : Z) :
  let r := energymon_init_raplcap_ipg lib (Some (mkEmOf None)) (s, contexts) in
  (r.1 = (-1, Some (mkEmOf None)) ∧ same_footprint s r.2.1 ∧ r.2.2 = contexts)
  ∨ (∃ st, r.1 = (0, Some (mkEmOf (Some st)))
           ∧ heap r.2.1 = heap s + 1 ∧ r.2.2 = contexts + 1
           ∧ n_pkg st = wrap32 (raplcap_get_num_packages lib).1
           ∧ 0 < n_pkg st ∧ 0 < n_die st
           ∧ n_msrs st = wrap32 (n_pkg st * n_die st)
           ∧ length (msrs st) = Z.to_nat (n_msrs st)).
Proof.
  cbn zeta. destruct (init_raplcap_ipg_outcome lib s contexts)
    as [|(st & Hr & _ & Hh & _ & Hc & Hp & Hpr & Hdr & Hm & Hl & _)]; [by left|].
  right. exists st. split_and!; try done; lia.
Qed.

(** X20: [energymon_init_raplcap_ipg] returns 0 only if [raplcap_init]
    succeeds, every package has the same number of die (a package for which
    the library reports none counting for one die), and the PACKAGE zone of
    every die of every package is supported. *)
Theorem init_raplcap_ipg_success_needs (lib : raplcap_lib) (s : sys) (contexts : Z)
    (st : energymon_raplcap_ipg) (sx' : sys * Z) :
  energymon_init_raplcap_ipg lib (Some (mkEmOf None)) (s, contexts)
  = ((0, Some (mkEmOf (Some st))), sx') →
  to_int (raplcap_init lib).1 = 0
  ∧ ∀ pkg, 0 ≤ pkg < n_pkg st →
           (let n := wrap32 (raplcap_get_num_die lib pkg).1 in
            n = n_die st ∨ (n = 0 ∧ n_die st = 1))
           ∧ ∀ die, 0 ≤ die < n_die st →
                    0 < to_int (raplcap_pd_is_zone_supported lib pkg die).1.
Proof.
  intros Hinit. destruct (init_raplcap_ipg_outcome lib s contexts)
    as [[Hr _]|(st' & Hr & _ & _ & _ & _ & _ & _ & _ & _ & _ & Hrc & Hall)];
    rewrite Hinit in Hr; cbn in Hr; [congruence|].
  injection Hr as <-. done.
Qed.

(** X20 on a machine with two packages. *)
Lemma init_raplcap_ipg_success_needs_witness :
  to_int (raplcap_init raplcap_two_packages).1 = 0
  ∧ ∀ pkg, 0 ≤ pkg < 2 →
           (let n := wrap32 (raplcap_get_num_die raplcap_two_packages pkg).1 in
            n = 1 ∨ (n = 0 ∧ 1 = 1))
           ∧ ∀ die, 0 ≤ die < 1 →
                    0 < to_int (raplcap_pd_is_zone_supported raplcap_two_packages pkg die).1.
Proof.
  apply (init_raplcap_ipg_success_needs raplcap_two_packages fresh_process 0
           (mkRapl 2 1 2 [mkInfo double_0 (SpecFloat.S754_finite false 4503599627370496 (-34)) 0;
                          mkInfo double_0 double_0 0])
           (with_heap 1 (with_errno ENOSYS fresh_process), 1)).
  vm_compute. reflexivity.
Defined.

Lemma msrs_index_value (pkgs dies pkg die : Z) :
  0 ≤ pkg < pkgs → 0 ≤ die < dies → pkgs * dies < 2 ^ 32 →
  msrs_index pkg die = (pkg + 1) * die ∧ (pkg + 1) * die < pkgs * dies.
Proof.
  intros Hpkg Hdie Hfit.
  assert ((pkg + 1) * die < pkgs * dies) as Hlt by nia.
  split; [|done]. unfold msrs_index, wrap32.
  rewrite Zplus_mod_idemp_l. rewrite Z.mod_small; nia.
Qed.

(** X21: the entry used for die [die] of package [pkg] is entry
    [(pkg + 1) * die]; in a state that the initialisation has set up, and
    whose [n_pkg * n_die] fits 32 bits, it lies inside the array for every
    package and die of the state. *)
Theorem msrs_index_stays_inside (lib : raplcap_lib) (s : sys) (contexts : Z)
    (st : energymon_raplcap_ipg) (sx' : sys * Z) (pkg die : Z) :
  energymon_init_raplcap_ipg lib (Some (mkEmOf None)) (s, contexts)
  = ((0, Some (mkEmOf (Some st))), sx') →
  n_pkg st * n_die st < 2 ^ 32 →
  0 ≤ pkg < n_pkg st → 0 ≤ die < n_die st →
  msrs_index pkg die = (pkg + 1) * die
  ∧ is_Some (msrs st !! Z.to_nat (msrs_index pkg die)).
Proof.
  intros Hinit Hfit Hpkg Hdie.
  destruct (init_raplcap_ipg_outcome lib s contexts)
    as [[Hr _]|(st' & Hr & _ & _ & _ & _ & _ & Hp & Hd & Hm & Hl & _)];
    rewrite Hinit in Hr; cbn in Hr; [congruence|].
  injection Hr as <-.
  destruct (msrs_index_value (n_pkg st) (n_die st) pkg die Hpkg Hdie Hfit) as [Hi Hlt].
  split; [done|]. apply lookup_lt_is_Some. rewrite Hl, Hm, Hi.
  unfold wrap32. rewrite (Z.mod_small (n_pkg st * n_die st)) by nia. nia.
Qed.

(** X21 on a machine with two packages: the die of the second package uses
    entry 0, as the die of the first. *)
Lemma msrs_index_stays_inside_witness :
  msrs_index 1 0 = (1 + 1) * 0
  ∧ is_Some ([mkInfo double_0 (SpecFloat.S754_finite false 4503599627370496 (-34)) 0;
              mkInfo double_0 double_0 0] !! Z.to_nat (msrs_index 1 0)).
Proof.
  apply (msrs_index_stays_inside raplcap_two_packages fresh_process 0
           (mkRapl 2 1 2 [mkInfo double_0 (SpecFloat.S754_finite false 4503599627370496 (-34)) 0;
                          mkInfo double_0 double_0 0])
           (with_heap 1 (with_errno ENOSYS fresh_process), 1) 1 0).
  - vm_compute. reflexivity.
  - vm_compute. reflexivity.
  - cbn. lia.
  - cbn. lia.
Defined.

(** X22: after a successful [energymon_init_raplcap_ipg] the interval is
    1000 us and the precision 1, and [energymon_finish_raplcap_ipg] returns
    what [raplcap_destroy] returns, clears the handle and leaves the heap
    and the contexts of the library as they were before the
    initialisation. *)
Theorem raplcap_ipg_init_then_finish (lib : raplcap_lib) (s : sys) (contexts : Z) :
  let r := energymon_init_raplcap_ipg lib (Some (mkEmOf None)) (s, contexts) in
  r.1.1 = 0 →
  let f := energymon_finish_raplcap_ipg lib r.1.2 r.2 in
  (energymon_get_interval_raplcap_ipg r.1.2 r.2.1).1 = 1000
  ∧ (energymon_get_precision_raplcap_ipg r.1.2 r.2.1).1 = 1
  ∧ f.1 = (to_int (raplcap_destroy lib).1, Some (mkEmOf None))
  ∧ same_footprint s f.2.1 ∧ f.2.2 = contexts.
Proof.
  cbn zeta. destruct (init_raplcap_ipg_outcome lib s contexts)
    as [[Hr _]|(st & Hr & Hf & Hh & Ht & Hc & _)]; rewrite Hr; cbn [fst snd]; [lia|].
  intros _. destruct (energymon_init_raplcap_ipg lib _ (s, contexts)) as [r [s1 c1]].
  cbn [fst snd] in *. subst c1.
  unfold energymon_finish_raplcap_ipg, rapl_destroy, same_footprint. unfold_MX. cbn.
  split_and!; try done; try lia.
  - destruct (raplcap_destroy lib).2; cbn; congruence.
  - destruct (raplcap_destroy lib).2; cbn; lia.
  - destruct (raplcap_destroy lib).2; cbn; congruence.
Qed.

(** X22 on a machine with two packages. *)
Lemma raplcap_ipg_init_then_finish_witness :
  let r := energymon_init_raplcap_ipg raplcap_two_packages (Some (mkEmOf None))
             (fresh_process, 0) in
  let f := energymon_finish_raplcap_ipg raplcap_two_packages r.1.2 r.2 in
  (energymon_get_interval_raplcap_ipg r.1.2 r.2.1).1 = 1000
  ∧ (energymon_get_precision_raplcap_ipg r.1.2 r.2.1).1 = 1
  ∧ f.1 = (to_int (raplcap_destroy raplcap_two_packages).1, Some (mkEmOf None))
  ∧ same_footprint fresh_process f.2.1 ∧ f.2.2 = 0.
Proof.
  apply (raplcap_ipg_init_then_finish raplcap_two_packages fresh_process 0).
  vm_compute. reflexivity.
Defined.

(** ** em-osp *)

#[global] Arguments energymon_init_osp : simpl never.
#[global] Arguments energymon_finish_osp : simpl never.

Lemma hid_write_fails_spec (data : list Z) (s : sys) (w : hid_world) :
  ∃ failed w',
    hid_write_fails data (s, w) = (failed, (s, w'))
    ∧ hid_inits w' = hid_inits w ∧ hid_devices w' = hid_devices w
    ∧ hid_sent w' = (if failed then hid_sent w else hid_sent w ++ [data])
    ∧ hid_reads w' = hid_reads w.
Proof.
  unfold hid_write_fails. cbn [fst snd].
  destruct (hid_writes w) as [|[] rest]; by eexists _, _.
Qed.

Lemma hid_read_into_spec (b : list Z) (s : sys) (w : hid_world) :
  ∃ failed b' w',
    hid_read_into b (s, w) = ((failed, b'), (s, w'))
    ∧ length b' = length b
    ∧ hid_inits w' = hid_inits w ∧ hid_devices w' = hid_devices w
    ∧ hid_sent w' = hid_sent w.
Proof.
  unfold hid_read_into. cbn [fst snd].
  destruct (hid_reads w) as [|[data|] rest]; eexists _, _, _; (split; [done|]);
    split_and!; try done.
  rewrite length_app, length_drop, length_take. lia.
Qed.

Lemma hid_read_into_reads (b : list Z) (s s' : sys) (w w' : hid_world) :
  hid_reads w = hid_reads w' →
  (hid_read_into b (s, w)).1.2 = (hid_read_into b (s', w')).1.2.
Proof.
  intros Heq. unfold hid_read_into. cbn [fst snd]. rewrite Heq.
  by destruct (hid_reads w') as [|[data|] rest].
Qed.

Lemma osp_report_of_buf (code : Z) (b : list Z) :
  length b = OSP_MAX_STR → <[1%nat := code]> (osp_clear_buf b) = osp_report code.
Proof.
  intros Hlen. unfold osp_clear_buf, osp_report. rewrite Hlen.
  destruct b as [|b0 [|b1 rest]]; try discriminate Hlen. reflexivity.
Qed.

(** One request for a status or for data. *)
Lemma osp_request_spec (code : Z) (b : list Z) (s : sys) (w : hid_world) :
  length b = OSP_MAX_STR →
  ∃ r b' w',
    osp_request code b (s, w) = ((r, b'), (s, w'))
    ∧ (r = 0 ∨ r = -1) ∧ length b' = OSP_MAX_STR
    ∧ hid_inits w' = hid_inits w ∧ hid_devices w' = hid_devices w
    ∧ (r = 0 →
       hid_sent w' = hid_sent w ++ [osp_report code]
       ∧ b' = (hid_read_into (osp_report code) (s, w)).1.2).
Proof.
  intros Hlen. unfold osp_request. unfold_MX.
  rewrite osp_report_of_buf by done.
  destruct (hid_write_fails_spec (osp_report code) s w)
    as (failed & w1 & -> & Hi1 & Hd1 & Hs1 & Hr1).
  destruct failed.
  { eexists _, _, _. split; [done|]. split_and!; try done; try (by right); lia. }
  pose proof (hid_read_into_reads (osp_report code) s s w1 w Hr1) as Hsame.
  destruct (hid_read_into_spec (osp_report code) s w1)
    as (failed & b' & w2 & Hread & Hlen2 & Hi2 & Hd2 & Hs2).
  rewrite Hread in Hsame |- *. cbn [fst snd] in Hsame.
  eexists _, _, _. split; [done|]. cbn [fst snd].
  split_and!; try congruence.
  - destruct failed; auto.
  - by rewrite Hlen2.
  - intros _. split; congruence.
Qed.

Lemma em_osp_request_start_stop_spec (b : list Z) (started : Z) (s : sys) (w : hid_world) :
  length b = OSP_MAX_STR →
  ∃ r w',
    em_osp_request_start_stop b started (s, w)
    = ((r, <[1%nat := OSP_REQUEST_STARTSTOP]> b), (s, w'))
    ∧ (r = 0 ∨ r = -1)
    ∧ hid_inits w' = hid_inits w ∧ hid_devices w' = hid_devices w
    ∧ (r = 0 →
       hid_sent w' = hid_sent w ++ replicate (if started =? 0 then 2 else 1)
                                     (<[1%nat := OSP_REQUEST_STARTSTOP]> b)).
Proof.
  intros Hlen. unfold em_osp_request_start_stop. unfold_MX.
  destruct (started =? 0).
  - destruct (hid_write_fails_spec (<[1%nat := OSP_REQUEST_STARTSTOP]> b) s w)
      as (failed & w1 & -> & Hi1 & Hd1 & Hs1 & Hr1).
    destruct failed; cbn [fst snd Z.ltb Z.compare].
    { eexists _, _. split; [done|]. split_and!; try done; try (by right); lia. }
    rewrite list_insert_insert_eq.
    destruct (hid_write_fails_spec (<[1%nat := OSP_REQUEST_STARTSTOP]> b) s w1)
      as (failed & w2 & -> & Hi2 & Hd2 & Hs2 & Hr2).
    eexists _, _. split; [done|]. split_and!; try congruence.
    + destruct failed; auto.
    + destruct failed; [intros; lia|]. intros _. rewrite Hs2, Hs1. cbn. by rewrite <- app_assoc.
  - cbn [fst snd Z.ltb Z.compare].
    destruct (hid_write_fails_spec (<[1%nat := OSP_REQUEST_STARTSTOP]> b) s w)
      as (failed & w1 & -> & Hi1 & Hd1 & Hs1 & Hr1).
    eexists _, _. split; [done|]. split_and!; try congruence.
    + destruct failed; auto.
    + destruct failed; [intros; lia|]. intros _. by rewrite Hs1.
Qed.

Lemma osp_fresh_buf_length (lib : hid_lib) :
  length (osp_clear_buf (take OSP_MAX_STR (hid_fresh_bytes lib ++ replicate OSP_MAX_STR 0)))
  = OSP_MAX_STR.
Proof.
  unfold osp_clear_buf. rewrite length_insert, length_app, length_replicate.
  rewrite !length_take, length_app, length_replicate. unfold OSP_MAX_STR. lia.
Qed.

(** What [energymon_init_osp] leaves on an empty handle: [malloc] failed;
    or [hid_init] or [hid_open] failed; or a request failed; or all went
    well. *)
Lemma init_osp_outcome (lib : hid_lib) (s : sys) (w : hid_world) :
  let r := energymon_init_osp lib (Some StateNull) (s, w) in
  let status := (hid_read_into (osp_report OSP_REQUEST_STATUS) (s, w)).1.2 in
  (r.1 = (-1, Some StateNull) ∧ same_footprint s r.2.1
   ∧ hid_inits r.2.2 = hid_inits w ∧ hid_devices r.2.2 = hid_devices w)
  ∨ (∃ em, r.1 = (-1, Some (StateLive em)) ∧ device em ≠ DeviceOpen
           ∧ heap r.2.1 = heap s + 1
           ∧ hid_inits r.2.2
             = hid_inits w + (if device em is DeviceNull then 1 else 0)
           ∧ hid_devices r.2.2 = hid_devices w
           ∧ hid_sent r.2.2 = hid_sent w)
  ∨ (r.1 = (-1, Some StateFreed) ∧ heap r.2.1 = heap s
     ∧ hid_inits r.2.2 = hid_inits w ∧ hid_devices r.2.2 = hid_devices w)
  ∨ (∃ b, r.1 = (0, Some (StateLive (mkOsp DeviceOpen b)))
          ∧ length b = OSP_MAX_STR
          ∧ heap r.2.1 = heap s + 1
          ∧ hid_inits r.2.2 = hid_inits w + 1
          ∧ hid_devices r.2.2 = hid_devices w + 1
          ∧ hid_sent r.2.2
            = hid_sent w
              ++ [osp_report OSP_REQUEST_STATUS]
              ++ replicate (if default 0 (status !! 1%nat) =? 1 then 1 else 2)
                   (<[1%nat := OSP_REQUEST_STARTSTOP]> status)
              ++ [osp_report OSP_REQUEST_DATA; osp_report OSP_REQUEST_DATA]).
Proof.
  cbn zeta. unfold energymon_init_osp. unfold_MX. cbn [fst snd].
  pose proof (alloc_request_frame s) as (Hf1 & Hh1 & Ht1).
  destruct (alloc_request s) as [[] s1]; cbn [negb fst snd] in *.
  2: { left. unfold same_footprint. done. }
  unfold heap_new. cbn [fst snd].
  pose proof (osp_fresh_buf_length lib) as Hb0.
  set (b0 := osp_clear_buf _) in *.
  unfold hid_init. unfold_MX.
  destruct (hid_init_result lib =? 0) eqn:Hinit; cbn [fst snd negb Z.eqb]; rewrite ?Hinit;
    cbn [negb].
  2: { right. left. eexists. split; [done|]. cbn. split_and!; try done; lia. }
  unfold hid_open. unfold_MX. destruct (hid_open_finds lib); cbn [fst snd].
  2: { right. left. eexists. split; [done|]. cbn. split_and!; try done; lia. }
  unfold em_osp_request_status, em_osp_request_data.
  match goal with |- context [osp_request ?c b0 (?s', ?w')] =>
    destruct (osp_request_spec c b0 s' w' Hb0)
      as (r1 & b1 & w1 & -> & Hr1 & Hlen1 & Hi1 & Hd1 & Hs1)
  end.
  cbn [fst snd hid_inits hid_devices hid_sent] in *.
  assert (∀ b s' w', hid_inits w' = hid_inits w + 1 → hid_devices w' = hid_devices w + 1 →
            heap s' = heap s + 1 →
            let a := osp_init_abort lib b (s', w') in
            a.1 = (-1, Some StateFreed) ∧ heap a.2.1 = heap s
            ∧ hid_inits a.2.2 = hid_inits w ∧ hid_devices a.2.2 = hid_devices w) as Habort.
  { intros b s' w' Hi Hd Hh. unfold osp_init_abort, energymon_finish_osp, hid_close, hid_exit.
    unfold_MX. unfold heap_free. cbn. split_and!; try done; lia. }
  destruct Hr1 as [->| ->]; cbn [Z.eqb negb].
  2: { right. right. left. apply Habort; cbn; lia. }
  destruct (Hs1 eq_refl) as [Hsent1 Hb1]. clear Hs1.
  match goal with |- context [em_osp_request_start_stop b1 ?st (?s', ?w')] =>
    destruct (em_osp_request_start_stop_spec b1 st s' w' Hlen1)
      as (r2 & w2 & -> & Hr2 & Hi2 & Hd2 & Hs2)
  end.
  cbn [fst snd] in *.
  assert (length (<[1%nat := OSP_REQUEST_STARTSTOP]> b1) = OSP_MAX_STR) as Hlen2
    by (by rewrite length_insert).
  destruct Hr2 as [->| ->]; cbn [Z.eqb negb].
  2: { right. right. left. apply Habort; cbn; lia. }
  specialize (Hs2 eq_refl).
  match goal with |- context [osp_request ?c ?b (?s', w2)] =>
    destruct (osp_request_spec c b s' w2 Hlen2)
      as (r3 & b3 & w3 & -> & Hr3 & Hlen3 & Hi3 & Hd3 & Hs3)
  end.
  cbn [fst snd] in *.
  destruct Hr3 as [->| ->]; cbn [Z.eqb negb].
  2: { right. right. left. apply Habort; cbn; lia. }
  destruct (Hs3 eq_refl) as [Hsent3 _]. clear Hs3.
  match goal with |- context [osp_request ?c b3 (?s', w3)] =>
    destruct (osp_request_spec c b3 s' w3 Hlen3)
      as (r4 & b4 & w4 & -> & Hr4 & Hlen4 & Hi4 & Hd4 & Hs4)
  end.
  cbn [fst snd] in *.
  destruct Hr4 as [->| ->]; cbn [Z.eqb negb].
  2: { right. right. left. apply Habort; cbn; lia. }
  destruct (Hs4 eq_refl) as [Hsent4 _]. clear Hs4.
  right. right. right. exists b4. split; [done|]. cbn [fst snd heap with_heap].
  split_and!; try done; try lia.
  rewrite Hsent4, Hsent3, Hs2, Hsent1. rewrite <- !app_assoc. cbn [app].
  f_equal. f_equal.
  assert (b1 = (hid_read_into (osp_report OSP_REQUEST_STATUS) (s, w)).1.2) as <-.
  { rewrite Hb1. apply hid_read_into_reads. done. }
  destruct (default 0 (b1 !! 1%nat) =? 1); cbn [Z.eqb]; done.
Qed.

(** X23: when [energymon_init_osp] returns 0, the reports it has written
    to the device are, in order: a status request; the start/stop request,
    once if the second byte of the status reply is 1 and twice otherwise,
    made of the bytes of the status reply with the second byte replaced; and
    two data requests.  The state holds the open device and one block. *)
Theorem init_osp_transcript (lib : hid_lib) (s : sys) (w : hid_world) :
  let r := energymon_init_osp lib (Some StateNull) (s, w) in
  let status := (hid_read_into (osp_report OSP_REQUEST_STATUS) (s, w)).1.2 in
  r.1.1 = 0 →
  hid_sent r.2.2
  = hid_sent w
    ++ [osp_report OSP_REQUEST_STATUS]
    ++ replicate (if default 0 (status !! 1%nat) =? 1 then 1 else 2)
         (<[1%nat := OSP_REQUEST_STARTSTOP]> status)
    ++ [osp_report OSP_REQUEST_DATA; osp_report OSP_REQUEST_DATA]
  ∧ (∃ b, r.1.2 = Some (StateLive (mkOsp DeviceOpen b)) ∧ length b = OSP_MAX_STR)
  ∧ heap r.2.1 = heap s + 1
  ∧ hid_inits r.2.2 = hid_inits w + 1
  ∧ hid_devices r.2.2 = hid_devices w + 1.
Proof.
  cbn zeta. intros Hr.
  destruct (init_osp_outcome lib s w)
    as [[Hx _]|[(em & Hx & _)|[[Hx _]|(b & Hx & Hlen & Hh & Hi & Hd & Hs)]]];
    rewrite Hx in Hr; cbn in Hr; try lia.
  rewrite Hx. cbn [fst snd]. split_and!; try done. by exists b.
Qed.

(** X23 on a Smart Power that reports to be started: one start/stop
    request is written. *)
Lemma init_osp_transcript_witness :
  let w := mkHidWorld 0 0 [] [] (smart_power_replies 1) in
  let r := energymon_init_osp hid_smart_power (Some StateNull) (fresh_process, w) in
  hid_sent r.2.2
  = [osp_report OSP_REQUEST_STATUS;
     (OSP_REQUEST_STATUS :: OSP_REQUEST_STARTSTOP :: replicate 63 0)%list;
     osp_report OSP_REQUEST_DATA; osp_report OSP_REQUEST_DATA].
Proof.
  cbn zeta.
  destruct (init_osp_transcript hid_smart_power fresh_process
              (mkHidWorld 0 0 [] [] (smart_power_replies 1))) as [Hsent _].
  - vm_compute. reflexivity.
  - rewrite Hsent. vm_compute. reflexivity.
Defined.

(** X24: when [energymon_init_osp] returns -1 on an empty handle, no device
    is left open, but the handle is empty again only if [malloc] failed:
    after a failure of [hid_init] or [hid_open] the state stays allocated and
    in the handle, and after a failed request the handle points to the state
    that has been freed.  In both cases a new [energymon_init_osp] on the
    handle returns -1 at once. *)
Theorem failed_init_osp_keeps_state (lib : hid_lib) (s : sys) (w : hid_world) :
  let r := energymon_init_osp lib (Some StateNull) (s, w) in
  r.1.1 = -1 →
  hid_devices r.2.2 = hid_devices w
  ∧ ((r.1.2 = Some StateNull ∧ same_footprint s r.2.1 ∧ hid_inits r.2.2 = hid_inits w)
     ∨ (∃ em, r.1.2 = Some (StateLive em) ∧ device em ≠ DeviceOpen
              ∧ heap r.2.1 = heap s + 1
              ∧ hid_inits r.2.2
                = hid_inits w + (if device em is DeviceNull then 1 else 0))
     ∨ (r.1.2 = Some StateFreed ∧ heap r.2.1 = heap s ∧ hid_inits r.2.2 = hid_inits w))
  ∧ (r.1.2 ≠ Some StateNull →
     energymon_init_osp lib r.1.2 r.2 = ((-1, r.1.2), r.2)).
Proof.
  cbn zeta. intros Hr.
  destruct (init_osp_outcome lib s w)
    as [(Hx & Hf & Hi & Hd)|[(em & Hx & Hdev & Hh & Hi & Hd & _)
                            |[(Hx & Hh & Hi & Hd)|(b & Hx & _)]]];
    rewrite Hx in Hr |- *; cbn [fst snd] in *; try lia.
  - split; [done|]. split; [by left|]. done.
  - split; [done|]. split; [right; left; by exists em|]. done.
  - split; [done|]. split; [right; right; done|]. done.
Qed.

(** X24 when no Smart Power is plugged in: the state stays allocated. *)
Lemma failed_init_osp_keeps_state_witness :
  let r := energymon_init_osp (mkHidLib 0 false 0 []) (Some StateNull)
             (fresh_process, mkHidWorld 0 0 [] [] []) in
  r.1.2 ≠ Some StateNull ∧ heap r.2.1 = 1 ∧ hid_inits r.2.2 = 1
  ∧ energymon_init_osp (mkHidLib 0 false 0 []) r.1.2 r.2 = ((-1, r.1.2), r.2).
Proof.
  cbn zeta.
  destruct (failed_init_osp_keeps_state (mkHidLib 0 false 0 []) fresh_process
              (mkHidWorld 0 0 [] [] [])) as (_ & _ & Hagain).
  - vm_compute. reflexivity.
  - split; [vm_compute; congruence|]. split; [vm_compute; reflexivity|].
    split; [vm_compute; reflexivity|]. apply Hagain. vm_compute. congruence.
Defined.

(** X25: after a successful [energymon_init_osp], [energymon_finish_osp]
    returns 0, closes the device, undoes [hid_init], frees the state and
    writes nothing to the device; but it leaves the handle pointing to the
    freed state, so that a second [energymon_finish_osp] reads freed memory
    and a new [energymon_init_osp] returns -1. *)
Theorem osp_init_then_finish (lib : hid_lib) (s : sys) (w : hid_world) :
  let r := energymon_init_osp lib (Some StateNull) (s, w) in
  r.1.1 = 0 →
  let f := energymon_finish_osp lib r.1.2 r.2 in
  f.1 = Some (0, Some StateFreed)
  ∧ heap f.2.1 = heap s
  ∧ hid_inits f.2.2 = hid_inits w ∧ hid_devices f.2.2 = hid_devices w
  ∧ hid_sent f.2.2 = hid_sent r.2.2
  ∧ energymon_finish_osp lib (Some StateFreed) f.2 = (None, f.2)
  ∧ energymon_init_osp lib (Some StateFreed) f.2 = ((-1, Some StateFreed), f.2)
  ∧ energymon_get_interval_osp r.1.2 = 200000.
Proof.
  cbn zeta. intros Hr.
  destruct (init_osp_outcome lib s w)
    as [[Hx _]|[(em & Hx & _)|[[Hx _]|(b & Hx & Hlen & Hh & Hi & Hd & Hs)]]];
    rewrite Hx in Hr; cbn in Hr; try lia.
  destruct (energymon_init_osp lib (Some StateNull) (s, w)) as [r [s1 w1]].
  cbn [fst snd] in *. subst r.
  unfold energymon_finish_osp, hid_close, hid_exit, heap_free. unfold_MX. cbn.
  split_and!; try done; lia.
Qed.

(** X25 on a Smart Power that reports to be stopped. *)
Lemma osp_init_then_finish_witness :
  let w := mkHidWorld 0 0 [] [] (smart_power_replies 0) in
  let r := energymon_init_osp hid_smart_power (Some StateNull) (fresh_process, w) in
  let f := energymon_finish_osp hid_smart_power r.1.2 r.2 in
  f.1 = Some (0, Some StateFreed)
  ∧ heap f.2.1 = heap fresh_process
  ∧ hid_inits f.2.2 = 0 ∧ hid_devices f.2.2 = 0
  ∧ hid_sent f.2.2 = hid_sent r.2.2
  ∧ energymon_finish_osp hid_smart_power (Some StateFreed) f.2 = (None, f.2)
  ∧ energymon_init_osp hid_smart_power (Some StateFreed) f.2 = ((-1, Some StateFreed), f.2)
  ∧ energymon_get_interval_osp r.1.2 = 200000.
Proof.
  apply (osp_init_then_finish hid_smart_power fresh_process
           (mkHidWorld 0 0 [] [] (smart_power_replies 0))).
  vm_compute. reflexivity.
Defined.

Lemma c_str_no_nul (l : list ascii) : Forall (λ c, c ≠ NUL) (c_str l).
Proof.
  induction l as [|c r IH]; cbn; [constructor|].
  destruct (Ascii.eqb_spec c NUL); [constructor|]. by constructor.
Qed.

Lemma c_str_app_plain (l1 l2 : list ascii) :
  Forall (λ c, c ≠ NUL) l1 → c_str (l1 ++ l2) = (l1 ++ c_str l2)%list.
Proof.
  induction 1 as [|c l1 Hc _ IH]; cbn; [done|].
  apply Ascii.eqb_neq in Hc. by rewrite Hc, IH.
Qed.

Lemma strncpy_string (dest src : list ascii) (n : nat) :
  (n ≤ length dest)%nat →
  length (strncpy dest src n) = length dest
  ∧ drop n (strncpy dest src n) = drop n dest
  ∧ c_str (strncpy dest src n)
    = if decide (length (c_str src) < n)%nat then c_str src
      else (take n (c_str src) ++ c_str (drop n dest))%list.
Proof.
  intros Hn. unfold strncpy.
  assert (length (take n (c_str src ++ replicate n NUL)) = n) as Hlen.
  { rewrite length_take, length_app, length_replicate. lia. }
  split_and!.
  - rewrite length_app, length_drop, Hlen. lia.
  - rewrite drop_app_length'; done.
  - destruct (decide (length (c_str src) < n)%nat) as [Hlt|Hge].
    + rewrite take_app_ge by lia.
      replace (n - length (c_str src))%nat with (S (n - length (c_str src) - 1)) by lia.
      destruct n as [|n]; [lia|]. cbn [replicate take].
      rewrite <- app_assoc. cbn [app]. rewrite c_str_app_plain by apply c_str_no_nul.
      cbn. by rewrite app_nil_r.
    + rewrite take_app_le by lia. rewrite c_str_app_plain; [done|].
      apply Forall_take, c_str_no_nul.
Qed.

(** X26: [energymon_get_source_osp] returns NULL for a NULL buffer;
    otherwise it changes the first [n] bytes of the buffer only, and the
    buffer holds the name "ODROID Smart Power" when [n] is more than 18; when
    [n] is at most 18 it holds the first [n] characters of the name followed
    by what the rest of the buffer held: the name is not terminated. *)
Theorem get_source_osp_terminates_above_18 (b : list ascii) (n : nat) :
  (n ≤ length b)%nat →
  energymon_get_source_osp None n = None
  ∧ ∃ b', energymon_get_source_osp (Some b) n = Some b'
          ∧ length b' = length b ∧ drop n b' = drop n b
          ∧ c_str b'
            = if decide (18 < n)%nat then chars "ODROID Smart Power"
              else (take n (chars "ODROID Smart Power") ++ c_str (drop n b))%list.
Proof.
  intros Hn. split; [done|]. eexists. split; [done|].
  destruct (strncpy_string b (chars "ODROID Smart Power") n Hn) as (Hlen & Hdrop & Hstr).
  split_and!; done.
Qed.

(** X26 on a buffer of 18 bytes that holds another name: the two names run
    together. *)
Lemma get_source_osp_terminates_above_18_witness :
  ∃ b', energymon_get_source_osp (Some (chars "Intel RAPL via MSR" ++ chars "!")) 18 = Some b'
        ∧ c_str b' = chars "ODROID Smart Power!".
Proof.
  destruct (get_source_osp_terminates_above_18 (chars "Intel RAPL via MSR" ++ chars "!") 18)
    as (_ & b' & Hb & _ & _ & Hstr).
  - vm_compute. lia.
  - exists b'. split; [exact Hb|]. rewrite Hstr. vm_compute. reflexivity.
Defined.

(** ** energymon-jetson-sensors *)

Lemma call_sensors_init_outcome (sensors_init : Z * option Z) (s : sys) (n : Z) :
  let r := call_sensors_init sensors_init (s, n) in
  r.1 = to_int sensors_init.1
  ∧ same_resources s r.2.1
  ∧ (if r.1 =? 0 then r.2.2 = n + 1 else r.2.2 = n ∧ errno r.2.1 ≠ 0).
Proof.
  cbn zeta. unfold call_sensors_init. unfold_MX. cbn [fst snd].
  assert (same_resources s (from_option (λ e, with_errno e s) s sensors_init.2)) as Hres
    by (by destruct (sensors_init.2)).
  set (s1 := from_option (λ e, with_errno e s) s sensors_init.2) in *.
  destruct (to_int sensors_init.1 =? 0) eqn:Hrc; cbn [negb fst snd]; rewrite ?Hrc.
  { done. }
  destruct (Z.eqb_spec (errno s1) 0) as [Hz|Hnz]; cbn; rewrite ?Hrc; split_and!; try done.
Qed.

(** X27: [init_libsensors] leaves the process with the descriptors it had:
    the init file it opens is closed again on every path.  When the
    life cycle is skipped it returns 0 and does nothing; when the init file
    cannot be opened it returns -1 with the error of [fopen]; otherwise it
    returns what [sensors_init] returns, and when that is not 0, [errno] is
    not 0 either and the library does not count as initialised. *)
Theorem init_libsensors_outcome (h : host) (sensors_init : Z * option Z) (s : sys) (n : Z) :
  let r := init_libsensors h sensors_init (s, n) in
  same_resources s r.2.1
  ∧ match getenv h ENERGYMON_JETSON_SENSORS_SKIP_LIFECYCLE,
          getenv h ENERGYMON_JETSON_SENSORS_INIT_FILE with
    | Some _, _ => r = (0, (s, n))
    | None, input =>
        match input ≫= λ i, open_error h (string_of_list_ascii i) with
        | Some e => r = (-1, (with_errno e s, n))
        | None =>
            r.1 = to_int sensors_init.1
            ∧ (if r.1 =? 0 then r.2.2 = n + 1 else r.2.2 = n ∧ errno r.2.1 ≠ 0)
        end
    end.
Proof.
  cbn zeta. unfold init_libsensors.
  destruct (getenv h ENERGYMON_JETSON_SENSORS_SKIP_LIFECYCLE) as [skip|]; [done|].
  destruct (getenv h ENERGYMON_JETSON_SENSORS_INIT_FILE) as [input|]; cbn [mbind option_bind].
  2: { destruct (call_sensors_init_outcome sensors_init s n) as (Hrc & Hres & Hn). done. }
  unfold_MX. cbn [fst snd].
  pose proof (sys_open_spec h (string_of_list_ascii input) s) as Hopen.
  destruct (open_error h (string_of_list_ascii input)) as [e|].
  { rewrite Hopen. cbn. done. }
  destruct Hopen as (fd & -> & Hfresh & Hge & _).
  destruct (fd <? 0) eqn:Hneg; [lia|].
  destruct (call_sensors_init_outcome sensors_init
              (with_fdtab (<[fd := string_of_list_ascii input]> (fdtab s)) s) n)
    as (Hrc & Hres & Hn).
  destruct (call_sensors_init sensors_init _) as [rc [s1 n1]]. cbn [fst snd] in *.
  unfold sys_close.
  destruct Hres as (Hf1 & Hh1 & Ht1 & Ho1). cbn in Hf1, Hh1, Ht1, Ho1.
  rewrite Hf1, lookup_insert_eq. cbn.
  rewrite delete_insert_id by done.
  split; [done|]. split; [done|].
  destruct (rc =? 0); [done|]. by destruct s1.
Qed.

(** X27 on a host that names an init file, when [sensors_init] fails
    without setting [errno]: the file is closed again and [errno] is
    EAGAIN. *)
Lemma init_libsensors_outcome_witness :
  let r := init_libsensors host_sensors_conf (1, None) (fresh_process, 0) in
  r.1 = 1 ∧ fdtab r.2.1 = fdtab fresh_process ∧ errno r.2.1 = EAGAIN ∧ r.2.2 = 0.
Proof.
  cbn zeta.
  destruct (init_libsensors_outcome host_sensors_conf (1, None) fresh_process 0)
    as ((Hf & _) & _).
  split; [vm_compute; reflexivity|]. split; [exact Hf|]. vm_compute. done.
Defined.
